(** * report_missing.py: data-completeness validation of the pension bundle

    A shallow embedding of [pensiones-simulador/JSONANTIGUO/report_missing.py]
    and the properties its specification states about it.

    Conventions of the embedding.
    - A Python [str] is a [string]; its characters are read as the code
      points below 256, and text with other code points is outside the
      embedding.  [str.strip] removes what [str.isspace] accepts, which in
      this range is the code points 9 to 13, 28 to 32, 133 and 160;
      [str.upper] is modelled on the ASCII letters.  Python compares strings
      by code point, which is [String.compare].
    - The built-in conversions [int] and [float] are an interface the
      program is parametrised by; the properties hold for every instance.
    - A value loaded from JSON is a [pyval].  A JSON object keeps the order in
      which its keys were first inserted, as a Python [dict] does, so it is an
      association list.
    - A Python [float] is a [spec_float] (IEEE 754 binary64 without NaN
      payloads).
    - The nested dictionaries of the demographic index are only ever looked
      up, so they are finite maps ([gmap]).
    - An exception that leaves a function is an [Raise] outcome. *)

From Stdlib Require Import ZArith Ascii String List Bool Lia.
From Stdlib Require Import Floats.SpecFloat.
From Stdlib Require Import Sorting.Sorted Sorting.Permutation.
From stdpp Require Import base option list sorting gmap strings.

Set Warnings "-register-all".

Local Open Scope string_scope.
Local Open Scope Z_scope.

(** ** Strings *)

Module PyStr.

(** [str.isspace] on one character: TAB, LF, VT, FF, CR, the four
    separators FS, GS, RS, US, the space, NEXT LINE (133) and the no-break
    space (160). *)
Definition is_space (c : ascii) : bool :=
  let n := N_of_ascii c in
  ((9 <=? n) && (n <=? 13) || (28 <=? n) && (n <=? 31) || (n =? 32)
   || (n =? 133) || (n =? 160))%N.

Fixpoint lstrip (s : string) : string :=
  match s with
  | EmptyString => EmptyString
  | String c s' => if is_space c then lstrip s' else s
  end.

Fixpoint rstrip (s : string) : string :=
  match s with
  | EmptyString => EmptyString
  | String c s' =>
      match rstrip s' with
      | EmptyString => if is_space c then EmptyString else String c EmptyString
      | r => String c r
      end
  end.

(** [s.strip()] *)
Definition strip (s : string) : string := rstrip (lstrip s).

(** Every character of [s] is whitespace (true of the empty string). *)
Fixpoint all_space (s : string) : bool :=
  match s with
  | EmptyString => true
  | String c s' => is_space c && all_space s'
  end.

(** [not s] for a string. *)
Definition is_empty (s : string) : bool :=
  match s with EmptyString => true | _ => false end.

(** [s.upper()] on ASCII letters. *)
Definition upper_char (c : ascii) : ascii :=
  let n := N_of_ascii c in
  if ((97 <=? n) && (n <=? 122))%N then ascii_of_N (n - 32) else c.

Fixpoint upper (s : string) : string :=
  match s with
  | EmptyString => EmptyString
  | String c s' => String (upper_char c) (upper s')
  end.

(** [sep.join(l)] *)
Fixpoint join (sep : string) (l : list string) : string :=
  match l with
  | [] => EmptyString
  | [x] => x
  | x :: rest => x ++ sep ++ join sep rest
  end.

(** [s.split(sep)] for a one-character separator: the fields between the
    separators, never an empty list. *)
Fixpoint split (sep : ascii) (s : string) : list string :=
  match s with
  | EmptyString => [EmptyString]
  | String c s' =>
      if Ascii.eqb c sep then EmptyString :: split sep s'
      else match split sep s' with
           | [] => [String c EmptyString]
           | f :: fs => String c f :: fs
           end
  end.

(** [s.split(sep, 1)[0]]: the text before the first separator. *)
Fixpoint before_first (sep : ascii) (s : string) : string :=
  match s with
  | EmptyString => EmptyString
  | String c s' =>
      if Ascii.eqb c sep then EmptyString else String c (before_first sep s')
  end.

(** [x in s] for strings: [x] occurs in [s] as a substring. *)
Fixpoint is_prefix (x s : string) : bool :=
  match x, s with
  | EmptyString, _ => true
  | String a x', String b s' => Ascii.eqb a b && is_prefix x' s'
  | String _ _, EmptyString => false
  end.

Fixpoint contains (s x : string) : bool :=
  is_prefix x s ||
  match s with
  | EmptyString => false
  | String _ s' => contains s' x
  end.

(** [a < b] and [a <= b] on strings. *)
Definition ltb (a b : string) : bool := String.ltb a b.
Definition leb (a b : string) : bool := String.leb a b.

End PyStr.

(** ** Values *)

(** What [json.load] can return. *)
Inductive pyval : Type :=
  | PNone
  | PBool (b : bool)
  | PInt (n : Z)
  | PFloat (f : spec_float)
  | PStr (s : string)
  | PList (l : list pyval)
  | PDict (d : list (string * pyval)).

(** [math.isnan] *)
Definition is_nan (f : spec_float) : bool :=
  match f with S754_nan => true | _ => false end.

(** [math.isfinite] *)
Definition is_finite (f : spec_float) : bool :=
  match f with S754_zero _ | S754_finite _ _ _ => true | _ => false end.

(** [bool(v)] *)
Definition truthy (v : pyval) : bool :=
  match v with
  | PNone => false
  | PBool b => b
  | PInt n => negb (n =? 0)
  | PFloat f => match f with S754_zero _ => false | _ => true end
  | PStr s => negb (PyStr.is_empty s)
  | PList l => match l with [] => false | _ => true end
  | PDict d => match d with [] => false | _ => true end
  end.

(** [isinstance(v, dict)] *)
Definition is_dict (v : pyval) : bool :=
  match v with PDict _ => true | _ => false end.

(** [d.get(k)] on a dictionary held as an association list. *)
Fixpoint dict_get {A} (d : list (string * A)) (k : string) : option A :=
  match d with
  | [] => None
  | (k', v) :: d' => if String.eqb k' k then Some v else dict_get d' k
  end.

(** [is_missing_value], lines 37-45. *)
Definition is_missing_value (v : pyval) : bool :=
  match v with
  | PNone => true
  | PFloat f => is_nan f
  | PStr s => PyStr.is_empty (PyStr.strip s)
  | _ => false
  end.

(** ** Built-in conversions

    [int(s)] and [float(s)] are Python built-ins, not code of this program.
    The program only relies on whether they raise, so they are an interface:
    [None] stands for the conversion raising.  [ascii_builtins] below gives
    an instance that follows Python on ASCII decimal text. *)
Class PyBuiltins := {
  py_int : string -> option Z;
  py_float : string -> option spec_float
}.

(** ** Outcomes *)

Inductive exn : Type :=
  | ValueError (msg : string)
  | AttributeError
  | TypeError
  | SystemExit (msg : string).

Inductive result (A : Type) : Type :=
  | Ok (a : A)
  | Raise (e : exn).
Arguments Ok {A} a.
Arguments Raise {A} e.

Definition bind {A B} (m : result A) (k : A -> result B) : result B :=
  match m with
  | Ok a => k a
  | Raise e => Raise e
  end.

Notation "x <- m ;; k" := (bind m (fun x => k))
  (at level 100, m at next level, right associativity, only parsing).

(** ** Constants, lines 13-34 *)

Definition DEFAULT_REQUIRED_INPUTS : list string :=
  ["C_m"; "C_people"; "P_m"; "P_people"; "rho"; "tau"; "u";
   "pop_growth"; "aging_pp"; "k"; "years"].

Definition DEFAULT_REQUIRED_AGES : list string :=
  ["Y_LE4"; "Y5T9"; "Y10T14"; "Y15T19"; "Y20T24"; "Y25T29"; "Y30T34";
   "Y35T39"; "Y40T44"; "Y45T49"; "Y50T54"; "Y55T59"; "Y60T64"; "Y65T69";
   "Y70T74"; "Y75T79"; "Y80T84"; "Y_GE85"].

Definition ISO2_TO_ISO3 : list (string * string) :=
  [("AT","AUT"); ("AU","AUS"); ("BE","BEL"); ("CA","CAN"); ("CH","CHE");
   ("CL","CHL"); ("CO","COL"); ("CR","CRI"); ("CZ","CZE");
   ("DE","DEU"); ("DK","DNK"); ("EE","EST"); ("ES","ESP"); ("FI","FIN");
   ("FR","FRA"); ("GB","GBR"); ("GR","GRC"); ("HU","HUN");
   ("IE","IRL"); ("IL","ISR"); ("IS","ISL"); ("IT","ITA"); ("JP","JPN");
   ("KR","KOR"); ("LT","LTU"); ("LU","LUX"); ("LV","LVA");
   ("MX","MEX"); ("NL","NLD"); ("NO","NOR"); ("NZ","NZL"); ("PL","POL");
   ("PT","PRT"); ("SE","SWE"); ("SI","SVN"); ("SK","SVK");
   ("TR","TUR"); ("US","USA")].

(** ** The demographic index

    [by_iso3[iso3][year][sex][age]] is the stored value; [None] there is a
    stored Python [None], which the loader never writes but the coverage
    check tests for.  The per-region sets are kept as the list of their
    members in iteration order: Python leaves that order unspecified, and
    the properties below hold for every order. *)
Record oecd_index : Type := {
  by_iso3 : gmap string (gmap string (gmap string (gmap string (option spec_float))));
  years_by_iso3 : gmap string (list string);
  sexes_by_iso3 : gmap string (list string);
  required_ages : list string
}.

(** [_safe_int], lines 73-77. *)
Definition _safe_int `{B : PyBuiltins} (s : string) : option Z := py_int s.

(** [max(l, key=...)] keeps the first element that no later one exceeds:
    the running best is replaced only by a strictly greater element. *)
Fixpoint max_from {A} (gt : A -> A -> bool) (best : A) (l : list A) : A :=
  match l with
  | [] => best
  | x :: l' => max_from gt (if gt x best then x else best) l'
  end.

(** The comparison of the keys [t[1]] at line 162. *)
Definition key_gt (a b : string * option Z) : bool :=
  match a.2, b.2 with
  | Some x, Some y => y <? x
  | _, _ => false
  end.

(** Lines 159-164 on a non-empty list of periods [y0 :: ys]. *)
Definition latest_of `{B : PyBuiltins} (y0 : string) (ys : list string) : string :=
  let years_int := map (fun y => (y, _safe_int y)) (y0 :: ys) in
  if forallb (fun t => bool_decide (is_Some t.2)) years_int
  then (max_from key_gt (y0, _safe_int y0)
          (map (fun y => (y, _safe_int y)) ys)).1
  else max_from (fun a b => PyStr.ltb b a) y0 ys.

(** [has_all_ages], lines 168-178, with [year_block] and [req] passed in. *)
Definition age_missing (ages_map : gmap string (option spec_float)) (a : string) : bool :=
  match ages_map !! a with
  | None => true
  | Some None => true
  | Some (Some v) => is_nan v
  end.

Definition has_all_ages
    (year_block : gmap string (gmap string (option spec_float)))
    (req : list string) (sex_code : string) : bool * list string :=
  let ages_map := default ∅ (year_block !! sex_code) in
  let missing := filter (fun a => age_missing ages_map a = true) req in
  (bool_decide (missing = []), missing).

(** Lines 194-198 (and 200-204, 206-210): the issue of one sex code. *)
Definition sex_issue
    (year_block : gmap string (gmap string (option spec_float)))
    (code falta faltan : string) (miss : list string) : list string :=
  match year_block !! code with
  | None => [falta]
  | Some _ =>
      match miss with
      | [] => []
      | _ => [faltan ++ PyStr.join "|" miss]
      end
  end.

(** [check_oecd_csv_for_iso3], lines 139-212. *)
Definition check_oecd_csv_for_iso3 `{B : PyBuiltins}
    (iso3 : string) (oecd_idx : oecd_index) : bool * option string * list string :=
  let req := required_ages oecd_idx in
  match default [] (years_by_iso3 oecd_idx !! iso3) with
  | [] => (false, None, ["sin_filas_iso3"])
  | y0 :: ys =>
      let latest_year := latest_of y0 ys in
      let year_block :=
        default ∅ (default ∅ (by_iso3 oecd_idx !! iso3) !! latest_year) in
      let '(ok_T, miss_T) := has_all_ages year_block req "_T" in
      if ok_T then (true, Some latest_year, [])
      else
        let '(ok_M, miss_M) := has_all_ages year_block req "_M" in
        let '(ok_F, miss_F) := has_all_ages year_block req "_F" in
        if ok_M && ok_F then (true, Some latest_year, [])
        else
          (false, Some latest_year,
           (sex_issue year_block "_T" "falta_sex_T" "faltan_edades_T:" miss_T
            ++ sex_issue year_block "_M" "falta_sex_M" "faltan_edades_M:" miss_M
            ++ sex_issue year_block "_F" "falta_sex_F" "faltan_edades_F:" miss_F)%list)
  end.

(** [issue_key], lines 215-217. *)
Definition issue_key (issue : string) : string :=
  PyStr.strip (PyStr.before_first ":" issue).

(** ** The demographic table and its loader *)

(** What [csv.DictReader] hands to the loader: the header ([None] when the
    file has no first line) and one dictionary per data row.  A cell that
    the reader leaves at [None] (a short row) is an absent key: the loader
    reads every cell through [row.get(c) or ""]. *)
Record csv_table : Type := {
  fieldnames : option (list string);
  csv_rows : list (gmap string string)
}.

(** Line 90.  The source holds the names in a set; the order of its
    members only shows in the text of the error message. *)
Definition required_cols : list string :=
  ["REF_AREA"; "SEX"; "AGE"; "TIME_PERIOD"; "OBS_VALUE"].

(** [(row.get(c) or "").strip()] *)
Definition cell (row : gmap string string) (c : string) : string :=
  PyStr.strip (default "" (row !! c)).

(** [s.add(x)] on a set held as the list of its members. *)
Definition set_add (x : string) (s : list string) : list string :=
  if bool_decide (x ∈ s) then s else (s ++ [x])%list.

(** [d[k].add(x)] on a [defaultdict(set)]. *)
Definition dd_add (k x : string) (d : gmap string (list string))
    : gmap string (list string) :=
  <[k := set_add x (default [] (d !! k))]> d.

(** [d.setdefault(i, {}).setdefault(y, {}).setdefault(s, {})[a] = v], line 129. *)
Definition store
    (d : gmap string (gmap string (gmap string (gmap string (option spec_float)))))
    (i y s a : string) (v : spec_float)
    : gmap string (gmap string (gmap string (gmap string (option spec_float)))) :=
  let m1 := default ∅ (d !! i) in
  let m2 := default ∅ (m1 !! y) in
  let m3 := default ∅ (m2 !! s) in
  <[i := <[y := <[s := <[a := Some v]> m3]> m2]> m1]> d.

(** The body of the loop over the rows, lines 108-129. *)
Definition load_row `{B : PyBuiltins} (idx : oecd_index) (row : gmap string string)
    : oecd_index :=
  let iso3 := cell row "REF_AREA" in
  let sex := cell row "SEX" in
  let age := cell row "AGE" in
  let year := cell row "TIME_PERIOD" in
  let val_s := cell row "OBS_VALUE" in
  if PyStr.is_empty iso3 || PyStr.is_empty year
     || PyStr.is_empty sex || PyStr.is_empty age
  then idx
  else
    let years' := dd_add iso3 year (years_by_iso3 idx) in
    let sexes' := dd_add iso3 sex (sexes_by_iso3 idx) in
    if negb (bool_decide (age ∈ required_ages idx))
    then {| by_iso3 := by_iso3 idx; years_by_iso3 := years';
            sexes_by_iso3 := sexes'; required_ages := required_ages idx |}
    else
      let v := match py_float val_s with
               | Some v => v
               | None => S754_nan
               end in
      {| by_iso3 := store (by_iso3 idx) iso3 year sex age v;
         years_by_iso3 := years'; sexes_by_iso3 := sexes';
         required_ages := required_ages idx |}.

Definition empty_index (required_ages : list string) : oecd_index :=
  {| by_iso3 := ∅; years_by_iso3 := ∅; sexes_by_iso3 := ∅;
     required_ages := required_ages |}.

(** [load_oecd_population_csv], lines 80-136, on the table read at [path]. *)
Definition load_oecd_population_csv `{B : PyBuiltins}
    (table : csv_table) (required_ages : list string) : result oecd_index :=
  match fieldnames table with
  | None | Some [] => Raise (ValueError "CSV sin cabecera (fieldnames vacíos).")
  | Some fs =>
      let missing_cols :=
        filter (fun c => negb (bool_decide (c ∈ fs)) = true) required_cols in
      match missing_cols with
      | _ :: _ =>
          Raise (ValueError ("CSV: faltan columnas requeridas: "
                             ++ PyStr.join ", " missing_cols))
      | [] => Ok (fold_left load_row (csv_rows table) (empty_index required_ages))
      end
  end.

(** ** The per-country analysis *)

(** [v or {}] where [v] is the result of a [dict.get]. *)
Definition or_empty_dict (v : option pyval) : pyval :=
  match v with
  | Some x => if truthy x then x else PDict []
  | None => PDict []
  end.

(** [v.get(k)]: only a dictionary has the method. *)
Definition pyval_get (v : pyval) (k : string) : result (option pyval) :=
  match v with
  | PDict d => Ok (dict_get d k)
  | _ => Raise AttributeError
  end.

(** [sorted(set(l))] on strings: the distinct members in ascending order. *)
Fixpoint insert_uniq (x : string) (l : list string) : list string :=
  match l with
  | [] => [x]
  | y :: l' =>
      if String.eqb x y then l
      else if PyStr.ltb x y then x :: l
      else y :: insert_uniq x l'
  end.

Definition sorted_set (l : list string) : list string :=
  foldr insert_uniq [] l.

Definition as_str (v : pyval) : option string :=
  match v with PStr s => Some s | _ => None end.

(** Lines 60-62 and the members of [set(declared_missing)] at line 70.
    The members are expected to be strings.  A list with another kind of
    member makes the run end in an uncaught exception (in [set], in [sorted],
    or at the latest in [str.join] when the country is printed); the
    embedding raises it at line 70. *)
Definition declared_of (entry : list (string * pyval)) : result (list string) :=
  match dict_get entry "missing_fields" with
  | None => Ok []
  | Some v =>
      if negb (truthy v) then Ok []
      else match v with
           | PStr s => Ok [s]
           | PList l =>
               match mapM as_str l with
               | Some ss => Ok ss
               | None => Raise TypeError
               end
           | PDict d => Ok (map fst d)
           | _ => Raise TypeError
           end
  end.

(** The test of line 67 for one required key: [inputs] is whatever
    [entry.get("inputs") or {}] is. *)
Definition input_missing (inputs : pyval) (k : string) : result bool :=
  match inputs with
  | PDict d =>
      Ok (match dict_get d k with
          | None => true
          | Some v => is_missing_value v
          end)
  | PStr s => if PyStr.contains s k then Raise AttributeError else Ok true
  | PList l =>
      if existsb (fun v => match v with PStr s => String.eqb s k | _ => false end) l
      then Raise AttributeError else Ok true
  | _ => Raise TypeError
  end.

(** The loop of lines 65-68. *)
Fixpoint missing_inputs_of (inputs : pyval) (required_inputs : list string)
    : result (list string) :=
  match required_inputs with
  | [] => Ok []
  | k :: ks =>
      m <- input_missing inputs k ;;
      rest <- missing_inputs_of inputs ks ;;
      Ok (if m then k :: rest else rest)
  end.

(** [analyze_country], lines 53-70. *)
Definition analyze_country (iso2 : string) (entry : list (string * pyval))
    (required_inputs : list string)
    : result (string * pyval * list string * list string) :=
  nm <- pyval_get (or_empty_dict (dict_get entry "country")) "name" ;;
  let name := match nm with
              | Some v => if truthy v then v else PStr iso2
              | None => PStr iso2
              end in
  let inputs := or_empty_dict (dict_get entry "inputs") in
  missing_inputs <- missing_inputs_of inputs required_inputs ;;
  declared_missing <- declared_of entry ;;
  Ok (iso2, name, sorted_set declared_missing, sorted_set missing_inputs).

(** ** The run *)

(** A [Counter]: keys in the order of their first increment. *)
Fixpoint counter_incr (k : string) (c : list (string * nat)) : list (string * nat) :=
  match c with
  | [] => [(k, 1%nat)]
  | (k', n) :: c' =>
      if String.eqb k' k then (k', S n) :: c' else (k', n) :: counter_incr k c'
  end.

Definition counter_add_all (ks : list string) (c : list (string * nat))
    : list (string * nat) :=
  fold_left (fun c k => counter_incr k c) ks c.

(** [list.sort] and [sorted] are stable: among members with equal keys the
    earlier one stays first.  An insertion sort that puts a member in front
    of the first later member it does not exceed is such a sort, and a stable
    sort has one possible result. *)
Fixpoint insert_sorted {A} (le : A -> A -> bool) (x : A) (l : list A) : list A :=
  match l with
  | [] => [x]
  | y :: l' => if le x y then x :: l else y :: insert_sorted le x l'
  end.

Definition stable_sort {A} (le : A -> A -> bool) (l : list A) : list A :=
  foldr (insert_sorted le) [] l.

(** [Counter.most_common()]: [sorted(items, key=itemgetter(1), reverse=True)]. *)
Definition most_common (c : list (string * nat)) : list (string * nat) :=
  stable_sort (fun a b => (b.2 <=? a.2)%nat) c.

(** The tuples appended to [rows] at line 315. *)
Record row : Type := {
  r_iso2 : string;
  r_name : pyval;
  r_declared : list string;
  r_inputs : list string;
  r_iso3 : option pyval;
  r_year : option string;
  r_issues : list string
}.

(** [row_score], lines 318-320. *)
Definition row_score (r : row) : Z :=
  - Z.of_nat (length (r_declared r) + length (r_inputs r) + length (r_issues r)).

(** The order of the keys [(row_score(r), r[0])] of line 322. *)
Definition row_key_le (a b : row) : bool :=
  (row_score a <? row_score b)
  || ((row_score a =? row_score b) && PyStr.leb (r_iso2 a) (r_iso2 b)).

Definition sort_rows (rows : list row) : list row :=
  stable_sort row_key_le rows.

(** The state of the loop of lines 277-315. *)
Record loop_state : Type := {
  total : nat;
  with_issues : nat;
  freq_declared : list (string * nat);
  freq_inputs : list (string * nat);
  freq_csv : list (string * nat);
  rows : list row
}.

Definition init_state : loop_state :=
  {| total := 0; with_issues := 0; freq_declared := []; freq_inputs := [];
     freq_csv := []; rows := [] |}.

Definition bump_total (st : loop_state) : loop_state :=
  {| total := S (total st); with_issues := with_issues st;
     freq_declared := freq_declared st; freq_inputs := freq_inputs st;
     freq_csv := freq_csv st; rows := rows st |}.

(** Line 299: the code of the record if it has a true one, else the
    crosswalk's. *)
Definition resolve_iso3 (iso2 : string) (entry : list (string * pyval))
    : result (option pyval) :=
  emb <- pyval_get (or_empty_dict (dict_get entry "country")) "iso3" ;;
  Ok (match emb with
      | Some v => if truthy v then Some v
                  else PStr <$> dict_get ISO2_TO_ISO3 iso2
      | None => PStr <$> dict_get ISO2_TO_ISO3 iso2
      end).

(** Line 303 for whatever true value [iso3] is: the dictionaries of the
    index are keyed by strings, so another hashable value finds no periods,
    and a list or a dictionary cannot be looked up at all. *)
Definition check_oecd_csv `{B : PyBuiltins} (iso3 : pyval) (oecd_idx : oecd_index)
    : result (bool * option string * list string) :=
  match iso3 with
  | PStr s => Ok (check_oecd_csv_for_iso3 s oecd_idx)
  | PList _ | PDict _ => Raise TypeError
  | _ => Ok (false, None, ["sin_filas_iso3"])
  end.

(** Lines 293-308: the demographic check of one country. *)
Definition csv_check `{B : PyBuiltins} (oecd_idx : option oecd_index)
    (iso2 : string) (entry : list (string * pyval))
    : result (option pyval * option string * list string) :=
  match oecd_idx with
  | None => Ok (None, None, [])
  | Some idx =>
      iso3 <- resolve_iso3 iso2 entry ;;
      match iso3 with
      | None => Ok (None, None, ["no_iso3_mapping"])
      | Some c =>
          res <- check_oecd_csv c idx ;;
          let '(ok, csv_year, issues) := res in
          Ok (Some c, csv_year, if ok then [] else issues)
      end
  end.

(** The body of the loop, lines 277-315. *)
Definition loop_body `{B : PyBuiltins} (required_inputs : list string)
    (show_ok : bool) (oecd_idx : option oecd_index)
    (st : loop_state) (item : string * pyval) : result loop_state :=
  let st := bump_total st in
  match item.2 with
  | PDict entry =>
      let iso2 := PyStr.upper (PyStr.strip item.1) in
      a <- analyze_country iso2 entry required_inputs ;;
      let '(iso2, name, declared_missing, missing_inputs) := a in
      let fd := counter_add_all declared_missing (freq_declared st) in
      let fi := counter_add_all missing_inputs (freq_inputs st) in
      c <- csv_check oecd_idx iso2 entry ;;
      let '(iso3, csv_year, csv_issues) := c in
      let fc := counter_add_all (map issue_key csv_issues) (freq_csv st) in
      let has_issues :=
        negb (bool_decide (declared_missing = []))
        || negb (bool_decide (missing_inputs = []))
        || negb (bool_decide (csv_issues = [])) in
      Ok {| total := total st;
            with_issues := if has_issues then S (with_issues st)
                           else with_issues st;
            freq_declared := fd; freq_inputs := fi; freq_csv := fc;
            rows := if has_issues || show_ok
                    then (rows st ++
                          [{| r_iso2 := iso2; r_name := name;
                              r_declared := declared_missing;
                              r_inputs := missing_inputs;
                              r_iso3 := iso3; r_year := csv_year;
                              r_issues := csv_issues |}])%list
                    else rows st |}
  | _ => Ok st
  end.

(** The whole loop over [countries.items()]. *)
Fixpoint run_loop `{B : PyBuiltins} (required_inputs : list string)
    (show_ok : bool) (oecd_idx : option oecd_index)
    (items : list (string * pyval)) (st : loop_state) : result loop_state :=
  match items with
  | [] => Ok st
  | item :: items' =>
      st' <- loop_body required_inputs show_ok oecd_idx st item ;;
      run_loop required_inputs show_ok oecd_idx items' st'
  end.

(** What the run is given: the parsed command line, the document read from
    [--json] and the table read from [--oecd-csv]. *)
Record args : Type := {
  json_data : pyval;
  required_inputs_arg : string;
  show_ok : bool;
  oecd_csv : option string;
  csv_file : csv_table;
  required_ages_arg : string
}.

(** [[x.strip() for x in s.split(",") if x.strip()]], lines 251-252. *)
Definition parse_list (s : string) : list string :=
  filter (fun x => negb (PyStr.is_empty x) = true)
         (map PyStr.strip (PyStr.split "," s)).

(** What the run prints: the two totals, whether the demographic check was
    active, the country blocks in the order printed, and the frequency
    tables in the order printed (the third only when the check is active;
    none at all after the early return of line 335). *)
Record report : Type := {
  rep_total : nat;
  rep_with_issues : nat;
  rep_csv_active : bool;
  rep_countries : list row;
  rep_tables : option (list (string * nat) * list (string * nat)
                       * option (list (string * nat)))
}.

Definition structure_msg : string :=
  "Estructura inesperada: no existe el objeto 'countries' o no es un dict.".

Definition exn_text (e : exn) : string :=
  match e with
  | ValueError m | SystemExit m => m
  | AttributeError => "AttributeError"
  | TypeError => "TypeError"
  end.

(** Lines 260-266. *)
Definition load_index `{B : PyBuiltins} (a : args) (required_ages : list string)
    : result (option oecd_index) :=
  match oecd_csv a with
  | None => Ok None
  | Some path =>
      if PyStr.is_empty path then Ok None
      else match load_oecd_population_csv (csv_file a) required_ages with
           | Ok idx => Ok (Some idx)
           | Raise e =>
               Raise (SystemExit ("Error cargando CSV OCDE '" ++ path ++ "': "
                                  ++ exn_text e))
           end
  end.

(** Lines 337-339: the rows that get a block. *)
Definition printed (show_ok : bool) (r : row) : bool :=
  negb (bool_decide (r_declared r = []) && bool_decide (r_inputs r = [])
        && bool_decide (r_issues r = []) && negb show_ok).

(** [main], lines 220-397. *)
Definition main `{B : PyBuiltins} (a : args) : result report :=
  let required_inputs := parse_list (required_inputs_arg a) in
  let required_ages := parse_list (required_ages_arg a) in
  countries <- pyval_get (json_data a) "countries" ;;
  match countries with
  | Some (PDict items) =>
      oecd_idx <- load_index a required_ages ;;
      st <- run_loop required_inputs (show_ok a) oecd_idx items init_state ;;
      let sorted := sort_rows (rows st) in
      let active := bool_decide (is_Some oecd_idx) in
      Ok (match sorted with
          | [] => {| rep_total := total st; rep_with_issues := with_issues st;
                     rep_csv_active := active; rep_countries := [];
                     rep_tables := None |}
          | _ => {| rep_total := total st; rep_with_issues := with_issues st;
                    rep_csv_active := active;
                    rep_countries :=
                      filter (fun r => printed (show_ok a) r = true) sorted;
                    rep_tables :=
                      Some (most_common (freq_declared st),
                            most_common (freq_inputs st),
                            if active then Some (most_common (freq_csv st))
                            else None) |}
          end)
  | _ => Raise (SystemExit structure_msg)
  end.

(** ** An instance of the built-ins on ASCII text *)

Module AsciiBuiltins.

Definition digit_of (c : ascii) : option Z :=
  let n := Z.of_N (N_of_ascii c) in
  if (48 <=? n) && (n <=? 57) then Some (n - 48) else None.

(** Decimal digits, single underscores allowed between two digits. *)
Fixpoint digits (acc : Z) (after_digit : bool) (s : string) : option Z :=
  match s with
  | EmptyString => if after_digit then Some acc else None
  | String c s' =>
      match digit_of c with
      | Some d => digits (10 * acc + d) true s'
      | None =>
          if Ascii.eqb c "_" && after_digit then digits acc false s' else None
      end
  end.

(** [int(s)] in base 10: surrounding whitespace, an optional sign, digits. *)
Definition int_of (s : string) : option Z :=
  match PyStr.strip s with
  | String "+" r => digits 0 false r
  | String "-" r => Z.opp <$> digits 0 false r
  | t => digits 0 false t
  end.

(** [float(s)] where [s] is ["nan"] or an unsigned decimal integer; every
    other text is rejected, which Python does only for some of them. *)
Definition float_of (s : string) : option spec_float :=
  if String.eqb (PyStr.strip s) "nan" then Some S754_nan
  else (fun n => binary_normalize 53 1024 n 0 false)
         <$> digits 0 false (PyStr.strip s).

End AsciiBuiltins.

Definition ascii_builtins : PyBuiltins :=
  {| py_int := AsciiBuiltins.int_of; py_float := AsciiBuiltins.float_of |}.

(** ** merge_country_jsons.py

    The script that writes the bundle the report reads.  A file of the input
    folder is its name and what [json.load] makes of it; the folder is the
    list of its [.json] files in sorted order, as [sorted(input_dir.glob(..))]
    yields them, and the time of the run is a text the caller supplies. *)

Module Merge.

Inductive file_content : Type :=
  | Parsed (v : pyval)
  | Invalid (err : string).

(** [load_json], lines 10-15: a [JSONDecodeError] becomes a [ValueError]. *)
Definition load_json (name : string) (c : file_content) : result pyval :=
  match c with
  | Parsed v => Ok v
  | Invalid err => Raise (ValueError ("JSON inválido en " ++ name ++ ": " ++ err))
  end.

Definition falta_iso2 (filename : string) : string :=
  "Falta country.iso2 en " ++ filename ++ ". "
  ++ "El script espera la estructura: obj['country']['iso2']".

(** [extract_iso2], lines 18-30.  [obj["country"]["iso2"]] raises unless
    both subscripts are on mappings that have the key, and whatever it
    raises is turned into the [ValueError] of line 22. *)
Definition extract_iso2 (obj : pyval) (filename : string) : result string :=
  match obj with
  | PDict d =>
      match dict_get d "country" with
      | Some (PDict c) =>
          match dict_get c "iso2" with
          | Some (PStr s) =>
              if PyStr.is_empty (PyStr.strip s)
              then Raise (ValueError ("country.iso2 vacío o no-string en " ++ filename))
              else Ok (PyStr.upper (PyStr.strip s))
          | Some _ =>
              Raise (ValueError ("country.iso2 vacío o no-string en " ++ filename))
          | None => Raise (ValueError (falta_iso2 filename))
          end
      | _ => Raise (ValueError (falta_iso2 filename))
      end
  | _ => Raise (ValueError (falta_iso2 filename))
  end.

(** [d[k] = v]: the value is replaced where the key stands, a new key goes
    to the end. *)
Fixpoint dict_set {A} (k : string) (v : A) (d : list (string * A)) : list (string * A) :=
  match d with
  | [] => [(k, v)]
  | (k', v') :: d' =>
      if String.eqb k' k then (k', v) :: d' else (k', v') :: dict_set k v d'
  end.

(** [d.setdefault(k, v)], for its effect on [d]. *)
Definition dict_setdefault {A} (k : string) (v : A) (d : list (string * A))
    : list (string * A) :=
  match dict_get d k with
  | Some _ => d
  | None => (d ++ [(k, v)])%list
  end.

(** Lines 54-58 (and 88-92): the record is given the name of its file.
    [obj.setdefault] exists only on a mapping. *)
Definition tag_source (obj : pyval) (name : string) : result pyval :=
  match obj with
  | PDict d =>
      let d1 := dict_setdefault "source" (PDict []) d in
      match dict_get d1 "source" with
      | Some (PDict src) =>
          Ok (PDict (dict_set "source"
                       (PDict (dict_setdefault "input_file" (PStr name) src)) d1))
      | _ => Ok (PDict (dict_set "_input_file" (PStr name) d1))
      end
  | _ => Raise AttributeError
  end.

Definition duplicado (iso2 name : string) : string :=
  "ISO2 duplicado '" ++ iso2 ++ "'. Aparece de nuevo en " ++ name ++ ". "
  ++ "Activa overwrite=True para permitir que el último archivo prevalezca.".

(** The loop of lines 50-66. *)
Fixpoint merge_map (overwrite : bool) (files : list (string * file_content))
    (countries_map : list (string * pyval)) : result (list (string * pyval)) :=
  match files with
  | [] => Ok countries_map
  | (name, c) :: rest =>
      obj <- load_json name c ;;
      iso2 <- extract_iso2 obj name ;;
      obj' <- tag_source obj name ;;
      if bool_decide (is_Some (dict_get countries_map iso2)) && negb overwrite
      then Raise (ValueError (duplicado iso2 name))
      else merge_map overwrite rest (dict_set iso2 obj' countries_map)
  end.

(** The loop of lines 85-94. *)
Fixpoint merge_list (files : list (string * file_content)) : result (list pyval) :=
  match files with
  | [] => Ok []
  | (name, c) :: rest =>
      obj <- load_json name c ;;
      obj' <- tag_source obj name ;;
      rest' <- merge_list rest ;;
      Ok (obj' :: rest')
  end.

(** [merge_jsons], lines 33-109. *)
Definition merge_jsons (input_dir : string) (files : list (string * file_content))
    (generated_at output_mode : string) (recursive overwrite : bool)
    : result pyval :=
  match files with
  | [] => Raise (ValueError ("No se encontraron .json en: " ++ input_dir))
  | _ =>
      if String.eqb output_mode "map" then
        countries_map <- merge_map overwrite files [] ;;
        Ok (PDict
              [("schema_version", PStr "country_sim_inputs_bundle_v1");
               ("generated_at_utc", PStr generated_at);
               ("mode", PStr "map");
               ("countries", PDict countries_map);
               ("stats",
                PDict [("input_dir", PStr input_dir);
                       ("files_merged", PInt (Z.of_nat (length files)));
                       ("unique_countries", PInt (Z.of_nat (length countries_map)));
                       ("recursive", PBool recursive);
                       ("overwrite", PBool overwrite)])])
      else if String.eqb output_mode "list" then
        countries_list <- merge_list files ;;
        Ok (PDict
              [("schema_version", PStr "country_sim_inputs_bundle_v1");
               ("generated_at_utc", PStr generated_at);
               ("mode", PStr "list");
               ("countries", PList countries_list);
               ("stats",
                PDict [("input_dir", PStr input_dir);
                       ("files_merged", PInt (Z.of_nat (length files)));
                       ("items", PInt (Z.of_nat (length countries_list)));
                       ("recursive", PBool recursive)])])
      else Raise (ValueError "output_mode debe ser 'map' o 'list'")
  end.

End Merge.

(** ** The vocabulary of the specification *)

(** The whitespace characters, by code point: TAB, LF, VT, FF, CR, the
    separators FS, GS, RS and US, the space, NEXT LINE and the no-break
    space. *)
Definition whitespace_codes : list N :=
  [9; 10; 11; 12; 13; 28; 29; 30; 31; 32; 133; 160]%N.

(** A string with nothing but whitespace in it; the empty string is one. *)
Definition blank (s : string) : Prop :=
  Forall (fun c => N_of_ascii c ∈ whitespace_codes) (list_ascii_of_string s).

(** What the specification calls missing: null, a not-a-number float, or a
    string with nothing but whitespace in it. *)
Definition missing_by_spec (v : pyval) : Prop :=
  v = PNone
  \/ v = PFloat S754_nan
  \/ (exists s, v = PStr s /\ blank s).

(** A finite number: any integer, or a float that is neither an infinity
    nor a not-a-number. *)
Definition finite_number (v : pyval) : Prop :=
  (exists n, v = PInt n) \/ (exists f, v = PFloat f /\ is_finite f = true).

(** Every period of the list parses as an integer. *)
Definition all_parse `{B : PyBuiltins} (l : list string) : Prop :=
  Forall (fun y => is_Some (_safe_int y)) l.

(** The periods of the specification's example. *)
Definition example_periods : list string := ["1999"; "2010"; "2."; "2001"].

(** The periods recorded for a region, and its latest one. *)
Definition periods_of (idx : oecd_index) (iso3 : string) : list string :=
  default [] (years_by_iso3 idx !! iso3).

Definition latest_period `{B : PyBuiltins} (idx : oecd_index) (iso3 : string)
    : option string :=
  match periods_of idx iso3 with
  | [] => None
  | y0 :: ys => Some (latest_of y0 ys)
  end.

(** What the index stores for a region at a period, and the series of one
    sex code there (empty when there is none). *)
Definition block_of (idx : oecd_index) (iso3 year : string)
    : gmap string (gmap string (option spec_float)) :=
  default ∅ (default ∅ (by_iso3 idx !! iso3) !! year).

Definition series_of (idx : oecd_index) (iso3 year sex : string)
    : gmap string (option spec_float) :=
  default ∅ (block_of idx iso3 year !! sex).

(** A series contains a finite value for every required age band. *)
Definition covers (m : gmap string (option spec_float)) (req : list string) : Prop :=
  forall a, a ∈ req -> exists v, m !! a = Some (Some v) /\ is_finite v = true.

#[global] Instance spec_float_eq_dec : EqDecision spec_float.
Proof. solve_decision. Defined.

(** An age band is lacking in a series: not there at all, or stored as
    null or as not-a-number. *)
Definition lacks (m : gmap string (option spec_float)) (a : string) : Prop :=
  m !! a = None \/ m !! a = Some None \/ m !! a = Some (Some S754_nan).

#[global] Instance lacks_dec m a : Decision (lacks m a).
Proof. unfold lacks. apply _. Defined.

(** The issue the specification gives one sex code, with the code reading
    "observed" as: the index stores a series for it at the latest period. *)
Definition issue_for (block : gmap string (gmap string (option spec_float)))
    (req : list string) (code letter : string) : list string :=
  match block !! code with
  | None => ["falta_sex_" ++ letter]
  | Some m =>
      match filter (lacks m) req with
      | [] => []
      | miss => ["faltan_edades_" ++ letter ++ ":" ++ PyStr.join "|" miss]
      end
  end.

(** The same issue, reading "observed" as the specification words it: the
    sex code was seen in some row of the region. *)
Definition issue_as_stated (idx : oecd_index) (iso3 : string)
    (block : gmap string (gmap string (option spec_float)))
    (req : list string) (code letter : string) : list string :=
  if bool_decide (code ∈ default [] (sexes_by_iso3 idx !! iso3))
  then match filter (lacks (default ∅ (block !! code))) req with
       | [] => []
       | miss => ["faltan_edades_" ++ letter ++ ":" ++ PyStr.join "|" miss]
       end
  else ["falta_sex_" ++ letter].

(** A table of two rows: the combined series in 2019 only, the male series
    in 2020 only. *)
Definition two_period_table : csv_table :=
  {| fieldnames := Some ["REF_AREA"; "SEX"; "AGE"; "TIME_PERIOD"; "OBS_VALUE"];
     csv_rows :=
       [ list_to_map [("REF_AREA", "ESP"); ("SEX", "_T"); ("AGE", "Y_LE4");
                      ("TIME_PERIOD", "2019"); ("OBS_VALUE", "1")];
         list_to_map [("REF_AREA", "ESP"); ("SEX", "_M"); ("AGE", "Y_LE4");
                      ("TIME_PERIOD", "2020"); ("OBS_VALUE", "1")] ] |}.

Definition two_period_index : oecd_index :=
  fold_left (load_row (B := ascii_builtins)) (csv_rows two_period_table)
            (empty_index ["Y_LE4"]).

(** An index with one region, two periods and one required age band; [t]
    and [m] are the values of the combined and of the male series at the
    later period, and there is no female series. *)
Definition small_index (t m : option spec_float) : oecd_index :=
  {| by_iso3 :=
       {[ "ESP" := {[ "2020" := {[ "_T" := {[ "Y_LE4" := t ]};
                                   "_M" := {[ "Y_LE4" := m ]} ]} ]} ]};
     years_by_iso3 := {[ "ESP" := ["2019"; "2020"] ]};
     sexes_by_iso3 := {[ "ESP" := ["_T"; "_M"] ]};
     required_ages := ["Y_LE4"] |}.

(** The float 1.0. *)
Definition one : spec_float := S754_finite false 4503599627370496 (-52).

(** An index whose only series are a male and a female one. *)
Definition split_index : oecd_index :=
  {| by_iso3 :=
       {[ "ESP" := {[ "2020" := {[ "_M" := {[ "Y_LE4" := Some one ]};
                                   "_F" := {[ "Y_LE4" := Some one ]} ]} ]} ]};
     years_by_iso3 := {[ "ESP" := ["2020"] ]};
     sexes_by_iso3 := {[ "ESP" := ["_M"; "_F"] ]};
     required_ages := ["Y_LE4"] |}.

(** The header of a table is unusable: there is none, it has no column, or
    one of the five required names is not in it. *)
Definition bad_header (t : csv_table) : Prop :=
  fieldnames t = None
  \/ fieldnames t = Some []
  \/ exists fs c, fieldnames t = Some fs /\ c ∈ required_cols /\ c ∉ fs.

(** A row that the loader keeps and whose age band is required. *)
Definition indexed_row (req : list string) (r : gmap string string) : Prop :=
  cell r "REF_AREA" <> "" /\ cell r "TIME_PERIOD" <> ""
  /\ cell r "SEX" <> "" /\ cell r "AGE" <> ""
  /\ cell r "AGE" ∈ req.

(** The value a loaded index holds for the key of row [r]. *)
Definition stored_for (idx : oecd_index) (r : gmap string string)
    : option (option spec_float) :=
  series_of idx (cell r "REF_AREA") (cell r "TIME_PERIOD") (cell r "SEX")
    !! cell r "AGE".

(** A table whose second row has a value that is no number. *)
Definition bad_value_table : csv_table :=
  {| fieldnames := Some ["REF_AREA"; "SEX"; "AGE"; "TIME_PERIOD"; "OBS_VALUE"];
     csv_rows :=
       [ list_to_map [("REF_AREA", "ESP"); ("SEX", "_T"); ("AGE", "Y_LE4");
                      ("TIME_PERIOD", "2020"); ("OBS_VALUE", "12")];
         list_to_map [("REF_AREA", "ESP"); ("SEX", "_T"); ("AGE", "Y5T9");
                      ("TIME_PERIOD", "2020"); ("OBS_VALUE", "n/a")] ] |}.

(** The number of issues of a row, and the order of the report: more issues
    first, and among rows with as many issues the smaller region code first. *)
Definition issue_count (r : row) : nat :=
  (length (r_declared r) + length (r_inputs r) + length (r_issues r))%nat.

Definition row_before (a b : row) : Prop :=
  (issue_count b < issue_count a)%nat
  \/ (issue_count a = issue_count b /\ PyStr.leb (r_iso2 a) (r_iso2 b) = true).

(** In the stream [s] of encountered names, [a] is first met before [b] is. *)
Definition seen_before (s : list string) (a b : string) : Prop :=
  exists s1 s2, s = (s1 ++ a :: s2)%list /\ (a ∉ s1) /\ (b ∉ s1) /\ a <> b.

(** How many times the name [k] occurs in the stream [s]. *)
Definition occurrences (s : list string) (k : string) : nat :=
  length (filter (fun x => x = k) s).

(** What a counter knows of the stream it has counted: its lines are the
    names of the stream, in the order they were first met, each with the
    number of its occurrences. *)
Record counts (s : list string) (c : list (string * nat)) : Prop := {
  counts_keys : forall k, k ∈ map fst c <-> k ∈ s;
  counts_order : StronglySorted (seen_before s) (map fst c);
  counts_value : forall k n, (k, n) ∈ c -> n = occurrences s k
}.

(** The order of a frequency table over the stream [s]: the greater count
    first, and among equal counts the name met first. *)
Definition table_before (s : list string) (a b : string * nat) : Prop :=
  (b.2 < a.2)%nat \/ (a.2 = b.2 /\ seen_before s a.1 b.1).

(** [t] is the frequency table of the stream [s]: its lines are the names
    of [s] with the number of times each occurs, in the order above. *)
Definition is_table (s : list string) (t : list (string * nat)) : Prop :=
  StronglySorted (table_before s) t
  /\ forall k n, (k, n) ∈ t <-> (n = occurrences s k /\ 0 < n)%nat.

(** The three streams of names met while the rows [rs] were produced. *)
Definition declared_stream (rs : list row) : list string :=
  concat (map r_declared rs).
Definition inputs_stream (rs : list row) : list string :=
  concat (map r_inputs rs).
Definition issues_stream (rs : list row) : list string :=
  concat (map (fun r => map issue_key (r_issues r)) rs).

(** The region code of a bundle entry as the loop normalises it, line 282. *)
Definition normalised (item : string * pyval) : string :=
  PyStr.upper (PyStr.strip item.1).

(** [n] more entries counted. *)
Definition add_total (n : nat) (st : loop_state) : loop_state :=
  {| total := (n + total st)%nat; with_issues := with_issues st;
     freq_declared := freq_declared st; freq_inputs := freq_inputs st;
     freq_csv := freq_csv st; rows := rows st |}.

(** The entries of a bundle that are mappings. *)
Definition mappings (items : list (string * pyval)) : list (string * pyval) :=
  filter (fun item => is_dict item.2 = true) items.

(** The outcome [r] with [f] applied to its result, if it has one. *)
Definition result_map {A C} (f : A -> C) (r : result A) : result C :=
  match r with
  | Ok a => Ok (f a)
  | Raise e => Raise e
  end.

(** The exceptions that escape the loop: a method or a protocol missing on
    a value of the wrong kind. *)
Definition plain_exn (e : exn) : Prop := e = AttributeError \/ e = TypeError.

(** The counters of a state are those of the streams of its rows. *)
Definition tallied (st : loop_state) : Prop :=
  freq_declared st = counter_add_all (declared_stream (rows st)) []
  /\ freq_inputs st = counter_add_all (inputs_stream (rows st)) []
  /\ freq_csv st = counter_add_all (issues_stream (rows st)) [].

(** A bundle of four entries: a complete record, one with a null input, one
    with a declared field and no inputs, and one that is not a mapping. *)
Definition example_countries : list (string * pyval) :=
  [ ("fr", PDict [("country", PDict [("name", PStr "France")]);
                  ("inputs", PDict [("rho", PFloat one); ("tau", PInt 1)])]);
    ("ES", PDict [("inputs", PDict [("rho", PInt 1); ("tau", PNone)])]);
    ("DE", PDict [("missing_fields", PStr "tau"); ("inputs", PDict [])]);
    ("XX", PStr "oops") ].

Definition no_table : csv_table := {| fieldnames := None; csv_rows := [] |}.

Definition example_args (required_inputs : string) : args :=
  {| json_data := PDict [("countries", PDict example_countries)];
     required_inputs_arg := required_inputs;
     show_ok := false;
     oecd_csv := None;
     csv_file := no_table;
     required_ages_arg := "Y_LE4" |}.

(** After a stable sort by [le], [a] is placed before [b]: it does not
    exceed [b], and if the two tie then [a] came before [b] in the input
    order [R]. *)
Definition placed_before {A} (le : A -> A -> bool) (R : A -> A -> Prop)
    (a b : A) : Prop :=
  le a b = true /\ (le b a = true -> R a b).

(** ** The vocabulary of the further properties *)

(** The character [c] occurs in [s]. *)
Fixpoint has_char (c : ascii) (s : string) : bool :=
  match s with
  | EmptyString => false
  | String x s' => Ascii.eqb x c || has_char c s'
  end.

(** A name as the command line means it: not empty, no whitespace at
    either end, no comma in it. *)
Definition clean_name (x : string) : Prop :=
  x <> "" /\ PyStr.strip x = x /\ has_char "," x = false.

(** [a < b] on strings, as a proposition. *)
Definition str_lt (a b : string) : Prop := PyStr.ltb a b = true.

(** The value the analysis reads for the key [k]: [inputs] is whatever
    [entry.get("inputs") or {}] is, and only a mapping yields values. *)
Definition input_value (inputs : pyval) (k : string) : option pyval :=
  match inputs with
  | PDict d => dict_get d k
  | _ => None
  end.

(** The key [k] has no usable value in [inputs]. *)
Definition input_lacking (inputs : pyval) (k : string) : Prop :=
  match input_value inputs k with
  | None => True
  | Some v => is_missing_value v = true
  end.

(** The name [x] is declared missing by the record: it is the bare string
    of [missing_fields], a member of its list, or a key of its mapping. *)
Definition declared_member (entry : list (string * pyval)) (x : string) : Prop :=
  match dict_get entry "missing_fields" with
  | Some (PStr s) => s <> "" /\ x = s
  | Some (PList l) => PStr x ∈ l
  | Some (PDict d) => x ∈ map fst d
  | _ => False
  end.

(** A value read with [dict.get] that is absent, false, or a mapping. *)
Definition mapping_or_false (v : option pyval) : Prop :=
  match v with
  | None => True
  | Some x => truthy x = false \/ is_dict x = true
  end.

(** A [missing_fields] value the analysis accepts: absent, false, a string,
    a list of strings or a mapping. *)
Definition declared_shape (v : option pyval) : Prop :=
  match v with
  | None => True
  | Some x =>
      truthy x = false \/ (exists s, x = PStr s)
      \/ (exists ss, x = PList (map PStr ss)) \/ is_dict x = true
  end.

(** A record of the documented shape. *)
Definition well_formed_entry (entry : list (string * pyval)) : Prop :=
  mapping_or_false (dict_get entry "country")
  /\ mapping_or_false (dict_get entry "inputs")
  /\ declared_shape (dict_get entry "missing_fields").

(** The name the analysis gives a record: its [country.name] when that is
    true, else the region code. *)
Definition name_of (iso2 : string) (entry : list (string * pyval)) : pyval :=
  match dict_get entry "country" with
  | Some (PDict c) =>
      match dict_get c "name" with
      | Some v => if truthy v then v else PStr iso2
      | None => PStr iso2
      end
  | _ => PStr iso2
  end.

(** A record with a null input, a blank input and a repeated declaration. *)
Definition sample_entry : list (string * pyval) :=
  [ ("country", PDict [("name", PStr "Spain"); ("iso2", PStr "ES")]);
    ("inputs", PDict [("rho", PInt 0); ("tau", PNone); ("u", PStr "  ")]);
    ("missing_fields", PList [PStr "u"; PStr "aging_pp"; PStr "u"]) ].

(** No required age band is lacking in the series [m]. *)
Definition complete (m : gmap string (option spec_float)) (req : list string) : Prop :=
  forall a, a ∈ req -> ~ lacks m a.

(** The keys under which the issues of the age-coverage check are counted. *)
Definition coverage_keys : list string :=
  ["sin_filas_iso3"; "falta_sex_T"; "faltan_edades_T"; "falta_sex_M";
   "faltan_edades_M"; "falta_sex_F"; "faltan_edades_F"].

(** An index whose combined series holds an infinity. *)
Definition infinite_index : oecd_index :=
  small_index (Some (S754_infinity false)) None.

(** A row the loader keeps: none of its four key cells is blank. *)
Definition kept_row (r : gmap string string) : Prop :=
  cell r "REF_AREA" <> "" /\ cell r "TIME_PERIOD" <> ""
  /\ cell r "SEX" <> "" /\ cell r "AGE" <> "".

(** A kept row of a required age band that is filed under the key
    [(i, y, s, a)]. *)
Definition row_at (req : list string) (i y s a : string)
    (r : gmap string string) : Prop :=
  kept_row r /\ cell r "AGE" ∈ req
  /\ cell r "REF_AREA" = i /\ cell r "TIME_PERIOD" = y
  /\ cell r "SEX" = s /\ cell r "AGE" = a.

(** The float the loader stores for a row: its value, or not-a-number
    when the text of the value is no number. *)
Definition stored_value `{B : PyBuiltins} (r : gmap string string) : spec_float :=
  match py_float (cell r "OBS_VALUE") with
  | Some v => v
  | None => S754_nan
  end.

(** The sex codes recorded for a region. *)
Definition sexes_of (idx : oecd_index) (iso3 : string) : list string :=
  default [] (sexes_by_iso3 idx !! iso3).

(** The value under a key of the nested dictionaries. *)
Definition value_in
    (d : gmap string (gmap string (gmap string (gmap string (option spec_float)))))
    (i y s a : string) : option (option spec_float) :=
  default ∅ (default ∅ (default ∅ (d !! i) !! y) !! s) !! a.

(** A table with a blank row, a row of a band that is not required, and two
    rows for one key. *)
Definition mixed_table : csv_table :=
  {| fieldnames := Some ["REF_AREA"; "SEX"; "AGE"; "TIME_PERIOD"; "OBS_VALUE"];
     csv_rows :=
       [ list_to_map [("REF_AREA", "ESP"); ("SEX", "_T"); ("AGE", "Y_LE4");
                      ("TIME_PERIOD", "2020"); ("OBS_VALUE", "7")];
         list_to_map [("REF_AREA", " "); ("SEX", "_T"); ("AGE", "Y_LE4");
                      ("TIME_PERIOD", "2020"); ("OBS_VALUE", "8")];
         list_to_map [("REF_AREA", "FRA"); ("SEX", "_M"); ("AGE", "_T");
                      ("TIME_PERIOD", "2021"); ("OBS_VALUE", "9")];
         list_to_map [("REF_AREA", "ESP "); ("SEX", "_T"); ("AGE", "Y_LE4");
                      ("TIME_PERIOD", "2020"); ("OBS_VALUE", "12")] ] |}.

(** The state after the loop has read a mapping entry whose row is [r]. *)
Definition step_with (show : bool) (st : loop_state) (r : row) : loop_state :=
  {| total := S (total st);
     with_issues := if (issue_count r =? 0)%nat then with_issues st
                    else S (with_issues st);
     freq_declared := counter_add_all (r_declared r) (freq_declared st);
     freq_inputs := counter_add_all (r_inputs r) (freq_inputs st);
     freq_csv := counter_add_all (map issue_key (r_issues r)) (freq_csv st);
     rows := if negb (issue_count r =? 0)%nat || show
             then (rows st ++ [r])%list else rows st |}.

(** What holds of every row the loop makes: its two lists of names are in
    strictly ascending order, and without a demographic index it carries no
    3-letter code, no period and no demographic issue. *)
Definition row_facts (oecd_idx : option oecd_index) (r : row) : Prop :=
  StronglySorted str_lt (r_declared r)
  /\ StronglySorted str_lt (r_inputs r)
  /\ (oecd_idx = None -> r_iso3 r = None /\ r_year r = None /\ r_issues r = []).

(** A row has at least one issue. *)
Definition has_issues (r : row) : Prop := issue_count r <> 0%nat.

(** What the loop keeps true of its state, given the entries read so far. *)
Record loop_inv (show : bool) (idx : option oecd_index)
    (n m : nat) (st : loop_state) : Prop := {
  inv_total : total st = n;
  inv_with : with_issues st = length (filter has_issues (rows st));
  inv_facts : Forall (row_facts idx) (rows st);
  inv_hidden : show = false -> Forall has_issues (rows st);
  inv_shown : show = true -> length (rows st) = m;
  inv_bound : (length (rows st) <= m)%nat
}.

(** The 3-letter code a record embeds, if any. *)
Definition embedded_iso3 (entry : list (string * pyval)) : option pyval :=
  match dict_get entry "country" with
  | Some (PDict c) => dict_get c "iso3"
  | _ => None
  end.

(** An entry of the bundle the run accepts: anything that is not a mapping,
    or a record of the documented shape whose embedded 3-letter code, when
    true, is a string. *)
Definition accepted_item (item : string * pyval) : Prop :=
  forall entry, item.2 = PDict entry ->
    well_formed_entry entry
    /\ forall v, embedded_iso3 entry = Some v -> truthy v = true ->
                 exists s, v = PStr s.

(** The demographic check is switched off: no path, or an empty one. *)
Definition csv_inactive (a : args) : Prop :=
  oecd_csv a = None \/ oecd_csv a = Some "".

(** The run over the example bundle with a demographic table attached. *)
Definition example_args_csv (path : string) (t : csv_table) : args :=
  {| json_data := PDict [("countries", PDict example_countries)];
     required_inputs_arg := "rho,tau";
     show_ok := true;
     oecd_csv := Some path;
     csv_file := t;
     required_ages_arg := "Y_LE4" |}.

(** A region code in the form the merge gives it: not empty, no whitespace
    at either end, no lower-case letter. *)
Definition normal_code (r : string) : Prop :=
  r <> "" /\ PyStr.strip r = r /\ PyStr.upper r = r.

(** The result of an outcome, if it has one. *)
Definition ok_value {A} (r : result A) : option A :=
  match r with
  | Ok a => Some a
  | Raise _ => None
  end.

#[global] Instance exn_eq_dec : EqDecision exn.
Proof. solve_decision. Defined.

#[global] Instance result_eq_dec {A} `{EqDecision A} : EqDecision (result A).
Proof. solve_decision. Defined.

(** The region code the merge reads in a file, and the record it files for
    it. *)
Definition code_of (f : string * Merge.file_content) : result string :=
  obj <- Merge.load_json f.1 f.2 ;; Merge.extract_iso2 obj f.1.

Definition record_of (f : string * Merge.file_content) : result pyval :=
  obj <- Merge.load_json f.1 f.2 ;; Merge.tag_source obj f.1.

(** Three files of a folder: two records of Spain under different spellings
    of the code, one of France. *)
Definition spain_a : string * Merge.file_content :=
  ("a.json", Merge.Parsed (PDict [("country", PDict [("iso2", PStr " es ")]);
                                  ("inputs", PDict [("rho", PInt 1)])])).
Definition france : string * Merge.file_content :=
  ("b.json", Merge.Parsed (PDict [("country", PDict [("iso2", PStr "FR")]);
                                  ("source", PDict [("input_file", PStr "old.json")])])).
Definition spain_c : string * Merge.file_content :=
  ("c.json", Merge.Parsed (PDict [("country", PDict [("iso2", PStr "Es")]);
                                  ("source", PStr "oecd")])).

(** What the merge of the three files gives with overwrite, and what the
    merge of the first two gives without. *)
Definition merged_three : pyval :=
  PDict
    [("schema_version", PStr "country_sim_inputs_bundle_v1");
     ("generated_at_utc", PStr "now"); ("mode", PStr "map");
     ("countries",
      PDict [("ES", PDict [("country", PDict [("iso2", PStr "Es")]);
                           ("source", PStr "oecd");
                           ("_input_file", PStr "c.json")]);
             ("FR", PDict [("country", PDict [("iso2", PStr "FR")]);
                           ("source", PDict [("input_file", PStr "old.json")])])]);
     ("stats",
      PDict [("input_dir", PStr "in"); ("files_merged", PInt 3);
             ("unique_countries", PInt 2); ("recursive", PBool false);
             ("overwrite", PBool true)])].

Definition merged_two : pyval :=
  PDict
    [("schema_version", PStr "country_sim_inputs_bundle_v1");
     ("generated_at_utc", PStr "now"); ("mode", PStr "map");
     ("countries",
      PDict [("ES", PDict [("country", PDict [("iso2", PStr " es ")]);
                           ("inputs", PDict [("rho", PInt 1)]);
                           ("source", PDict [("input_file", PStr "a.json")])]);
             ("FR", PDict [("country", PDict [("iso2", PStr "FR")]);
                           ("source", PDict [("input_file", PStr "old.json")])])]);
     ("stats",
      PDict [("input_dir", PStr "in"); ("files_merged", PInt 2);
             ("unique_countries", PInt 2); ("recursive", PBool false);
             ("overwrite", PBool false)])].

(** The run of the report over a loaded document, with the demographic
    check switched off. *)
Definition report_args (data : pyval) (show : bool) : args :=
  {| json_data := data; required_inputs_arg := "rho,tau"; show_ok := show;
     oecd_csv := None; csv_file := no_table; required_ages_arg := "" |}.

(** * Properties *)

(** ** The value-presence predicate *)

Section Presence.

Lemma rstrip_empty (s : string) :
  PyStr.rstrip s = EmptyString <-> PyStr.all_space s = true.
Proof.
  induction s as [|c s IH]; simpl; [tauto|].
  destruct (PyStr.rstrip s) eqn:E.
  - destruct (PyStr.is_space c); simpl.
    + rewrite <- IH. tauto.
    + split; discriminate.
  - split; [discriminate|].
    intros [_ H]%andb_true_iff. apply IH in H. discriminate.
Qed.

Lemma lstrip_head (s : string) :
  match PyStr.lstrip s with
  | EmptyString => PyStr.all_space s = true
  | String c _ => PyStr.is_space c = false
  end.
Proof.
  induction s as [|c s IH]; simpl; [reflexivity|].
  destruct (PyStr.is_space c) eqn:E; simpl; [|exact E].
  destruct (PyStr.lstrip s); exact IH.
Qed.

Lemma all_space_lstrip (s : string) :
  PyStr.all_space s = true -> PyStr.lstrip s = EmptyString.
Proof.
  induction s as [|c s IH]; simpl; [reflexivity|].
  intros [-> H]%andb_true_iff. auto.
Qed.

Lemma strip_empty (s : string) :
  PyStr.is_empty (PyStr.strip s) = true <-> PyStr.all_space s = true.
Proof.
  unfold PyStr.strip. split.
  - intros H.
    assert (E : PyStr.rstrip (PyStr.lstrip s) = EmptyString)
      by (destruct (PyStr.rstrip (PyStr.lstrip s)); [reflexivity|discriminate]).
    apply rstrip_empty in E.
    pose proof (lstrip_head s) as Hh.
    destruct (PyStr.lstrip s) as [|c t]; [exact Hh|].
    simpl in E. rewrite Hh in E. discriminate.
  - intros H. rewrite (all_space_lstrip _ H). reflexivity.
Qed.

(** The characters [str.strip] removes are those of the table. *)
Lemma is_space_codes (c : ascii) :
  PyStr.is_space c = true <-> N_of_ascii c ∈ whitespace_codes.
Proof.
  assert (E : PyStr.is_space c = bool_decide (N_of_ascii c ∈ whitespace_codes))
    by (destruct c as [[] [] [] [] [] [] [] []]; vm_compute; reflexivity).
  rewrite E. apply bool_decide_eq_true.
Qed.

Lemma all_space_blank (s : string) :
  PyStr.all_space s = true <-> blank s.
Proof.
  unfold blank. induction s as [|c s IH]; simpl.
  - split; [constructor|reflexivity].
  - rewrite andb_true_iff, Forall_cons, IH, is_space_codes. reflexivity.
Qed.

(** C2: [is_missing_value v] is true exactly when [v] is null, a
    not-a-number float, or a string (possibly empty) each character of which
    is one of the whitespace characters; it is false for the integer 0, for
    [False], for the string "0" and for every finite number. *)
Theorem is_missing_value_iff :
  (forall v, is_missing_value v = true <-> missing_by_spec v)
  /\ is_missing_value (PInt 0) = false
  /\ is_missing_value (PBool false) = false
  /\ is_missing_value (PStr "0") = false
  /\ (forall v, finite_number v -> is_missing_value v = false).
Proof.
  split; [|split; [|split; [|split]]]; try reflexivity.
  - intros v. unfold missing_by_spec. split.
    + destruct v as [| b | n | f | s | l | d]; simpl; try discriminate.
      * auto.
      * destruct f; try discriminate. auto.
      * intros H%strip_empty%all_space_blank. right. right. eauto.
    + intros [->|[->|(s & -> & H)]]; simpl.
      * reflexivity.
      * reflexivity.
      * apply strip_empty, all_space_blank, H.
  - intros v [(n & ->)|(f & -> & H)]; simpl; [reflexivity|].
    destruct f; simpl in *; congruence.
Qed.

(** C2 at work: zero as a float is present; a tab followed by a space, and
    a lone no-break space, are not. *)
Lemma is_missing_value_iff_witness :
  is_missing_value (PFloat (S754_zero false)) = false
  /\ is_missing_value (PStr (String "009" " ")) = true
  /\ is_missing_value (PStr (String "160" "")) = true.
Proof.
  destruct is_missing_value_iff as (Hiff & _ & _ & _ & Hfin).
  split; [|split].
  - apply Hfin. right. exists (S754_zero false). split; reflexivity.
  - apply Hiff. right. right. eexists. split; [reflexivity|].
    repeat constructor.
  - apply Hiff. right. right. eexists. split; [reflexivity|].
    repeat constructor.
Defined.

End Presence.

(** ** The latest period *)

Section Latest.
Context `{B : PyBuiltins}.

(** [max_from] returns a member, and no member exceeds it, as soon as
    "does not exceed" is transitive and [gt] is asymmetric on the members. *)
Lemma max_from_elem {A} (gt : A -> A -> bool) (l : list A) (best : A) :
  max_from gt best l ∈ best :: l.
Proof.
  revert best. induction l as [|x l IH]; intros best; simpl.
  - left.
  - specialize (IH (if gt x best then x else best)).
    apply elem_of_cons in IH as [->|IH].
    + destruct (gt x best); [right; left | left].
    + right. right. exact IH.
Qed.

Lemma max_from_upper {A} (gt : A -> A -> bool) (P : A -> Prop)
    (Hasym : forall a b, P a -> P b -> gt a b = true -> gt b a = false)
    (Htrans : forall a b c, P a -> P b -> P c ->
                gt a b = false -> gt b c = false -> gt a c = false)
    (l : list A) (best : A) :
  Forall P (best :: l) ->
  forall x, x ∈ best :: l -> gt x (max_from gt best l) = false.
Proof.
  revert best. induction l as [|y l IH]; intros best HP x Hx; simpl.
  - apply list_elem_of_singleton in Hx as ->.
    destruct (gt best best) eqn:E; [|reflexivity].
    inversion HP; subst. rewrite (Hasym best best) in E; auto.
  - inversion HP as [|? ? Pb HP']; subst. inversion HP' as [|? ? Py Pl]; subst.
    set (b' := if gt y best then y else best).
    assert (Pb' : P b') by (unfold b'; destruct (gt y best); assumption).
    assert (HPm : P (max_from gt b' l)).
    { pose proof (max_from_elem gt l b') as Hm.
      apply elem_of_cons in Hm as [->|Hm]; [exact Pb'|].
      rewrite Forall_forall in Pl. auto. }
    pose proof (IH b' (Forall_cons_2 _ _ _ Pb' Pl)) as IH'.
    assert (Hb' : gt b' (max_from gt b' l) = false) by (apply IH'; left).
    assert (Hbest : gt best (max_from gt b' l) = false).
    { unfold b' in *. destruct (gt y best) eqn:E; [|exact Hb'].
      apply (Htrans best y); auto. }
    assert (Hy : gt y (max_from gt b' l) = false).
    { unfold b' in *. destruct (gt y best) eqn:E; [exact Hb'|].
      apply (Htrans y best); auto. }
    apply elem_of_cons in Hx as [->|Hx]; [exact Hbest|].
    apply elem_of_cons in Hx as [->|Hx]; [exact Hy|].
    apply IH'. right. exact Hx.
Qed.

Lemma all_parse_forallb (l : list string) :
  forallb (fun t : string * option Z => bool_decide (is_Some t.2))
          (map (fun y => (y, _safe_int y)) l) = true
  <-> all_parse l.
Proof.
  unfold all_parse. induction l as [|y l IH]; simpl.
  - split; [constructor|reflexivity].
  - rewrite andb_true_iff, IH, bool_decide_eq_true, Forall_cons. reflexivity.
Qed.

Lemma str_leb_of_not_ltb (a b : string) :
  PyStr.ltb b a = false <-> PyStr.leb a b = true.
Proof.
  unfold PyStr.ltb, PyStr.leb, String.ltb, String.leb.
  rewrite (String.compare_antisym a b).
  destruct (String.compare b a); simpl; split; congruence.
Qed.

Lemma str_leb_trans (a b c : string) :
  PyStr.leb a b = true -> PyStr.leb b c = true -> PyStr.leb a c = true.
Proof.
  unfold PyStr.leb. intros H1 H2.
  apply Is_true_true. apply Is_true_true in H1, H2.
  exact (transitivity (R := String.le) H1 H2).
Qed.

(** The integer branch of the resolver. *)
Lemma latest_of_int (y0 : string) (ys : list string) :
  all_parse (y0 :: ys) ->
  latest_of y0 ys ∈ y0 :: ys
  /\ forall y, y ∈ y0 :: ys ->
       exists v vmax, _safe_int y = Some v
                      /\ _safe_int (latest_of y0 ys) = Some vmax
                      /\ v <= vmax.
Proof.
  intros Hall. unfold latest_of.
  destruct (forallb _ _) eqn:E; [|apply all_parse_forallb in Hall; congruence].
  clear E.
  set (f := fun y : string => (y, _safe_int y)).
  change (y0, _safe_int y0) with (f y0).
  set (m := max_from key_gt (f y0) (map f ys)).
  assert (Hm : m ∈ map f (y0 :: ys)) by apply max_from_elem.
  assert (Hub : forall x, x ∈ f y0 :: map f ys -> key_gt x m = false).
  { apply (max_from_upper key_gt (fun t => is_Some t.2)).
    - intros [a [va|]] [b [vb|]] _ _; unfold key_gt; simpl; try discriminate.
      intros H. apply Z.ltb_lt in H. apply Z.ltb_ge. lia.
    - intros [a [va|]] [b [vb|]] [c [vc|]] Pa Pb Pc; unfold key_gt; simpl;
        try reflexivity; try (destruct Pb as [? Pb]; discriminate).
      intros H1 H2. apply Z.ltb_ge in H1, H2. apply Z.ltb_ge. lia.
    - change (f y0 :: map f ys) with (map f (y0 :: ys)).
      apply Forall_fmap. exact Hall. }
  clearbody m.
  apply list_elem_of_fmap in Hm as (r & Hr & Hin).
  rewrite Hr. simpl. split; [exact Hin|].
  intros y Hy.
  unfold all_parse in Hall. rewrite Forall_forall in Hall.
  destruct (Hall y Hy) as [v Hv]. destruct (Hall r Hin) as [vm Hvm].
  exists v, vm. repeat split; try assumption.
  assert (Hk : key_gt (f y) m = false).
  { apply Hub. change (f y0 :: map f ys) with (f <$> (y0 :: ys)).
    apply list_elem_of_fmap. eauto. }
  rewrite Hr in Hk. unfold key_gt, f in Hk. simpl in Hk.
  rewrite Hv, Hvm in Hk. apply Z.ltb_ge in Hk. exact Hk.
Qed.

(** The string branch of the resolver. *)
Lemma latest_of_str (y0 : string) (ys : list string) :
  ~ all_parse (y0 :: ys) ->
  latest_of y0 ys ∈ y0 :: ys
  /\ forall y, y ∈ y0 :: ys -> PyStr.leb y (latest_of y0 ys) = true.
Proof.
  intros Hnot. unfold latest_of.
  destruct (forallb _ _) eqn:E; [apply all_parse_forallb in E; tauto|].
  clear E. split; [apply max_from_elem|].
  intros y Hy. apply str_leb_of_not_ltb.
  apply (max_from_upper (fun a b => PyStr.ltb b a) (fun _ => True)); auto.
  - intros a b _ _ H. apply str_leb_of_not_ltb.
    unfold PyStr.ltb, PyStr.leb, String.ltb, String.leb in *.
    destruct (String.compare b a); congruence.
  - intros a b c _ _ _ H1 H2. apply str_leb_of_not_ltb.
    apply str_leb_of_not_ltb in H1, H2. eapply str_leb_trans; eassumption.
  - apply Forall_forall. auto.
Qed.

End Latest.

(** C3, as far as the code agrees: the resolver returns one of the periods;
    when every period parses as an integer no period has a greater integer
    value; otherwise no period is greater as a string.  On the four periods
    "1999", "2010", "2.", "2001", in whatever order the set yields them, "2."
    does not parse, the string branch is taken, and the result is "2010". *)
Theorem latest_period_resolution `{B : PyBuiltins} (y0 : string) (ys : list string) :
  latest_of y0 ys ∈ y0 :: ys
  /\ (all_parse (y0 :: ys) ->
      forall y, y ∈ y0 :: ys ->
        exists v vmax, _safe_int y = Some v
                       /\ _safe_int (latest_of y0 ys) = Some vmax
                       /\ v <= vmax)
  /\ (~ all_parse (y0 :: ys) ->
      forall y, y ∈ y0 :: ys -> PyStr.leb y (latest_of y0 ys) = true)
  /\ (py_int "2." = None -> y0 :: ys ≡ₚ example_periods ->
      ~ all_parse (y0 :: ys) /\ latest_of y0 ys = "2010").
Proof.
  assert (Hin : latest_of y0 ys ∈ y0 :: ys).
  { destruct (decide (all_parse (y0 :: ys))) as [H|H].
    - apply latest_of_int, H.
    - apply latest_of_str, H. }
  split; [exact Hin|]. split; [apply latest_of_int|].
  split; [apply latest_of_str|].
  intros Hdot Hperm.
  assert (Hnot : ~ all_parse (y0 :: ys)).
  { unfold all_parse. rewrite Forall_forall. intros H.
    destruct (H "2.") as [v Hv].
    - rewrite Hperm. unfold example_periods. do 2 right. left.
    - unfold _safe_int in Hv. congruence. }
  split; [exact Hnot|].
  destruct (latest_of_str y0 ys Hnot) as [_ Hub].
  assert (H2010 : PyStr.leb "2010" (latest_of y0 ys) = true).
  { apply Hub. rewrite Hperm. unfold example_periods. right. left. }
  rewrite Hperm in Hin. unfold example_periods in Hin.
  repeat (apply elem_of_cons in Hin as [Hin|Hin];
          [rewrite Hin in *; try reflexivity; vm_compute in H2010; discriminate|]).
  apply elem_of_nil in Hin. contradiction.
Qed.

(** C3 on the example, and on two periods that order differently as
    integers and as strings. *)
Lemma latest_period_resolution_witness :
  latest_of (B := ascii_builtins) "1999" ["2010"; "2."; "2001"] = "2010"
  /\ exists v vmax,
       _safe_int (B := ascii_builtins) "999" = Some v
       /\ _safe_int (B := ascii_builtins)
            (latest_of (B := ascii_builtins) "999" ["1000"]) = Some vmax
       /\ v <= vmax.
Proof.
  split.
  - apply (latest_period_resolution (B := ascii_builtins) "1999" ["2010"; "2."; "2001"]).
    + reflexivity.
    + reflexivity.
  - apply (latest_period_resolution (B := ascii_builtins) "999" ["1000"]).
    + unfold all_parse. repeat constructor; vm_compute; eauto.
    + left.
Defined.

(** C3 as stated fails: "2." does not beat "2010", because "." sorts before
    "0"; the string maximum of the example is "2010". *)
Lemma dot_period_does_not_win :
  ~ (PyStr.ltb "2010" "2." = true
     \/ latest_of (B := ascii_builtins) "1999" ["2010"; "2."; "2001"] = "2.").
Proof. vm_compute. intros [H|H]; discriminate. Qed.

(** ** The age-coverage resolver *)

Section Coverage.
Context `{B : PyBuiltins}.

Lemma age_missing_lacks (m : gmap string (option spec_float)) (a : string) :
  age_missing m a = true <-> lacks m a.
Proof.
  unfold age_missing, lacks.
  destruct (m !! a) as [[v|]|]; simpl.
  - destruct v; simpl; split; intros H;
      try discriminate; try reflexivity; try (right; right; reflexivity);
      destruct H as [H|[H|H]]; discriminate.
  - split; auto.
  - split; auto.
Qed.

Lemma covers_no_missing (m : gmap string (option spec_float)) (req : list string) :
  covers m req -> filter (fun a => age_missing m a = true) req = [].
Proof.
  intros Hc. induction req as [|a req IH]; [reflexivity|].
  rewrite filter_cons.
  destruct (Hc a) as (v & Hv & Hfin); [left|].
  destruct (decide (age_missing m a = true)) as [E|_].
  - unfold age_missing in E. rewrite Hv in E. destruct v; discriminate.
  - apply IH. intros b Hb. apply Hc. right. exact Hb.
Qed.

Lemma has_all_ages_covers blk req sex :
  covers (default ∅ (blk !! sex)) req -> has_all_ages blk req sex = (true, []).
Proof.
  intros Hc. unfold has_all_ages. rewrite (covers_no_missing _ _ Hc).
  reflexivity.
Qed.

Lemma str_app_assoc (a b c : string) : (a ++ b) ++ c = a ++ (b ++ c).
Proof.
  induction a as [|x a IH]; [reflexivity|].
  change ((String x a ++ b) ++ c) with (String x ((a ++ b) ++ c)).
  change (String x a ++ b ++ c) with (String x (a ++ b ++ c)).
  rewrite IH. reflexivity.
Qed.

Lemma sex_issue_spec blk req code letter :
  sex_issue blk code ("falta_sex_" ++ letter) ("faltan_edades_" ++ letter ++ ":")
            (has_all_ages blk req code).2
  = issue_for blk req code letter.
Proof.
  unfold sex_issue, issue_for, has_all_ages. simpl.
  destruct (blk !! code) as [m|]; simpl; [|reflexivity].
  rewrite (list_filter_iff _ (lacks m)) by (intros; apply age_missing_lacks).
  destruct (filter (lacks m) req); [reflexivity|].
  rewrite !str_app_assoc. reflexivity.
Qed.

Lemma check_unfold (iso3 : string) (idx : oecd_index) :
  check_oecd_csv_for_iso3 iso3 idx =
  match latest_period idx iso3 with
  | None => (false, None, ["sin_filas_iso3"])
  | Some y =>
      let blk := block_of idx iso3 y in
      let req := required_ages idx in
      if (has_all_ages blk req "_T").1 then (true, Some y, [])
      else if (has_all_ages blk req "_M").1 && (has_all_ages blk req "_F").1
      then (true, Some y, [])
      else (false, Some y,
            (issue_for blk req "_T" "T" ++ issue_for blk req "_M" "M"
             ++ issue_for blk req "_F" "F")%list)
  end.
Proof.
  unfold check_oecd_csv_for_iso3, latest_period, periods_of.
  destruct (default [] (years_by_iso3 idx !! iso3)) as [|y0 ys]; [reflexivity|].
  fold (block_of idx iso3 (latest_of y0 ys)).
  set (blk := block_of idx iso3 (latest_of y0 ys)).
  set (req := required_ages idx). cbv zeta.
  rewrite <- !(sex_issue_spec blk req).
  destruct (has_all_ages blk req "_T") as [okT mT].
  destruct (has_all_ages blk req "_M") as [okM mM].
  destruct (has_all_ages blk req "_F") as [okF mF].
  simpl. reflexivity.
Qed.

(** C1: when the combined series at the region's latest period has a
    finite value for every required age band, the resolver answers usable
    with no issue, whatever the male and female series hold; and so it does
    when the male and the female series both have one for every band. *)
Theorem complete_series_usable (iso3 : string) (idx : oecd_index) (y : string) :
  latest_period idx iso3 = Some y ->
  (covers (series_of idx iso3 y "_T") (required_ages idx) ->
   check_oecd_csv_for_iso3 iso3 idx = (true, Some y, []))
  /\ (covers (series_of idx iso3 y "_M") (required_ages idx) ->
      covers (series_of idx iso3 y "_F") (required_ages idx) ->
      check_oecd_csv_for_iso3 iso3 idx = (true, Some y, [])).
Proof.
  intros Hy. rewrite check_unfold, Hy. cbv zeta. split.
  - intros HT. apply has_all_ages_covers in HT. rewrite HT. reflexivity.
  - intros HM HF.
    apply has_all_ages_covers in HM, HF. rewrite HM, HF.
    destruct (has_all_ages _ _ "_T").1; reflexivity.
Qed.

(** C9: the resolver answers usable exactly when the issue list it returns
    is empty. *)
Theorem usable_iff_no_issue (iso3 : string) (idx : oecd_index) :
  (check_oecd_csv_for_iso3 iso3 idx).1.1 = true
  <-> (check_oecd_csv_for_iso3 iso3 idx).2 = [].
Proof.
  rewrite check_unfold.
  destruct (latest_period idx iso3) as [y|]; [|simpl; split; discriminate].
  cbv zeta.
  set (blk := block_of idx iso3 y). set (req := required_ages idx).
  destruct (has_all_ages blk req "_T") as [okT mT] eqn:ET.
  change ((okT, mT).1) with okT.
  destruct okT; [simpl; tauto|].
  destruct (_ && _); [simpl; tauto|].
  change (false = true <->
          (issue_for blk req "_T" "T" ++ issue_for blk req "_M" "M"
           ++ issue_for blk req "_F" "F")%list = []).
  split; [discriminate|]. intros Hnil.
  apply app_eq_nil in Hnil as [HT _]. exfalso.
  unfold has_all_ages in ET. injection ET as Hdec _.
  apply bool_decide_eq_false in Hdec.
  unfold issue_for in HT.
  destruct (blk !! "_T") as [m|]; [|discriminate]. simpl in Hdec.
  rewrite (list_filter_iff _ (lacks m)) in Hdec
    by (intros; apply age_missing_lacks).
  destruct (filter (lacks m) req); [congruence|discriminate].
Qed.

(** C4, as far as the code agrees: a not-usable answer carries the single
    issue [sin_filas_iso3] and no period when the region has no recorded
    period; otherwise it carries the latest period and, for the sex codes
    _T, _M, _F in that order, [falta_sex_X] when the index stores no series
    for that code at the latest period, else, when some required band is
    lacking there, [faltan_edades_X:] followed by the lacking bands, in the
    order of the required list, separated by pipes. *)
Theorem not_usable_issues (iso3 : string) (idx : oecd_index) :
  (periods_of idx iso3 = [] ->
   check_oecd_csv_for_iso3 iso3 idx = (false, None, ["sin_filas_iso3"]))
  /\ forall yr issues,
       check_oecd_csv_for_iso3 iso3 idx = (false, yr, issues) ->
       match latest_period idx iso3 with
       | None =>
           periods_of idx iso3 = [] /\ yr = None /\ issues = ["sin_filas_iso3"]
       | Some y =>
           yr = Some y
           /\ issues =
                (issue_for (block_of idx iso3 y) (required_ages idx) "_T" "T"
                 ++ issue_for (block_of idx iso3 y) (required_ages idx) "_M" "M"
                 ++ issue_for (block_of idx iso3 y) (required_ages idx) "_F" "F")%list
       end.
Proof.
  rewrite check_unfold. unfold latest_period.
  destruct (periods_of idx iso3) as [|y0 ys] eqn:E.
  - split; [reflexivity|]. intros yr issues [= <- <-]. auto.
  - split; [discriminate|]. intros yr issues. cbv zeta.
    destruct (has_all_ages _ _ "_T").1; [discriminate|].
    destruct (_ && _); [discriminate|].
    intros [= <- <-]. auto.
Qed.

End Coverage.

(** C1 on an index whose combined series is complete while the male series
    holds a not-a-number and the female series is absent, and on an index
    with complete male and female series and no combined one. *)
Lemma complete_series_usable_witness :
  check_oecd_csv_for_iso3 (B := ascii_builtins) "ESP"
    (small_index (Some one) (Some S754_nan)) = (true, Some "2020", [])
  /\ check_oecd_csv_for_iso3 (B := ascii_builtins) "ESP" split_index
     = (true, Some "2020", []).
Proof.
  split.
  - refine (proj1 (complete_series_usable (B := ascii_builtins) "ESP"
                     (small_index (Some one) (Some S754_nan)) "2020" _) _).
    + reflexivity.
    + intros a Ha. apply list_elem_of_singleton in Ha as ->.
      exists one. split; reflexivity.
  - refine (proj2 (complete_series_usable (B := ascii_builtins) "ESP"
                     split_index "2020" _) _ _).
    + reflexivity.
    + intros a Ha. apply list_elem_of_singleton in Ha as ->.
      exists one. split; reflexivity.
    + intros a Ha. apply list_elem_of_singleton in Ha as ->.
      exists one. split; reflexivity.
Defined.

(** C4 on the same region with a not-a-number in the combined series and a
    null in the male one. *)
Lemma not_usable_issues_witness :
  Some "2020" = Some "2020"
  /\ ["faltan_edades_T:Y_LE4"; "faltan_edades_M:Y_LE4"; "falta_sex_F"]
     = (issue_for (block_of (small_index (Some S754_nan) None) "ESP" "2020")
                  ["Y_LE4"] "_T" "T"
        ++ issue_for (block_of (small_index (Some S754_nan) None) "ESP" "2020")
                     ["Y_LE4"] "_M" "M"
        ++ issue_for (block_of (small_index (Some S754_nan) None) "ESP" "2020")
                     ["Y_LE4"] "_F" "F")%list.
Proof.
  apply (proj2 (not_usable_issues (B := ascii_builtins) "ESP"
                  (small_index (Some S754_nan) None))).
  vm_compute. reflexivity.
Defined.

(** C4 as stated fails: in the two-period table the combined series was
    observed for the region (in 2019), yet the resolver reports it as a
    missing sex code, because nothing is stored for it at the latest period;
    the statement's reading asks for its missing age bands instead. *)
Lemma observed_sex_reported_missing :
  "_T" ∈ default [] (sexes_by_iso3 two_period_index !! "ESP")
  /\ check_oecd_csv_for_iso3 (B := ascii_builtins) "ESP" two_period_index
     = (false, Some "2020", ["falta_sex_T"; "falta_sex_F"])
  /\ (check_oecd_csv_for_iso3 (B := ascii_builtins) "ESP" two_period_index).2
     <> (issue_as_stated two_period_index "ESP"
           (block_of two_period_index "ESP" "2020") ["Y_LE4"] "_T" "T"
         ++ issue_as_stated two_period_index "ESP"
              (block_of two_period_index "ESP" "2020") ["Y_LE4"] "_M" "M"
         ++ issue_as_stated two_period_index "ESP"
              (block_of two_period_index "ESP" "2020") ["Y_LE4"] "_F" "F")%list.
Proof.
  split; [|split].
  - vm_compute. left.
  - vm_compute. reflexivity.
  - vm_compute. discriminate.
Qed.

(** ** The index builder *)

Section Loader.
Context `{B : PyBuiltins}.

Lemma missing_cols_nil (fs : list string) :
  filter (fun c => negb (bool_decide (c ∈ fs)) = true) required_cols = []
  <-> forall c, c ∈ required_cols -> c ∈ fs.
Proof.
  split.
  - intros Hnil c Hc.
    destruct (decide (c ∈ fs)) as [|Hn]; [assumption|].
    exfalso. eapply (filter_nil_not_elem_of _ _ c Hnil); [|exact Hc].
    simpl. rewrite bool_decide_eq_false_2; auto.
  - intros Hall. induction required_cols as [|c l IH]; [reflexivity|].
    rewrite filter_cons.
    destruct (decide _) as [E|_].
    + rewrite bool_decide_eq_true_2 in E by (apply Hall; left). discriminate.
    + apply IH. intros x Hx. apply Hall. right. exact Hx.
Qed.

Lemma load_ok_or_bad (t : csv_table) (req : list string) :
  (bad_header t /\ exists m, load_oecd_population_csv t req = Raise (ValueError m))
  \/ (~ bad_header t
      /\ load_oecd_population_csv t req
         = Ok (fold_left load_row (csv_rows t) (empty_index req))).
Proof.
  unfold load_oecd_population_csv, bad_header.
  destruct (fieldnames t) as [[|f fs]|] eqn:E.
  - left. split; eauto.
  - destruct (filter _ required_cols) as [|c l] eqn:F.
    + right. split; [|reflexivity].
      intros [H|[H|(fs' & c & H & Hc & Hn)]]; try discriminate.
      injection H as <-. apply Hn. apply (proj1 (missing_cols_nil _) F c Hc).
    + left. split; [|eauto]. right. right.
      assert (Hc : c ∈ filter (fun c => negb (bool_decide (c ∈ f :: fs)) = true)
                        required_cols) by (rewrite F; left).
      apply list_elem_of_filter in Hc as [Hc1 Hc2].
      exists (f :: fs), c. repeat split; try assumption.
      apply negb_true_iff, bool_decide_eq_false in Hc1. exact Hc1.
  - left. split; eauto.
Qed.

Lemma series_of_store d y a i s v ys xs req :
  series_of {| by_iso3 := store d i y s a v; years_by_iso3 := ys;
               sexes_by_iso3 := xs; required_ages := req |} i y s !! a
  = Some (Some v).
Proof.
  unfold series_of, block_of, store. simpl.
  rewrite lookup_insert_eq. simpl. rewrite lookup_insert_eq. simpl.
  rewrite lookup_insert_eq. simpl. apply lookup_insert_eq.
Qed.

Lemma is_empty_false (s : string) : s <> "" -> PyStr.is_empty s = false.
Proof. destruct s; [congruence|reflexivity]. Qed.

Lemma load_row_required_ages (idx : oecd_index) (r : gmap string string) :
  required_ages (load_row idx r) = required_ages idx.
Proof.
  unfold load_row.
  destruct (_ || _); [reflexivity|]. destruct (negb _); reflexivity.
Qed.

Lemma load_rows_required_ages (rs : list (gmap string string)) (idx : oecd_index) :
  required_ages (fold_left load_row rs idx) = required_ages idx.
Proof.
  revert idx. induction rs as [|r rs IH]; intros idx; simpl; [reflexivity|].
  rewrite IH. apply load_row_required_ages.
Qed.

(** One row whose value does not parse: the row is stored, as not-a-number. *)
Lemma load_row_bad_value (idx : oecd_index) (r : gmap string string) :
  indexed_row (required_ages idx) r ->
  py_float (cell r "OBS_VALUE") = None ->
  stored_for (load_row idx r) r = Some (Some S754_nan).
Proof.
  intros (H1 & H2 & H3 & H4 & H5) Hf. unfold stored_for, load_row.
  rewrite !is_empty_false by assumption. simpl.
  rewrite bool_decide_eq_true_2 by assumption. simpl.
  rewrite Hf. apply series_of_store.
Qed.

(** C5: building the index fails exactly when the header is missing, empty,
    or lacks one of REF_AREA, SEX, AGE, TIME_PERIOD, OBS_VALUE, and the
    failure is the [ValueError] of the schema check; with any other header
    it returns the index of all the rows.  A kept row whose value does not
    parse as a number is stored as not-a-number: the index of a table that
    ends with such a row holds not-a-number at that row's key. *)
Theorem load_fails_iff_bad_header (t : csv_table) (req : list string) :
  ((exists e, load_oecd_population_csv t req = Raise e) <-> bad_header t)
  /\ (forall e, load_oecd_population_csv t req = Raise e ->
        exists m, e = ValueError m)
  /\ (~ bad_header t ->
      load_oecd_population_csv t req
      = Ok (fold_left load_row (csv_rows t) (empty_index req)))
  /\ (forall rs r,
        ~ bad_header t -> csv_rows t = (rs ++ [r])%list ->
        indexed_row req r -> py_float (cell r "OBS_VALUE") = None ->
        exists idx, load_oecd_population_csv t req = Ok idx
                    /\ stored_for idx r = Some (Some S754_nan)).
Proof.
  destruct (load_ok_or_bad t req) as [[Hbad [m Hm]]|[Hgood Hok]].
  - repeat split.
    + auto.
    + eauto.
    + intros e He. rewrite Hm in He. injection He as <-. eauto.
    + tauto.
    + tauto.
  - repeat split.
    + intros [e He]. congruence.
    + tauto.
    + intros e He. congruence.
    + auto.
    + intros rs r _ Hrows Hrow Hf. eexists. split; [exact Hok|].
      rewrite Hrows, fold_left_app. simpl.
      apply load_row_bad_value; [|exact Hf].
      rewrite load_rows_required_ages. exact Hrow.
Qed.

End Loader.

(** C5 on a table whose last row carries the text "n/a" as its value. *)
Lemma load_fails_iff_bad_header_witness :
  exists idx,
    load_oecd_population_csv (B := ascii_builtins) bad_value_table
      ["Y_LE4"; "Y5T9"] = Ok idx
    /\ series_of idx "ESP" "2020" "_T" !! "Y5T9" = Some (Some S754_nan).
Proof.
  assert (Hgood : ~ bad_header bad_value_table).
  { intros [H|[H|(fs & c & H & Hc & Hn)]]; try discriminate.
    injection H as <-. apply Hn. unfold required_cols in Hc.
    repeat (apply elem_of_cons in Hc as [->|Hc]; [repeat constructor|]).
    apply elem_of_nil in Hc. contradiction. }
  destruct (load_fails_iff_bad_header (B := ascii_builtins) bad_value_table
              ["Y_LE4"; "Y5T9"]) as (_ & _ & _ & Hnan).
  refine (Hnan [_] _ Hgood eq_refl _ _).
  - repeat split; try (vm_compute; discriminate). vm_compute. right. left.
  - vm_compute. reflexivity.
Defined.

(** ** Stable sorting *)

Section StableSort.
Context {A : Type} (le : A -> A -> bool).
Hypothesis le_total : forall a b, le a b = true \/ le b a = true.
Hypothesis le_trans : forall a b c, le a b = true -> le b c = true -> le a c = true.

Lemma insert_sorted_perm (x : A) (l : list A) :
  insert_sorted le x l ≡ₚ x :: l.
Proof.
  induction l as [|y l IH]; simpl; [reflexivity|].
  destruct (le x y); [reflexivity|].
  rewrite IH. apply perm_swap.
Qed.

Lemma stable_sort_perm (l : list A) : stable_sort le l ≡ₚ l.
Proof.
  induction l as [|x l IH]; simpl; [reflexivity|].
  rewrite insert_sorted_perm. f_equiv. exact IH.
Qed.

Lemma insert_sorted_placed (R : A -> A -> Prop) (x : A) (s : list A) :
  StronglySorted (placed_before le R) s ->
  Forall (R x) s ->
  StronglySorted (placed_before le R) (insert_sorted le x s).
Proof.
  induction s as [|y s IH]; intros Hs HR; simpl.
  - repeat constructor.
  - apply StronglySorted_inv in Hs as [Hs Hy].
    apply Forall_cons in HR as [HRy HRs].
    destruct (le x y) eqn:E.
    + constructor; [constructor; assumption|].
      constructor; [split; auto|].
      rewrite Forall_forall in Hy, HRs |- *. intros z Hz.
      split; [|intros _; apply HRs, Hz].
      apply (le_trans x y z); [exact E|apply Hy, Hz].
    + constructor; [apply IH; assumption|].
      rewrite Forall_forall in Hy |- *. intros z Hz.
      rewrite insert_sorted_perm in Hz.
      apply elem_of_cons in Hz as [->|Hz]; [|apply Hy, Hz].
      split; [|congruence].
      destruct (le_total x y); congruence.
Qed.

Lemma stable_sort_placed (R : A -> A -> Prop) (l : list A) :
  StronglySorted R l -> StronglySorted (placed_before le R) (stable_sort le l).
Proof.
  induction l as [|x l IH]; intros Hl; simpl; [constructor|].
  apply StronglySorted_inv in Hl as [Hl Hx].
  apply insert_sorted_placed; [apply IH, Hl|].
  rewrite Forall_forall in Hx |- *. intros z Hz.
  rewrite stable_sort_perm in Hz. auto.
Qed.

End StableSort.

(** ** Frequency counters *)

Section Counters.

Lemma occurrences_snoc (s : list string) (k x : string) :
  occurrences (s ++ [x]) k
  = (occurrences s k + if decide (x = k) then 1 else 0)%nat.
Proof.
  unfold occurrences. rewrite filter_app, length_app. f_equal.
  rewrite filter_cons, filter_nil. destruct (decide (x = k)); reflexivity.
Qed.

Lemma occurrences_pos (s : list string) (k : string) :
  (0 < occurrences s k)%nat <-> k ∈ s.
Proof.
  unfold occurrences. split.
  - intros H. destruct (filter _ s) as [|y l] eqn:E; [simpl in H; lia|].
    assert (Hy : y ∈ filter (fun x => x = k) s) by (rewrite E; left).
    apply list_elem_of_filter in Hy as [-> Hy]. exact Hy.
  - intros H.
    assert (Hk : k ∈ filter (fun x => x = k) s)
      by (apply list_elem_of_filter; auto).
    destruct (filter _ s); [apply elem_of_nil in Hk; contradiction|simpl; lia].
Qed.

(** The two ways an increment goes: a new line at the end, or one more on
    the line the name already has. *)
Lemma counter_incr_cases (k : string) (c : list (string * nat)) :
  ((k ∉ map fst c) /\ counter_incr k c = (c ++ [(k, 1%nat)])%list)
  \/ (exists c1 n c2,
        c = (c1 ++ (k, n) :: c2)%list /\ (k ∉ map fst c1)
        /\ counter_incr k c = (c1 ++ (k, S n) :: c2)%list).
Proof.
  induction c as [|[k' n] c IH]; simpl.
  - left. split; [apply not_elem_of_nil|reflexivity].
  - destruct (String.eqb k' k) eqn:E.
    + apply String.eqb_eq in E as ->. right.
      exists [], n, c. repeat split. apply not_elem_of_nil.
    + apply String.eqb_neq in E.
      destruct IH as [[Hn ->]|(c1 & m & c2 & -> & Hn & ->)].
      * left. split; [|reflexivity].
        intros [H|H]%elem_of_cons; [congruence|contradiction].
      * right. exists ((k', n) :: c1), m, c2. repeat split.
        simpl. intros [H|H]%elem_of_cons; [congruence|contradiction].
Qed.

Lemma seen_before_snoc (s : list string) (x a b : string) :
  seen_before s a b -> seen_before (s ++ [x]) a b.
Proof.
  intros (s1 & s2 & -> & H1 & H2 & H3).
  exists s1, (s2 ++ [x])%list. rewrite <- app_assoc. auto.
Qed.

Lemma seen_before_new (s : list string) (a k : string) :
  a ∈ s -> k ∉ s -> seen_before (s ++ [k]) a k.
Proof.
  intros Ha Hk.
  apply list_elem_of_split_l in Ha as (s1 & s2 & -> & Hn).
  exists s1, (s2 ++ [k])%list. rewrite <- app_assoc. repeat split; auto.
  - intros H. apply Hk, elem_of_app. auto.
  - intros ->. apply Hk, elem_of_app. right. left.
Qed.

Lemma sorted_keys_distinct (s : list string) (c1 c2 : list (string * nat))
    (k : string) (n : nat) :
  StronglySorted (seen_before s) (map fst (c1 ++ (k, n) :: c2)) ->
  forall k' n', (k', n') ∈ (c1 ++ c2)%list -> k' <> k.
Proof.
  rewrite map_app. simpl. intros Hs k' n' Hin ->.
  apply StronglySorted_app in Hs as (Hcross & _ & Hs2).
  apply StronglySorted_inv in Hs2 as [_ Hk].
  apply elem_of_app in Hin as [Hin|Hin].
  - destruct (Hcross k k) as (_ & _ & _ & _ & _ & Hne); [| |congruence].
    + apply (list_elem_of_fmap_2 fst) in Hin. exact Hin.
    + left.
  - rewrite Forall_forall in Hk.
    destruct (Hk k) as (_ & _ & _ & _ & _ & Hne); [|congruence].
    apply (list_elem_of_fmap_2 fst) in Hin. exact Hin.
Qed.

Lemma counts_incr (s : list string) (c : list (string * nat)) (k : string) :
  counts s c -> counts (s ++ [k]) (counter_incr k c).
Proof.
  intros [Hkeys Hord Hval].
  destruct (counter_incr_cases k c) as [[Hn ->]|(c1 & n & c2 & -> & Hn & ->)].
  - assert (Hk : k ∉ s) by (rewrite <- Hkeys; exact Hn).
    split.
    + intros x. rewrite map_app, !elem_of_app, Hkeys. simpl.
      rewrite !list_elem_of_singleton. reflexivity.
    + rewrite map_app. simpl. apply StronglySorted_app. split; [|split].
      * intros a b Ha Hb. apply list_elem_of_singleton in Hb as ->.
        apply seen_before_new; [apply Hkeys, Ha|exact Hk].
      * eapply StronglySorted_fmap with (f := id) (R1 := seen_before s) in Hord.
        -- rewrite list_fmap_id in Hord. exact Hord.
        -- intros. apply seen_before_snoc. assumption.
      * repeat constructor.
    + intros x m [Hin|Hin]%elem_of_app; rewrite occurrences_snoc.
      * rewrite (Hval x m Hin). destruct (decide (k = x)) as [->|]; [|lia].
        exfalso. apply Hn. apply (list_elem_of_fmap_2 fst) in Hin. exact Hin.
      * apply list_elem_of_singleton in Hin. injection Hin as -> ->.
        rewrite decide_True by reflexivity.
        assert (occurrences s k = 0%nat); [|lia].
        destruct (occurrences s k) eqn:E; [reflexivity|].
        exfalso. apply Hk, occurrences_pos. lia.
  - assert (Hks : k ∈ s).
    { apply Hkeys. rewrite map_app. apply elem_of_app. right. left. }
    assert (Hfst : map fst (c1 ++ (k, S n) :: c2) = map fst (c1 ++ (k, n) :: c2))
      by (rewrite !map_app; reflexivity).
    split.
    + intros x. rewrite Hfst, Hkeys, elem_of_app, list_elem_of_singleton.
      split; [auto|]. intros [H| ->]; auto.
    + rewrite Hfst.
      eapply StronglySorted_fmap with (f := id) (R1 := seen_before s) in Hord.
      * rewrite list_fmap_id in Hord. exact Hord.
      * intros. apply seen_before_snoc. assumption.
    + intros x m Hin. rewrite occurrences_snoc.
      apply elem_of_app in Hin as [Hin|Hin].
      * assert (x <> k).
        { eapply sorted_keys_distinct; [exact Hord|].
          apply elem_of_app. left. exact Hin. }
        rewrite decide_False by congruence.
        rewrite (Hval x m); [lia|]. apply elem_of_app. auto.
      * apply elem_of_cons in Hin as [Hin|Hin].
        -- injection Hin as -> ->. rewrite decide_True by reflexivity.
           rewrite <- (Hval k n); [lia|]. apply elem_of_app. right. left.
        -- assert (x <> k).
           { eapply sorted_keys_distinct; [exact Hord|].
             apply elem_of_app. right. exact Hin. }
           rewrite decide_False by congruence.
           rewrite (Hval x m); [lia|]. apply elem_of_app. right. right. exact Hin.
Qed.

Lemma counter_add_all_app (s1 s2 : list string) (c : list (string * nat)) :
  counter_add_all (s1 ++ s2) c = counter_add_all s2 (counter_add_all s1 c).
Proof. apply fold_left_app. Qed.

Lemma counts_add_all (s : list string) : counts s (counter_add_all s []).
Proof.
  induction s as [|k s IH] using rev_ind.
  - split; simpl.
    + intros k. reflexivity.
    + constructor.
    + intros k n H. apply elem_of_nil in H. contradiction.
  - rewrite counter_add_all_app. simpl. apply counts_incr, IH.
Qed.

Lemma strongly_sorted_weaken {A} (R1 R2 : A -> A -> Prop) (l : list A) :
  (forall a b, R1 a b -> R2 a b) -> StronglySorted R1 l -> StronglySorted R2 l.
Proof.
  intros H Hs. apply (StronglySorted_fmap id R1 R2) in Hs; [|exact H].
  rewrite list_fmap_id in Hs. exact Hs.
Qed.

Lemma strongly_sorted_keys (R : string -> string -> Prop) (c : list (string * nat)) :
  StronglySorted R (map fst c) -> StronglySorted (fun a b => R a.1 b.1) c.
Proof.
  induction c as [|a c IH]; simpl; intros H; [constructor|].
  apply StronglySorted_inv in H as [H1 H2].
  constructor; [auto|].
  apply Forall_forall. intros b Hb.
  apply (proj1 (Forall_forall _ _) H2).
  apply (list_elem_of_fmap_2 fst) in Hb. exact Hb.
Qed.

(** The table printed for a counter that has counted the stream [s]. *)
Lemma most_common_table (s : list string) :
  is_table s (most_common (counter_add_all s [])).
Proof.
  destruct (counts_add_all s) as [Hkeys Hord Hval].
  set (c := counter_add_all s []) in *. unfold most_common. split.
  - eapply strongly_sorted_weaken;
      [|apply (stable_sort_placed _) with (R := fun a b => seen_before s a.1 b.1)].
    + intros a b [H1 H2]. unfold table_before.
      apply Nat.leb_le in H1.
      destruct (decide (b.2 < a.2)%nat); [left; assumption|right].
      split; [lia|]. apply H2. apply Nat.leb_le. lia.
    + intros a b. rewrite !Nat.leb_le. lia.
    + intros a b d. rewrite !Nat.leb_le. lia.
    + apply strongly_sorted_keys, Hord.
  - intros k n. rewrite stable_sort_perm. split.
    + intros Hin. rewrite (Hval k n Hin). split; [reflexivity|].
      apply occurrences_pos, Hkeys.
      apply (list_elem_of_fmap_2 fst) in Hin. exact Hin.
    + intros [-> Hpos]. apply occurrences_pos, Hkeys in Hpos.
      apply list_elem_of_fmap in Hpos as ([k' n'] & -> & Hin).
      simpl. rewrite <- (Hval k' n' Hin). exact Hin.
Qed.

End Counters.

(** ** The loop over the bundle *)

Section Loop.
Context `{B : PyBuiltins}.
Variables (required_inputs : list string) (show : bool)
          (oecd_idx : option oecd_index).

Lemma bind_raise {A C} (m : result A) (k : A -> result C) (e : exn) :
  bind m k = Raise e ->
  m = Raise e \/ exists a, m = Ok a /\ k a = Raise e.
Proof. destruct m; simpl; intros H; [right; eauto|left; congruence]. Qed.

Lemma bind_ok {A C} (m : result A) (k : A -> result C) (c : C) :
  bind m k = Ok c -> exists a, m = Ok a /\ k a = Ok c.
Proof. destruct m; simpl; [eauto|discriminate]. Qed.

Lemma result_map_bind {A C D} (f : C -> D) (m : result A) (k : A -> result C) :
  result_map f (bind m k) = bind m (fun a => result_map f (k a)).
Proof. destruct m; reflexivity. Qed.

Lemma pyval_get_raise v k e : pyval_get v k = Raise e -> plain_exn e.
Proof. destruct v; simpl; intros [= <-]; left; reflexivity. Qed.

Lemma declared_of_raise entry e : declared_of entry = Raise e -> plain_exn e.
Proof.
  unfold declared_of.
  destruct (dict_get entry "missing_fields") as [v|]; [|discriminate].
  destruct (negb (truthy v)); [discriminate|].
  destruct v; try discriminate; try (intros [= <-]; right; reflexivity).
  destruct (mapM as_str l); [discriminate|].
  intros [= <-]. right. reflexivity.
Qed.

Lemma input_missing_raise inputs k e :
  input_missing inputs k = Raise e -> plain_exn e.
Proof.
  destruct inputs; simpl; try (intros [= <-]; right; reflexivity);
    try discriminate.
  - destruct (PyStr.contains s k); [|discriminate].
    intros [= <-]. left. reflexivity.
  - destruct (existsb _ l); [|discriminate].
    intros [= <-]. left. reflexivity.
Qed.

Lemma missing_inputs_of_raise inputs ks e :
  missing_inputs_of inputs ks = Raise e -> plain_exn e.
Proof.
  induction ks as [|k ks IH]; simpl; [discriminate|].
  intros [H|(m & _ & H)]%bind_raise; [eapply input_missing_raise, H|].
  apply bind_raise in H as [H|(rest & _ & H)]; [auto|discriminate].
Qed.

Lemma analyze_country_raise iso2 entry e :
  analyze_country iso2 entry required_inputs = Raise e -> plain_exn e.
Proof.
  unfold analyze_country.
  intros [H|(nm & _ & H)]%bind_raise; [eapply pyval_get_raise, H|].
  apply bind_raise in H as [H|(m & _ & H)]; [eapply missing_inputs_of_raise, H|].
  apply bind_raise in H as [H|(d & _ & H)];
    [eapply declared_of_raise, H|discriminate].
Qed.

Lemma analyze_country_ok iso2 entry r :
  analyze_country iso2 entry required_inputs = Ok r -> r.1.1.1 = iso2.
Proof.
  unfold analyze_country.
  intros (nm & _ & H)%bind_ok. apply bind_ok in H as (d & _ & H).
  apply bind_ok in H as (m & _ & H). injection H as <-. reflexivity.
Qed.

Lemma csv_check_raise iso2 entry e :
  csv_check oecd_idx iso2 entry = Raise e -> plain_exn e.
Proof.
  unfold csv_check. destruct oecd_idx as [idx|]; [|discriminate].
  intros [H|(iso3 & _ & H)]%bind_raise.
  - unfold resolve_iso3 in H.
    apply bind_raise in H as [H|(emb & _ & H)];
      [eapply pyval_get_raise, H|discriminate].
  - destruct iso3 as [c|]; [|discriminate].
    apply bind_raise in H as [H|([[ok yr] iss] & _ & H)]; [|discriminate].
    destruct c; simpl in H; try discriminate;
      injection H as <-; right; reflexivity.
Qed.

Lemma loop_body_raise st item e :
  loop_body required_inputs show oecd_idx st item = Raise e -> plain_exn e.
Proof.
  unfold loop_body. destruct item.2; try discriminate.
  intros [H|([[[i nm] dm] mi] & _ & H)]%bind_raise;
    [eapply analyze_country_raise, H|].
  apply bind_raise in H as [H|([[i3 yr] iss] & _ & H)];
    [eapply csv_check_raise, H|discriminate].
Qed.

Lemma run_loop_raise items st e :
  run_loop required_inputs show oecd_idx items st = Raise e -> plain_exn e.
Proof.
  revert st. induction items as [|item items IH]; intros st; simpl;
    [discriminate|].
  intros [H|(st' & _ & H)]%bind_raise; [eapply loop_body_raise, H|eauto].
Qed.

(** The loop never reads the count of analysed entries. *)
Lemma loop_body_add_total n st item :
  loop_body required_inputs show oecd_idx (add_total n st) item
  = result_map (add_total n) (loop_body required_inputs show oecd_idx st item).
Proof.
  unfold loop_body.
  assert (Hb : bump_total (add_total n st) = add_total n (bump_total st)).
  { unfold bump_total, add_total. simpl. f_equal. lia. }
  rewrite Hb.
  destruct item.2; try reflexivity.
  destruct (analyze_country _ d required_inputs) as [[[[i nm] dm] mi]|]; simpl;
    [|reflexivity].
  destruct (csv_check oecd_idx i d) as [[[i3 yr] iss]|]; reflexivity.
Qed.

Lemma run_loop_add_total n items st :
  run_loop required_inputs show oecd_idx items (add_total n st)
  = result_map (add_total n) (run_loop required_inputs show oecd_idx items st).
Proof.
  revert st. induction items as [|item items IH]; intros st; simpl;
    [reflexivity|].
  rewrite loop_body_add_total.
  destruct (loop_body required_inputs show oecd_idx st item); simpl; auto.
Qed.

Lemma add_total_add_total n m st :
  add_total n (add_total m st) = add_total (n + m) st.
Proof. unfold add_total. simpl. f_equal. lia. Qed.

Lemma result_map_add_total n m (r : result loop_state) :
  result_map (add_total n) (result_map (add_total m) r)
  = result_map (add_total (n + m)) r.
Proof. destruct r; simpl; [rewrite add_total_add_total|]; reflexivity. Qed.

Lemma loop_body_not_dict st item :
  is_dict item.2 = false ->
  loop_body required_inputs show oecd_idx st item = Ok (bump_total st).
Proof. unfold loop_body. destruct item.2; try reflexivity. discriminate. Qed.

Lemma run_loop_mappings items st :
  run_loop required_inputs show oecd_idx items st
  = result_map (add_total (length items - length (mappings items)))
      (run_loop required_inputs show oecd_idx (mappings items) st).
Proof.
  revert st. induction items as [|item items IH]; intros st.
  - simpl. destruct st; reflexivity.
  - pose proof (length_filter (fun i : string * pyval => is_dict i.2 = true) items) as Hlen.
    fold (mappings items) in Hlen.
    unfold mappings. rewrite filter_cons. fold (mappings items).
    destruct (decide (is_dict item.2 = true)) as [E|E].
    + simpl. rewrite result_map_bind.
      destruct (loop_body required_inputs show oecd_idx st item); simpl; auto.
    + apply not_true_is_false in E.
      change (run_loop required_inputs show oecd_idx (item :: items) st)
        with (bind (loop_body required_inputs show oecd_idx st item)
                (fun st' => run_loop required_inputs show oecd_idx items st')).
      rewrite (loop_body_not_dict st item E). simpl bind.
      rewrite IH.
      change (bump_total st) with (add_total 1 st).
      rewrite run_loop_add_total, result_map_add_total. f_equal.
      f_equal. simpl length. lia.
Qed.

End Loop.

(** ** The report *)

Section Report.
Context `{B : PyBuiltins}.

Lemma stream_snoc {A} (f : A -> list string) (rs : list A) (r : A) :
  concat (map f (rs ++ [r])) = (concat (map f rs) ++ f r)%list.
Proof. rewrite map_app, concat_app. simpl. rewrite app_nil_r. reflexivity. Qed.

Lemma counter_add_all_tallied {A} (f : A -> list string) (rs : list A) (r : A)
    (c : list (string * nat)) :
  c = counter_add_all (concat (map f rs)) [] ->
  counter_add_all (f r) c = counter_add_all (concat (map f (rs ++ [r]))) [].
Proof. intros ->. rewrite stream_snoc, counter_add_all_app. reflexivity. Qed.

(** One turn of the loop keeps the counters in step with the rows, and
    adds at most the row of the entry it has read. *)
Lemma loop_body_tallied req show idx st item st' :
  loop_body req show idx st item = Ok st' ->
  tallied st ->
  tallied st'
  /\ exists new, rows st' = (rows st ++ new)%list
                 /\ map r_iso2 new `sublist_of` [normalised item].
Proof.
  unfold loop_body. intros H Ht.
  destruct item.2 eqn:Ev;
    try (injection H as <-; split; [exact Ht|];
         exists []; simpl; rewrite app_nil_r; split;
         [reflexivity|apply sublist_nil_l]).
  apply bind_ok in H as ([[[i nm] dm] mi] & Ha & H).
  apply analyze_country_ok in Ha. simpl in Ha. subst i.
  apply bind_ok in H as ([[i3 yr] iss] & _ & H).
  injection H as <-. destruct Ht as (Hd & Hi & Hc). simpl in Hd, Hi, Hc.
  destruct (negb (bool_decide (dm = [])) || negb (bool_decide (mi = []))
            || negb (bool_decide (iss = []))) eqn:Eh.
  - simpl. split.
    + unfold tallied, declared_stream, inputs_stream, issues_stream. simpl.
      set (r := {| r_iso2 := PyStr.upper (PyStr.strip item.1); r_name := nm;
                   r_declared := dm; r_inputs := mi; r_iso3 := i3;
                   r_year := yr; r_issues := iss |}).
      split; [|split].
      * exact (counter_add_all_tallied r_declared (rows st) r _ Hd).
      * exact (counter_add_all_tallied r_inputs (rows st) r _ Hi).
      * exact (counter_add_all_tallied
                 (fun r => map issue_key (r_issues r)) (rows st) r _ Hc).
    + eexists [_]. split; [reflexivity|]. simpl. reflexivity.
  - apply orb_false_iff in Eh as [Eh E3]. apply orb_false_iff in Eh as [E1 E2].
    apply negb_false_iff, bool_decide_eq_true in E1, E2, E3. subst dm mi iss.
    destruct show; simpl.
    + split.
      * unfold tallied, declared_stream, inputs_stream, issues_stream. simpl.
        set (r := {| r_iso2 := PyStr.upper (PyStr.strip item.1); r_name := nm;
                     r_declared := []; r_inputs := []; r_iso3 := i3;
                     r_year := yr; r_issues := [] |}).
        split; [|split].
        -- exact (counter_add_all_tallied r_declared (rows st) r _ Hd).
        -- exact (counter_add_all_tallied r_inputs (rows st) r _ Hi).
        -- exact (counter_add_all_tallied
                    (fun r => map issue_key (r_issues r)) (rows st) r _ Hc).
      * eexists [_]. split; [reflexivity|]. simpl. reflexivity.
    + split; [repeat split; assumption|].
      exists []. rewrite app_nil_r. split; [reflexivity|apply sublist_nil_l].
Qed.

Lemma run_loop_tallied req show idx items st st' :
  run_loop req show idx items st = Ok st' ->
  tallied st ->
  tallied st'
  /\ exists new, rows st' = (rows st ++ new)%list
                 /\ map r_iso2 new `sublist_of` map normalised items.
Proof.
  revert st. induction items as [|item items IH]; intros st; simpl.
  - intros [= <-] Ht. split; [exact Ht|].
    exists []. rewrite app_nil_r. split; [reflexivity|apply sublist_nil_l].
  - intros (st1 & H1 & H2)%bind_ok Ht.
    destruct (loop_body_tallied _ _ _ _ _ _ H1 Ht) as (Ht1 & n1 & Hr1 & Hs1).
    destruct (IH _ H2 Ht1) as (Ht2 & n2 & Hr2 & Hs2).
    split; [exact Ht2|]. exists (n1 ++ n2)%list. split.
    + rewrite Hr2, Hr1, app_assoc. reflexivity.
    + rewrite map_app.
      change (normalised item :: map normalised items)
        with ([normalised item] ++ map normalised items)%list.
      apply sublist_app; assumption.
Qed.

Lemma row_key_le_total (a b : row) :
  row_key_le a b = true \/ row_key_le b a = true.
Proof.
  unfold row_key_le.
  destruct (Z.ltb_spec (row_score a) (row_score b)); [left; reflexivity|].
  destruct (Z.ltb_spec (row_score b) (row_score a)); [right; reflexivity|].
  rewrite !(proj2 (Z.eqb_eq _ _)) by lia. simpl.
  apply String.leb_total.
Qed.

Lemma row_key_le_trans (a b c : row) :
  row_key_le a b = true -> row_key_le b c = true -> row_key_le a c = true.
Proof.
  unfold row_key_le. rewrite !orb_true_iff, !andb_true_iff.
  rewrite !Z.ltb_lt, !Z.eqb_eq.
  intros [H1|[H1 L1]] [H2|[H2 L2]]; try (left; lia).
  right. split; [lia|]. eapply str_leb_trans; eassumption.
Qed.

Lemma row_key_le_before (a b : row) : row_key_le a b = true -> row_before a b.
Proof.
  unfold row_key_le, row_before, row_score, issue_count.
  rewrite orb_true_iff, andb_true_iff, Z.ltb_lt, Z.eqb_eq.
  intros [H|[H L]]; [left; lia|right; split; [lia|exact L]].
Qed.

Lemma sort_rows_sorted (rs : list row) : StronglySorted row_before (sort_rows rs).
Proof.
  unfold sort_rows.
  eapply strongly_sorted_weaken;
    [|apply (stable_sort_placed row_key_le row_key_le_total row_key_le_trans
               (fun _ _ => True))].
  - intros a b [H _]. apply row_key_le_before, H.
  - induction rs; constructor; [assumption|]. apply Forall_forall. auto.
Qed.

Lemma strongly_sorted_filter {A} (R : A -> A -> Prop) (P : A -> Prop)
    `{forall x, Decision (P x)} (l : list A) :
  StronglySorted R l -> StronglySorted R (filter P l).
Proof.
  induction 1 as [|x l Hl IH Hx]; [constructor|].
  rewrite filter_cons. destruct (decide (P x)); [|exact IH].
  constructor; [exact IH|].
  rewrite Forall_forall in Hx |- *.
  intros y [_ Hy]%list_elem_of_filter. auto.
Qed.

End Report.

(** ** The run as a whole *)

(** C10: an entry of the bundle whose value is not a mapping is counted in
    the total and changes nothing else: no row, no counter, no country with
    issues.  So the run over a bundle is the run over its mappings, with the
    other entries added to the total. *)
Theorem non_mapping_entry_skipped `{B : PyBuiltins}
    (required_inputs : list string) (show : bool) (oecd_idx : option oecd_index) :
  (forall st k v,
     is_dict v = false ->
     exists st',
       loop_body required_inputs show oecd_idx st (k, v) = Ok st'
       /\ total st' = S (total st)
       /\ with_issues st' = with_issues st
       /\ freq_declared st' = freq_declared st
       /\ freq_inputs st' = freq_inputs st
       /\ freq_csv st' = freq_csv st
       /\ rows st' = rows st)
  /\ (forall items st,
        run_loop required_inputs show oecd_idx items st
        = result_map (add_total (length items - length (mappings items)))
            (run_loop required_inputs show oecd_idx (mappings items) st)).
Proof.
  split.
  - intros st k v Hv. exists (bump_total st). split.
    + apply loop_body_not_dict. exact Hv.
    + repeat split.
  - intros items st. apply run_loop_mappings.
Qed.

(** C10 on a state that already holds a row, reading an entry whose value
    is a string. *)
Lemma non_mapping_entry_skipped_witness :
  exists st',
    loop_body (B := ascii_builtins) ["rho"] true None
      {| total := 2; with_issues := 1; freq_declared := [("tau", 1%nat)];
         freq_inputs := []; freq_csv := [];
         rows := [{| r_iso2 := "DE"; r_name := PStr "DE"; r_declared := ["tau"];
                     r_inputs := []; r_iso3 := None; r_year := None;
                     r_issues := [] |}] |}
      ("XX", PStr "oops") = Ok st'
    /\ total st' = 3%nat
    /\ with_issues st' = 1%nat
    /\ freq_declared st' = [("tau", 1%nat)]
    /\ freq_inputs st' = []
    /\ freq_csv st' = []
    /\ rows st' = [{| r_iso2 := "DE"; r_name := PStr "DE"; r_declared := ["tau"];
                      r_inputs := []; r_iso3 := None; r_year := None;
                      r_issues := [] |}].
Proof.
  apply (proj1 (non_mapping_entry_skipped (B := ascii_builtins) ["rho"] true None)).
  reflexivity.
Defined.

(** C6, as far as the code agrees: the run ends with the structure error
    exactly when the document read is a mapping whose [countries] entry is
    absent or is not a mapping.  The list of required inputs plays no part:
    an empty one is accepted. *)
Theorem structure_error_iff `{B : PyBuiltins} (a : args) :
  main a = Raise (SystemExit structure_msg)
  <-> exists d, json_data a = PDict d
                /\ forall items, dict_get d "countries" <> Some (PDict items).
Proof.
  unfold main. split.
  - destruct (json_data a) as [| | | | | |d]; simpl; try discriminate.
    intros H. exists d. split; [reflexivity|]. intros items E.
    rewrite E in H.
    apply bind_raise in H as [H|(idx & _ & H)].
    + unfold load_index in H.
      destruct (oecd_csv a) as [path|]; [|discriminate].
      destruct (PyStr.is_empty path); [discriminate|].
      destruct (load_oecd_population_csv _ _); [discriminate|].
      injection H as H. vm_compute in H. discriminate.
    + apply bind_raise in H as [H|(st & _ & H)]; [|discriminate].
      apply run_loop_raise in H as [H|H]; discriminate.
  - intros (d & -> & Hd). simpl.
    destruct (dict_get d "countries") as [[| | | | | |items]|]; try reflexivity.
    exfalso. apply (Hd items). reflexivity.
Qed.

(** C6 on a document whose [countries] entry is a list. *)
Lemma structure_error_iff_witness :
  main (B := ascii_builtins)
    {| json_data := PDict [("countries", PList [])];
       required_inputs_arg := "rho,tau"; show_ok := false; oecd_csv := None;
       csv_file := no_table; required_ages_arg := "Y_LE4" |}
  = Raise (SystemExit structure_msg).
Proof.
  apply (proj2 (structure_error_iff (B := ascii_builtins) _)).
  eexists. split; [reflexivity|]. intros items. simpl. discriminate.
Defined.

(** C6 as stated fails: with an empty list of required inputs the run over
    the example bundle does not abort; it reports no missing input. *)
Lemma empty_required_inputs_accepted :
  parse_list (required_inputs_arg (example_args "")) = []
  /\ main (B := ascii_builtins) (example_args "") <> Raise (SystemExit structure_msg)
  /\ main (B := ascii_builtins) (example_args "")
     = Ok {| rep_total := 4; rep_with_issues := 1; rep_csv_active := false;
             rep_countries :=
               [{| r_iso2 := "DE"; r_name := PStr "DE"; r_declared := ["tau"];
                   r_inputs := []; r_iso3 := None; r_year := None;
                   r_issues := [] |}];
             rep_tables := Some ([("tau", 1%nat)], [], None) |}.
Proof.
  split; [|split].
  - vm_compute. reflexivity.
  - vm_compute. discriminate.
  - vm_compute. reflexivity.
Qed.

(** C7: the country blocks of the report are in the order of more issues
    first and, among as many issues, of the smaller region code first; they
    are the rows of the countries visited, in bundle order, that get a
    block.  Each frequency table printed lists the names met while visiting,
    with their number of occurrences, the greater count first and, among
    equal counts, the name met first. *)
Theorem report_order `{B : PyBuiltins} (a : args) (rep : report) :
  main a = Ok rep ->
  StronglySorted row_before (rep_countries rep)
  /\ exists items visited,
       pyval_get (json_data a) "countries" = Ok (Some (PDict items))
       /\ map r_iso2 visited `sublist_of` map normalised items
       /\ rep_countries rep ≡ₚ filter (fun r => printed (show_ok a) r = true) visited
       /\ forall t1 t2 t3,
            rep_tables rep = Some (t1, t2, t3) ->
            is_table (declared_stream visited) t1
            /\ is_table (inputs_stream visited) t2
            /\ forall t, t3 = Some t -> is_table (issues_stream visited) t.
Proof.
  unfold main. intros H.
  apply bind_ok in H as (countries & Hc & H).
  destruct countries as [[| | | | | |items]|]; try discriminate.
  apply bind_ok in H as (idx & _ & H).
  apply bind_ok in H as (st & Hrun & H).
  assert (Ht0 : tallied init_state) by (repeat split).
  destruct (run_loop_tallied _ _ _ _ _ _ Hrun Ht0) as (Ht & new & Hrows & Hsub).
  simpl in Hrows. subst new.
  pose proof (sort_rows_sorted (rows st)) as Hsorted.
  pose proof (stable_sort_perm row_key_le (rows st)) as Hperm.
  fold (sort_rows (rows st)) in Hperm.
  destruct (sort_rows (rows st)) as [|r0 rs] eqn:Es; injection H as <-; simpl.
  - split; [constructor|]. exists items, (rows st).
    apply Permutation_nil_l in Hperm. rewrite <- Hperm in Hsub |- *.
    split; [assumption|]. split; [assumption|]. split; [reflexivity|].
    discriminate.
  - split; [apply strongly_sorted_filter, Hsorted|].
    exists items, (rows st).
    split; [assumption|]. split; [assumption|].
    split; [rewrite Hperm; reflexivity|].
    intros t1 t2 t3 H. destruct Ht as (Hd & Hi & Hcsv).
    injection H as <- <- H3. rewrite Hd, Hi.
    split; [apply most_common_table|]. split; [apply most_common_table|].
    intros t ->. destruct (bool_decide (is_Some idx)); [|discriminate].
    injection H3 as <-. rewrite Hcsv. apply most_common_table.
Qed.

(** C7 on the example bundle: Germany, with three issues, comes before
    Spain, with one. *)
Lemma report_order_witness :
  exists rep,
    main (B := ascii_builtins) (example_args "rho,tau") = Ok rep
    /\ map r_iso2 (rep_countries rep) = ["DE"; "ES"]
    /\ rep_tables rep = Some ([("tau", 1%nat)], [("tau", 2%nat); ("rho", 1%nat)], None)
    /\ StronglySorted row_before (rep_countries rep).
Proof.
  eexists. split; [vm_compute; reflexivity|].
  split; [reflexivity|]. split; [reflexivity|].
  eapply proj1, (report_order (B := ascii_builtins) (example_args "rho,tau")).
  vm_compute. reflexivity.
Defined.

(** ** The constants *)

(** The defaults of the command line are 11 inputs and 18 age bands, and
    the lists read back from their comma-joined form are the lists. *)
Lemma defaults_parse_back :
  length DEFAULT_REQUIRED_INPUTS = 11%nat
  /\ length DEFAULT_REQUIRED_AGES = 18%nat
  /\ parse_list (PyStr.join "," DEFAULT_REQUIRED_INPUTS) = DEFAULT_REQUIRED_INPUTS
  /\ parse_list (PyStr.join "," DEFAULT_REQUIRED_AGES) = DEFAULT_REQUIRED_AGES.
Proof. repeat split; vm_compute; reflexivity. Qed.


(** C8, as far as the code agrees: the crosswalk has 38 entries, one per
    2-letter code, each mapped to a 3-letter code. *)
Theorem crosswalk_entries :
  length ISO2_TO_ISO3 = 38%nat
  /\ NoDup (map fst ISO2_TO_ISO3)
  /\ Forall (fun kv => String.length kv.1 = 2%nat /\ String.length kv.2 = 3%nat)
            ISO2_TO_ISO3.
Proof.
  split; [reflexivity|]. split.
  - apply (bool_decide_unpack _). vm_compute. exact I.
  - apply (bool_decide_unpack _). vm_compute. exact I.
Qed.

(** C8 as stated fails: the entries are not 37. *)
Lemma crosswalk_not_37 : length ISO2_TO_ISO3 <> 37%nat.
Proof. vm_compute. discriminate. Qed.

(** * Further properties of the code *)

(** ** Text *)

Section Text.

Lemma lstrip_idem (s : string) : PyStr.lstrip (PyStr.lstrip s) = PyStr.lstrip s.
Proof.
  induction s as [|c s IH]; simpl; [reflexivity|].
  destruct (PyStr.is_space c) eqn:E; [exact IH|]. simpl. rewrite E. reflexivity.
Qed.

Lemma rstrip_cons_nonempty (c : ascii) (s : string) :
  PyStr.is_space c = false -> exists t, PyStr.rstrip (String c s) = String c t.
Proof.
  intros E. simpl. destruct (PyStr.rstrip s); [rewrite E|]; eauto.
Qed.

Lemma rstrip_idem (s : string) : PyStr.rstrip (PyStr.rstrip s) = PyStr.rstrip s.
Proof.
  induction s as [|c s IH]; simpl; [reflexivity|].
  destruct (PyStr.rstrip s) as [|d t] eqn:E.
  - destruct (PyStr.is_space c) eqn:Ec; simpl; [reflexivity|]. rewrite Ec. reflexivity.
  - simpl in IH |- *. rewrite IH. reflexivity.
Qed.

Lemma lstrip_rstrip_lstrip (s : string) :
  PyStr.lstrip (PyStr.rstrip (PyStr.lstrip s)) = PyStr.rstrip (PyStr.lstrip s).
Proof.
  pose proof (lstrip_head s) as H.
  destruct (PyStr.lstrip s) as [|c t]; [reflexivity|].
  destruct (rstrip_cons_nonempty c t H) as [u ->]. simpl. rewrite H. reflexivity.
Qed.

Lemma strip_idem (s : string) : PyStr.strip (PyStr.strip s) = PyStr.strip s.
Proof.
  unfold PyStr.strip. rewrite lstrip_rstrip_lstrip. apply rstrip_idem.
Qed.

Lemma has_char_lstrip c s : has_char c s = false -> has_char c (PyStr.lstrip s) = false.
Proof.
  induction s as [|x s IH]; simpl; [auto|].
  intros [E1 E2]%orb_false_iff.
  destruct (PyStr.is_space x); [auto|]. simpl. rewrite E1, E2. reflexivity.
Qed.

Lemma has_char_rstrip c s : has_char c s = false -> has_char c (PyStr.rstrip s) = false.
Proof.
  induction s as [|x s IH]; simpl; [auto|].
  intros [E1 E2]%orb_false_iff. specialize (IH E2).
  destruct (PyStr.rstrip s).
  - destruct (PyStr.is_space x); simpl; [reflexivity|]. rewrite E1. reflexivity.
  - simpl in IH |- *. rewrite E1. exact IH.
Qed.

Lemma has_char_strip c s : has_char c s = false -> has_char c (PyStr.strip s) = false.
Proof. intros H. apply has_char_rstrip, has_char_lstrip, H. Qed.

(** The fields of a split hold no separator. *)
Lemma split_fields_no_sep (sep : ascii) (s : string) :
  Forall (fun f => has_char sep f = false) (PyStr.split sep s).
Proof.
  induction s as [|c s IH]; simpl; [repeat constructor|].
  destruct (Ascii.eqb c sep) eqn:E; [constructor; [reflexivity|exact IH]|].
  destruct (PyStr.split sep s) as [|f fs]; [repeat constructor; simpl; rewrite E; reflexivity|].
  apply Forall_cons in IH as [Hf Hfs].
  constructor; [simpl; rewrite E, Hf; reflexivity|exact Hfs].
Qed.

Lemma split_no_sep (sep : ascii) (x : string) :
  has_char sep x = false -> PyStr.split sep x = [x].
Proof.
  induction x as [|c x IH]; simpl; [reflexivity|].
  intros [E1 E2]%orb_false_iff. rewrite E1, (IH E2). reflexivity.
Qed.

Lemma split_app_sep (sep : ascii) (x rest : string) :
  has_char sep x = false ->
  PyStr.split sep (x ++ String sep rest) = x :: PyStr.split sep rest.
Proof.
  induction x as [|c x IH]; intros H.
  - change (PyStr.split sep (String sep rest) = "" :: PyStr.split sep rest).
    simpl. rewrite Ascii.eqb_refl. reflexivity.
  - simpl in H. apply orb_false_iff in H as [E1 E2].
    change (PyStr.split sep (String c (x ++ String sep rest))
            = String c x :: PyStr.split sep rest).
    simpl. rewrite E1, (IH E2). reflexivity.
Qed.

Lemma split_join (sep : ascii) (l : list string) :
  l <> [] ->
  Forall (fun x => has_char sep x = false) l ->
  PyStr.split sep (PyStr.join (String sep "") l) = l.
Proof.
  induction l as [|x l IH]; [congruence|]. intros _ Hl.
  apply Forall_cons in Hl as [Hx Hl].
  destruct l as [|y l]; [apply split_no_sep, Hx|].
  change (PyStr.join (String sep "") (x :: y :: l))
    with (x ++ String sep "" ++ PyStr.join (String sep "") (y :: l)).
  change (String sep "" ++ PyStr.join (String sep "") (y :: l))
    with (String sep (PyStr.join (String sep "") (y :: l))).
  rewrite (split_app_sep sep x _ Hx), IH; [reflexivity|discriminate|exact Hl].
Qed.

End Text.

(** X1: every name that [parse_list] returns is clean: it is not empty, has
    no whitespace at either end and holds no comma. *)
Theorem parse_list_clean (s : string) : Forall clean_name (parse_list s).
Proof.
  unfold parse_list. apply Forall_forall. intros x Hx.
  apply list_elem_of_filter in Hx as [Hne Hx].
  apply list_elem_of_fmap in Hx as (f & -> & Hf).
  pose proof (split_fields_no_sep "," s) as Hs.
  rewrite Forall_forall in Hs. specialize (Hs f Hf).
  split; [|split].
  - intros E. rewrite E in Hne. discriminate.
  - apply strip_idem.
  - apply has_char_strip, Hs.
Qed.

(** X2: a list of clean names, joined with commas and parsed, reads back as
    the list itself (the empty list included). *)
Theorem parse_list_join (l : list string) :
  Forall clean_name l -> parse_list (PyStr.join "," l) = l.
Proof.
  intros Hl. destruct l as [|x l]; [reflexivity|].
  unfold parse_list. rewrite split_join; [|discriminate|].
  - remember (x :: l) as k eqn:Ek. clear Ek. induction Hl as [|y k Hy Hk IH]; [reflexivity|].
    destruct Hy as (Hne & Hs & _).
    change (map PyStr.strip (y :: k)) with (PyStr.strip y :: map PyStr.strip k).
    rewrite filter_cons, Hs.
    destruct (decide _) as [_|E].
    + f_equal. exact IH.
    + exfalso. apply E. destruct y; [congruence|reflexivity].
  - eapply Forall_impl; [exact Hl|]. intros y (_ & _ & H). exact H.
Qed.

(** X2 on three names. *)
Lemma parse_list_join_witness : parse_list "rho,tau,k" = ["rho"; "tau"; "k"].
Proof.
  apply (parse_list_join ["rho"; "tau"; "k"]).
  repeat constructor; try discriminate.
Defined.

(** ** The per-country analysis *)

Section Analysis.

Lemma str_compare_refl (a : string) : String.compare a a = Eq.
Proof.
  induction a as [|c a IH]; simpl; [reflexivity|].
  unfold Ascii.compare. rewrite N.compare_refl. exact IH.
Qed.

Lemma str_ltb_irrefl (a : string) : PyStr.ltb a a = false.
Proof. unfold PyStr.ltb, String.ltb. rewrite str_compare_refl. reflexivity. Qed.

Lemma str_ltb_leb (a b : string) :
  PyStr.ltb a b = true <-> PyStr.leb a b = true /\ a <> b.
Proof.
  unfold PyStr.ltb, PyStr.leb, String.ltb, String.leb.
  destruct (String.compare a b) eqn:E; split; try (intros [? ?]); try discriminate; auto.
  - apply String.compare_eq_iff in E. congruence.
  - split; [reflexivity|]. intros ->. rewrite str_compare_refl in E. discriminate.
Qed.

Lemma str_ltb_trans (a b c : string) :
  PyStr.ltb a b = true -> PyStr.ltb b c = true -> PyStr.ltb a c = true.
Proof.
  rewrite !str_ltb_leb. intros [H1 N1] [H2 N2]. split.
  - eapply str_leb_trans; eassumption.
  - intros ->. apply N1. apply String.leb_antisym; assumption.
Qed.

Lemma str_ltb_total (a b : string) :
  PyStr.ltb a b = false -> a <> b -> PyStr.ltb b a = true.
Proof.
  intros H N. apply str_leb_of_not_ltb in H. apply str_ltb_leb. auto.
Qed.

Lemma insert_uniq_elem (x : string) (l : list string) (y : string) :
  y ∈ insert_uniq x l <-> y = x \/ y ∈ l.
Proof.
  induction l as [|z l IH]; simpl.
  - rewrite list_elem_of_singleton, elem_of_nil. tauto.
  - destruct (String.eqb_spec x z) as [->|N].
    + rewrite elem_of_cons. tauto.
    + destruct (PyStr.ltb x z).
      * rewrite elem_of_cons. tauto.
      * rewrite !elem_of_cons, IH. tauto.
Qed.

Lemma insert_uniq_sorted (x : string) (l : list string) :
  StronglySorted str_lt l -> StronglySorted str_lt (insert_uniq x l).
Proof.
  induction l as [|z l IH]; simpl; intros Hs.
  - repeat constructor.
  - destruct (String.eqb_spec x z) as [->|N]; [exact Hs|].
    apply StronglySorted_inv in Hs as [Hl Hz].
    destruct (PyStr.ltb x z) eqn:E.
    + constructor; [constructor; assumption|].
      constructor; [exact E|].
      eapply Forall_impl; [exact Hz|]. intros w Hw. eapply str_ltb_trans; eassumption.
    + constructor; [auto|].
      apply Forall_forall. intros w [->|Hw]%insert_uniq_elem.
      * apply str_ltb_total; auto.
      * rewrite Forall_forall in Hz. auto.
Qed.

Lemma sorted_set_elem (l : list string) (y : string) : y ∈ sorted_set l <-> y ∈ l.
Proof.
  induction l as [|x l IH]; simpl; [reflexivity|].
  rewrite insert_uniq_elem, IH, elem_of_cons. reflexivity.
Qed.

Lemma sorted_set_sorted (l : list string) : StronglySorted str_lt (sorted_set l).
Proof.
  induction l as [|x l IH]; simpl; [constructor|]. apply insert_uniq_sorted, IH.
Qed.

Lemma str_lt_sorted_NoDup (l : list string) : StronglySorted str_lt l -> NoDup l.
Proof.
  induction 1 as [|x l Hl IH Hx]; constructor; [|exact IH].
  intros Hin. rewrite Forall_forall in Hx. specialize (Hx x Hin).
  unfold str_lt in Hx. rewrite str_ltb_irrefl in Hx. discriminate.
Qed.

Lemma input_missing_ok (inputs : pyval) (k : string) (b : bool) :
  input_missing inputs k = Ok b -> (b = true <-> input_lacking inputs k).
Proof.
  unfold input_lacking, input_value.
  destruct inputs; simpl; try discriminate.
  - destruct (PyStr.contains s k); [discriminate|]. intros [= <-]. tauto.
  - destruct (existsb _ l); [discriminate|]. intros [= <-]. tauto.
  - intros [= <-]. destruct (dict_get d k); tauto.
Qed.

Lemma missing_inputs_of_ok (inputs : pyval) (req m : list string) :
  missing_inputs_of inputs req = Ok m ->
  forall k, k ∈ m <-> k ∈ req /\ input_lacking inputs k.
Proof.
  revert m. induction req as [|x req IH]; simpl; intros m H k.
  - injection H as <-. rewrite !elem_of_nil. tauto.
  - apply bind_ok in H as (b & Hb & H). apply bind_ok in H as (rest & Hrest & H).
    injection H as <-. apply input_missing_ok in Hb. specialize (IH rest Hrest k).
    destruct b.
    + rewrite !elem_of_cons, IH. split.
      * intros [->|[? ?]]; [split; [auto|apply Hb; reflexivity]|auto].
      * intros [[->|?] ?]; auto.
    + rewrite elem_of_cons, IH. split.
      * intros [? ?]; auto.
      * intros [[->|?] Hl]; [|auto]. apply Hb in Hl. discriminate.
Qed.

Lemma missing_inputs_of_dict (d : list (string * pyval)) (req : list string) :
  exists m, missing_inputs_of (PDict d) req = Ok m.
Proof.
  induction req as [|x req [m IH]]; simpl; [eauto|]. rewrite IH. simpl. eauto.
Qed.

Lemma mapM_as_str (l : list pyval) (ss : list string) :
  mapM as_str l = Some ss -> l = map PStr ss.
Proof.
  intros H. apply mapM_Some in H.
  induction H as [|v s l ss Hv _ IH]; [reflexivity|].
  destruct v; try discriminate. injection Hv as <-. simpl. f_equal. exact IH.
Qed.

Lemma mapM_as_str_map (ss : list string) : mapM as_str (map PStr ss) = Some ss.
Proof.
  apply mapM_Some. induction ss; constructor; [reflexivity|assumption].
Qed.

Lemma declared_of_ok (entry : list (string * pyval)) (dm : list string) :
  declared_of entry = Ok dm -> forall x, x ∈ dm <-> declared_member entry x.
Proof.
  unfold declared_of, declared_member.
  destruct (dict_get entry "missing_fields") as [v|];
    [|intros [= <-] x; rewrite elem_of_nil; tauto].
  destruct v; cbn [truthy negb]; try discriminate;
    try (intros [= <-] x; rewrite elem_of_nil; tauto).
  - destruct b; simpl; [discriminate|]. intros [= <-] x. rewrite elem_of_nil. tauto.
  - destruct (n =? 0); simpl; [|discriminate]. intros [= <-] x. rewrite elem_of_nil. tauto.
  - destruct f; simpl; try discriminate. intros [= <-] x. rewrite elem_of_nil. tauto.
  - destruct s; simpl; intros [= <-] x.
    + rewrite elem_of_nil. split; [tauto|]. intros [? _]. congruence.
    + rewrite list_elem_of_singleton. split.
      * intros ->. split; [discriminate|reflexivity].
      * intros [_ H]. exact H.
  - destruct l as [|v l]; cbn [negb].
    + intros [= <-] x. rewrite !elem_of_nil. tauto.
    + destruct (mapM as_str (v :: l)) as [ss|] eqn:E; [|discriminate].
      intros [= <-] x. apply mapM_as_str in E. rewrite E.
      split; [apply list_elem_of_fmap_2|].
      intros H. apply list_elem_of_fmap in H as (y & Heq & Hy).
      injection Heq as ->. exact Hy.
  - destruct d as [|kv d]; simpl; intros [= <-] x; [rewrite !elem_of_nil; tauto|].
    reflexivity.
Qed.

End Analysis.

(** X3: when the analysis of a record returns, its list of missing inputs
    is in strictly ascending order (so without repetition) and holds exactly
    the required keys that have no value in [inputs] or a missing one. *)
Theorem analyze_country_missing_inputs (iso2 : string)
    (entry : list (string * pyval)) (req : list string)
    (i : string) (nm : pyval) (dm mi : list string) :
  analyze_country iso2 entry req = Ok (i, nm, dm, mi) ->
  StronglySorted str_lt mi
  /\ forall k, k ∈ mi <->
       k ∈ req /\ input_lacking (or_empty_dict (dict_get entry "inputs")) k.
Proof.
  unfold analyze_country. intros H.
  apply bind_ok in H as (n & _ & H). apply bind_ok in H as (m & Hm & H).
  apply bind_ok in H as (d & _ & H). injection H as _ _ _ <-.
  split; [apply sorted_set_sorted|].
  intros k. rewrite sorted_set_elem. apply missing_inputs_of_ok, Hm.
Qed.

(** X4: when the analysis of a record returns, its list of declared fields
    is in strictly ascending order and holds exactly the names the record
    declares: a bare string counts as one name, repetitions count once. *)
Theorem analyze_country_declared (iso2 : string)
    (entry : list (string * pyval)) (req : list string)
    (i : string) (nm : pyval) (dm mi : list string) :
  analyze_country iso2 entry req = Ok (i, nm, dm, mi) ->
  StronglySorted str_lt dm /\ forall x, x ∈ dm <-> declared_member entry x.
Proof.
  unfold analyze_country. intros H.
  apply bind_ok in H as (n & _ & H). apply bind_ok in H as (m & _ & H).
  apply bind_ok in H as (d & Hd & H). injection H as _ _ <- _.
  split; [apply sorted_set_sorted|].
  intros x. rewrite sorted_set_elem. apply declared_of_ok, Hd.
Qed.

Lemma analyze_country_total (iso2 : string)
    (entry : list (string * pyval)) (req : list string) :
  well_formed_entry entry ->
  exists dm mi,
    analyze_country iso2 entry req = Ok (iso2, name_of iso2 entry, dm, mi).
Proof.
  intros (Hc & Hi & Hd). unfold analyze_country, name_of.
  assert (Hin : exists d, or_empty_dict (dict_get entry "inputs") = PDict d).
  { unfold or_empty_dict. destruct (dict_get entry "inputs") as [v|]; [|eauto].
    destruct Hi as [-> | Hi]; [eauto|].
    destruct v; try discriminate. destruct (truthy _); eauto. }
  destruct Hin as [d ->].
  destruct (missing_inputs_of_dict d req) as [m Hm].
  assert (Hdm : exists ds, declared_of entry = Ok ds).
  { unfold declared_of. destruct (dict_get entry "missing_fields") as [v|]; [|eauto].
    destruct (truthy v) eqn:Et; simpl; [|eauto].
    destruct Hd as [Hd|[[s ->]|[[ss ->]|Hd]]].
    - congruence.
    - eauto.
    - rewrite mapM_as_str_map. eauto.
    - destruct v; try discriminate. eauto. }
  destruct Hdm as [ds Hds].
  exists (sorted_set ds), (sorted_set m).
  destruct (dict_get entry "country") as [c|]; simpl.
  - destruct Hc as [Hc|Hc].
    + unfold or_empty_dict. rewrite Hc. simpl. rewrite Hm. simpl. rewrite Hds. simpl.
      destruct c; try reflexivity. destruct d0; [reflexivity|discriminate].
    + destruct c; try discriminate. unfold or_empty_dict.
      destruct (truthy (PDict d0)) eqn:Et.
      * simpl. rewrite Hm. simpl. rewrite Hds. reflexivity.
      * destruct d0; [|discriminate]. simpl. rewrite Hm. simpl. rewrite Hds. reflexivity.
  - rewrite Hm. simpl. rewrite Hds. reflexivity.
Qed.

(** X5: the analysis of a record of the documented shape never raises,
    whatever is missing in it: it returns the region code it was given and
    the record's name, or the code when the record has no true name.  A
    record whose [country] is true and not a mapping makes it raise
    [AttributeError]. *)
Theorem analyze_country_well_formed (iso2 : string)
    (entry : list (string * pyval)) (req : list string) :
  (well_formed_entry entry ->
   exists dm mi,
     analyze_country iso2 entry req = Ok (iso2, name_of iso2 entry, dm, mi))
  /\ (forall c, dict_get entry "country" = Some c ->
        truthy c = true -> is_dict c = false ->
        analyze_country iso2 entry req = Raise AttributeError).
Proof.
  split; [apply analyze_country_total|].
  intros c Hc Ht Hd. unfold analyze_country. rewrite Hc. simpl. rewrite Ht.
  destruct c; try discriminate; reflexivity.
Qed.

(** X3, X4 and X5 on a record with a null input, a blank input and a
    declaration made twice. *)
Lemma analyze_country_well_formed_witness :
  exists dm mi,
    analyze_country "ES" sample_entry ["tau"; "rho"; "u"; "k"]
    = Ok ("ES", PStr "Spain", dm, mi).
Proof.
  apply (proj1 (analyze_country_well_formed "ES" sample_entry ["tau"; "rho"; "u"; "k"])).
  split; [right; reflexivity|]. split; [right; reflexivity|].
  right. right. left. exists ["u"; "aging_pp"; "u"]. reflexivity.
Defined.

Lemma analyze_country_missing_inputs_witness :
  StronglySorted str_lt ["k"; "tau"; "u"]
  /\ forall k, k ∈ ["k"; "tau"; "u"] <->
       k ∈ ["tau"; "rho"; "u"; "k"]
       /\ input_lacking (or_empty_dict (dict_get sample_entry "inputs")) k.
Proof.
  apply (analyze_country_missing_inputs "ES" sample_entry ["tau"; "rho"; "u"; "k"]
           "ES" (PStr "Spain") ["aging_pp"; "u"]).
  reflexivity.
Defined.

Lemma analyze_country_declared_witness :
  StronglySorted str_lt ["aging_pp"; "u"]
  /\ forall x, x ∈ ["aging_pp"; "u"] <-> declared_member sample_entry x.
Proof.
  apply (analyze_country_declared "ES" sample_entry ["tau"; "rho"; "u"; "k"]
           "ES" (PStr "Spain") ["aging_pp"; "u"] ["k"; "tau"; "u"]).
  reflexivity.
Defined.

(** ** The age-coverage check, further *)

Section CoverageMore.
Context `{B : PyBuiltins}.

Lemma filter_nil_iff {A} (P : A -> Prop) `{forall x, Decision (P x)} (l : list A) :
  filter P l = [] <-> forall x, x ∈ l -> ~ P x.
Proof.
  split.
  - intros Hnil x Hx HP. eapply filter_nil_not_elem_of; eassumption.
  - intros Hall. induction l as [|x l IH]; [reflexivity|].
    rewrite filter_cons. destruct (decide (P x)) as [HP|_].
    + exfalso. apply (Hall x); [left|exact HP].
    + apply IH. intros y Hy. apply Hall. right. exact Hy.
Qed.

Lemma has_all_ages_complete blk req sex :
  (has_all_ages blk req sex).1 = true <-> complete (default ∅ (blk !! sex)) req.
Proof.
  unfold has_all_ages, complete. simpl.
  rewrite bool_decide_eq_true, filter_nil_iff.
  split; intros H a Ha; specialize (H a Ha); rewrite age_missing_lacks in *; exact H.
Qed.

Lemma issue_for_length blk req code letter :
  (length (issue_for blk req code letter) <= 1)%nat.
Proof.
  unfold issue_for. destruct (blk !! code) as [m|]; [|simpl; lia].
  destruct (filter (lacks m) req); simpl; lia.
Qed.

Lemma issue_for_key blk req code letter issue :
  letter ∈ ["T"; "M"; "F"] ->
  issue ∈ issue_for blk req code letter ->
  issue_key issue ∈ coverage_keys.
Proof.
  intros Hl Hi. unfold issue_for in Hi.
  repeat (apply elem_of_cons in Hl as [->|Hl]);
    [| | |apply elem_of_nil in Hl; contradiction];
    (destruct (blk !! code) as [m|];
     [destruct (filter (lacks m) req) as [|a l];
      [apply elem_of_nil in Hi; contradiction|]|]);
    apply list_elem_of_singleton in Hi as ->.
  - assert (issue_key ("faltan_edades_" ++ "T" ++ ":" ++ PyStr.join "|" (a :: l))
            = "faltan_edades_T") as -> by reflexivity.
    unfold coverage_keys. do 2 right. left.
  - assert (issue_key ("falta_sex_" ++ "T") = "falta_sex_T") as -> by reflexivity.
    unfold coverage_keys. right. left.
  - assert (issue_key ("faltan_edades_" ++ "M" ++ ":" ++ PyStr.join "|" (a :: l))
            = "faltan_edades_M") as -> by reflexivity.
    unfold coverage_keys. do 4 right. left.
  - assert (issue_key ("falta_sex_" ++ "M") = "falta_sex_M") as -> by reflexivity.
    unfold coverage_keys. do 3 right. left.
  - assert (issue_key ("faltan_edades_" ++ "F" ++ ":" ++ PyStr.join "|" (a :: l))
            = "faltan_edades_F") as -> by reflexivity.
    unfold coverage_keys. do 6 right. left.
  - assert (issue_key ("falta_sex_" ++ "F") = "falta_sex_F") as -> by reflexivity.
    unfold coverage_keys. do 5 right. left.
Qed.

(** X6: the check answers usable exactly when the region has a latest
    period at which no required age band is lacking in the combined series,
    or none is lacking in the male series and none in the female one.  A
    band is lacking only when absent, null or not-a-number: an infinity
    counts as a value. *)
Theorem usable_iff_complete (iso3 : string) (idx : oecd_index) :
  ((check_oecd_csv_for_iso3 iso3 idx).1.1 = true <->
   exists y, latest_period idx iso3 = Some y
             /\ (complete (series_of idx iso3 y "_T") (required_ages idx)
                 \/ (complete (series_of idx iso3 y "_M") (required_ages idx)
                     /\ complete (series_of idx iso3 y "_F") (required_ages idx))))
  /\ forall (m : gmap string (option spec_float)) a s,
       m !! a = Some (Some (S754_infinity s)) -> ~ lacks m a.
Proof.
  split.
  - rewrite check_unfold. unfold series_of.
    destruct (latest_period idx iso3) as [y|]; cbv zeta.
    + pose proof (has_all_ages_complete (block_of idx iso3 y) (required_ages idx) "_T") as HT.
      pose proof (has_all_ages_complete (block_of idx iso3 y) (required_ages idx) "_M") as HM.
      pose proof (has_all_ages_complete (block_of idx iso3 y) (required_ages idx) "_F") as HF.
      destruct (has_all_ages _ _ "_T").1.
      * simpl. split; [|reflexivity]. intros _. exists y. split; [reflexivity|].
        left. apply HT. reflexivity.
      * destruct (has_all_ages _ _ "_M").1, (has_all_ages _ _ "_F").1; simpl.
        -- split; [|reflexivity]. intros _. exists y. split; [reflexivity|].
           right. split; [apply HM|apply HF]; reflexivity.
        -- split; [discriminate|].
           intros (y' & Hy & [H|[H1 H2]]); injection Hy as <-;
             [apply HT in H|apply HF in H2]; discriminate.
        -- split; [discriminate|].
           intros (y' & Hy & [H|[H1 H2]]); injection Hy as <-;
             [apply HT in H|apply HM in H1]; discriminate.
        -- split; [discriminate|].
           intros (y' & Hy & [H|[H1 H2]]); injection Hy as <-;
             [apply HT in H|apply HM in H1]; discriminate.
    + simpl. split; [discriminate|]. intros (y & H & _). discriminate.
  - intros m a s Hm [H|[H|H]]; rewrite Hm in H; discriminate.
Qed.

Lemma check_issue_key (iso3 : string) (idx : oecd_index) (issue : string) :
  issue ∈ (check_oecd_csv_for_iso3 iso3 idx).2 ->
  issue_key issue ∈ coverage_keys.
Proof.
  rewrite check_unfold.
  destruct (latest_period idx iso3) as [y|]; cbv zeta.
  - destruct (has_all_ages _ _ "_T").1; [simpl; intros []%elem_of_nil|].
    destruct (_ && _); [simpl; intros []%elem_of_nil|].
    change ((false, Some y, ?l).2) with l.
    intros [H|[H|H]%elem_of_app]%elem_of_app;
      (eapply issue_for_key; [|exact H]).
    + left.
    + right. left.
    + do 2 right. left.
  - simpl. intros ->%list_elem_of_singleton.
    unfold coverage_keys. left.
Qed.

(** X7: the check returns at most three issues, and the key under which
    each is counted is one of seven fixed keys, whatever the names of the
    age bands are. *)
Theorem coverage_issue_keys (iso3 : string) (idx : oecd_index) :
  (length (check_oecd_csv_for_iso3 iso3 idx).2 <= 3)%nat
  /\ forall issue, issue ∈ (check_oecd_csv_for_iso3 iso3 idx).2 ->
                   issue_key issue ∈ coverage_keys.
Proof.
  split; [|apply check_issue_key].
  rewrite check_unfold.
  destruct (latest_period idx iso3) as [y|]; cbv zeta; [|simpl; lia].
  destruct (has_all_ages _ _ "_T").1; [simpl; lia|].
  destruct (_ && _); [simpl; lia|].
  change ((false, Some y, ?l).2) with l.
  rewrite !length_app.
  pose proof (issue_for_length (block_of idx iso3 y) (required_ages idx) "_T" "T").
  pose proof (issue_for_length (block_of idx iso3 y) (required_ages idx) "_M" "M").
  pose proof (issue_for_length (block_of idx iso3 y) (required_ages idx) "_F" "F").
  lia.
Qed.

(** X8: the period the check returns is one of the periods recorded for
    the region, and it returns none exactly when none is recorded. *)
Theorem resolved_period_recorded (iso3 : string) (idx : oecd_index) :
  match (check_oecd_csv_for_iso3 iso3 idx).1.2 with
  | Some y => y ∈ periods_of idx iso3
  | None => periods_of idx iso3 = []
  end.
Proof.
  rewrite check_unfold. unfold latest_period.
  destruct (periods_of idx iso3) as [|y0 ys]; [reflexivity|].
  cbv zeta.
  assert (Hin : latest_of y0 ys ∈ y0 :: ys).
  { destruct (decide (all_parse (y0 :: ys))) as [H|H].
    - apply latest_of_int, H.
    - apply latest_of_str, H. }
  destruct (has_all_ages _ _ "_T").1; [exact Hin|].
  destruct (_ && _); exact Hin.
Qed.

End CoverageMore.

(** X6 on an index whose only value at the latest period is an infinity:
    the region is usable. *)
Lemma usable_iff_complete_witness :
  (check_oecd_csv_for_iso3 (B := ascii_builtins) "ESP" infinite_index).1.1 = true.
Proof.
  apply (proj1 (usable_iff_complete (B := ascii_builtins) "ESP" infinite_index)).
  exists "2020". split; [reflexivity|]. left.
  intros a Ha. apply list_elem_of_singleton in Ha as ->.
  intros [H|[H|H]]; vm_compute in H; discriminate.
Defined.

(** X7 on an index with a not-a-number in the combined series and no other
    series: three issues, under three of the seven keys. *)
Lemma coverage_issue_keys_witness :
  (length (check_oecd_csv_for_iso3 (B := ascii_builtins) "ESP"
             (small_index (Some S754_nan) None)).2 <= 3)%nat
  /\ forall issue,
       issue ∈ (check_oecd_csv_for_iso3 (B := ascii_builtins) "ESP"
                  (small_index (Some S754_nan) None)).2 ->
       issue_key issue ∈ coverage_keys.
Proof.
  apply (coverage_issue_keys (B := ascii_builtins) "ESP"
           (small_index (Some S754_nan) None)).
Defined.

(** ** The index builder, further *)

Section LoaderMore.
Context `{B : PyBuiltins}.

Lemma is_empty_true (s : string) : PyStr.is_empty s = true <-> s = "".
Proof. destruct s; simpl; split; congruence. Qed.

Lemma not_kept_row (r : gmap string string) :
  PyStr.is_empty (cell r "REF_AREA") || PyStr.is_empty (cell r "TIME_PERIOD")
  || PyStr.is_empty (cell r "SEX") || PyStr.is_empty (cell r "AGE") = false
  <-> kept_row r.
Proof.
  unfold kept_row. rewrite !orb_false_iff.
  rewrite <- !(not_true_iff_false (PyStr.is_empty _)), !is_empty_true. tauto.
Qed.

Lemma load_row_skip (idx : oecd_index) (r : gmap string string) :
  ~ kept_row r -> load_row idx r = idx.
Proof.
  intros H. unfold load_row.
  destruct (_ || _) eqn:E; [reflexivity|]. apply not_kept_row in E. tauto.
Qed.

Lemma load_row_kept (idx : oecd_index) (r : gmap string string) :
  kept_row r ->
  years_by_iso3 (load_row idx r)
  = dd_add (cell r "REF_AREA") (cell r "TIME_PERIOD") (years_by_iso3 idx)
  /\ sexes_by_iso3 (load_row idx r)
     = dd_add (cell r "REF_AREA") (cell r "SEX") (sexes_by_iso3 idx)
  /\ by_iso3 (load_row idx r)
     = if decide (cell r "AGE" ∈ required_ages idx)
       then store (by_iso3 idx) (cell r "REF_AREA") (cell r "TIME_PERIOD")
              (cell r "SEX") (cell r "AGE") (stored_value r)
       else by_iso3 idx.
Proof.
  intros H. apply not_kept_row in H. unfold load_row. rewrite H.
  destruct (decide (cell r "AGE" ∈ required_ages idx)) as [Hin|Hin].
  - rewrite (bool_decide_eq_true_2 _ Hin). simpl. auto.
  - rewrite (bool_decide_eq_false_2 _ Hin). simpl. auto.
Qed.

Lemma set_add_elem (x y : string) (l : list string) :
  y ∈ set_add x l <-> y = x \/ y ∈ l.
Proof.
  unfold set_add. case_bool_decide as Hx.
  - split; [auto|]. intros [->|?]; assumption.
  - rewrite elem_of_app, list_elem_of_singleton. tauto.
Qed.

Lemma set_add_NoDup (x : string) (l : list string) : NoDup l -> NoDup (set_add x l).
Proof.
  intros Hl. unfold set_add. case_bool_decide as Hx; [exact Hl|].
  apply NoDup_app. split; [exact Hl|]. split; [|apply NoDup_singleton].
  intros y Hy ->%list_elem_of_singleton. contradiction.
Qed.

Lemma dd_add_lookup (k x k' : string) (d : gmap string (list string)) :
  default [] (dd_add k x d !! k')
  = if decide (k = k') then set_add x (default [] (d !! k))
    else default [] (d !! k').
Proof.
  unfold dd_add. destruct (decide (k = k')) as [->|N].
  - rewrite lookup_insert_eq. reflexivity.
  - rewrite lookup_insert_ne by exact N. reflexivity.
Qed.

Lemma value_in_store d (i y s a : string) (v : spec_float) (i' y' s' a' : string) :
  value_in (store d i y s a v) i' y' s' a'
  = if decide (i = i' /\ y = y' /\ s = s' /\ a = a') then Some (Some v)
    else value_in d i' y' s' a'.
Proof.
  unfold value_in, store.
  destruct (decide (i = i')) as [<-|Ni];
    [|rewrite lookup_insert_ne by exact Ni;
      rewrite decide_False by tauto; reflexivity].
  rewrite lookup_insert_eq. simpl.
  destruct (decide (y = y')) as [<-|Ny];
    [|rewrite lookup_insert_ne by exact Ny;
      rewrite decide_False by tauto; reflexivity].
  rewrite lookup_insert_eq. simpl.
  destruct (decide (s = s')) as [<-|Ns];
    [|rewrite lookup_insert_ne by exact Ns;
      rewrite decide_False by tauto; reflexivity].
  rewrite lookup_insert_eq. simpl.
  destruct (decide (a = a')) as [<-|Na].
  - rewrite lookup_insert_eq, decide_True by tauto. reflexivity.
  - rewrite lookup_insert_ne by exact Na. rewrite decide_False by tauto. reflexivity.
Qed.

(** What one row does to the value under any key. *)
Lemma load_row_value (idx : oecd_index) (r : gmap string string) (i y s a : string) :
  series_of (load_row idx r) i y s !! a
  = if decide (row_at (required_ages idx) i y s a r)
    then Some (Some (stored_value r))
    else series_of idx i y s !! a.
Proof.
  change (value_in (by_iso3 (load_row idx r)) i y s a
          = if decide (row_at (required_ages idx) i y s a r)
            then Some (Some (stored_value r))
            else value_in (by_iso3 idx) i y s a).
  destruct (decide (kept_row r)) as [Hk|Hk].
  - destruct (load_row_kept idx r Hk) as (_ & _ & ->).
    destruct (decide (cell r "AGE" ∈ required_ages idx)) as [Hin|Hin].
    + rewrite value_in_store. unfold row_at.
      destruct (decide (_ /\ _ /\ _ /\ _)) as [He|He].
      * rewrite decide_True by tauto. reflexivity.
      * rewrite decide_False by tauto. reflexivity.
    + unfold row_at. rewrite decide_False by tauto. reflexivity.
  - rewrite (load_row_skip idx r Hk). unfold row_at.
    rewrite decide_False by tauto. reflexivity.
Qed.

Lemma load_row_periods (idx : oecd_index) (r : gmap string string) (i y : string) :
  y ∈ periods_of (load_row idx r) i
  <-> y ∈ periods_of idx i
      \/ (kept_row r /\ cell r "REF_AREA" = i /\ cell r "TIME_PERIOD" = y).
Proof.
  unfold periods_of. destruct (decide (kept_row r)) as [Hk|Hk].
  - destruct (load_row_kept idx r Hk) as (-> & _ & _).
    rewrite dd_add_lookup. destruct (decide (cell r "REF_AREA" = i)) as [<-|N].
    + rewrite set_add_elem. split; [intros [->|?]; auto|].
      intros [?|(_ & _ & <-)]; auto.
    + split; [auto|]. intros [?|(_ & ? & _)]; [assumption|contradiction].
  - rewrite (load_row_skip idx r Hk). tauto.
Qed.

Lemma load_row_sexes (idx : oecd_index) (r : gmap string string) (i s : string) :
  s ∈ sexes_of (load_row idx r) i
  <-> s ∈ sexes_of idx i
      \/ (kept_row r /\ cell r "REF_AREA" = i /\ cell r "SEX" = s).
Proof.
  unfold sexes_of. destruct (decide (kept_row r)) as [Hk|Hk].
  - destruct (load_row_kept idx r Hk) as (_ & -> & _).
    rewrite dd_add_lookup. destruct (decide (cell r "REF_AREA" = i)) as [<-|N].
    + rewrite set_add_elem. split; [intros [->|?]; auto|].
      intros [?|(_ & _ & <-)]; auto.
    + split; [auto|]. intros [?|(_ & ? & _)]; [assumption|contradiction].
  - rewrite (load_row_skip idx r Hk). tauto.
Qed.

Lemma load_row_NoDup (idx : oecd_index) (r : gmap string string) (i : string) :
  NoDup (periods_of idx i) -> NoDup (periods_of (load_row idx r) i).
Proof.
  unfold periods_of. destruct (decide (kept_row r)) as [Hk|Hk].
  - destruct (load_row_kept idx r Hk) as (-> & _ & _).
    rewrite dd_add_lookup. destruct (decide _) as [<-|]; [|auto].
    apply set_add_NoDup.
  - rewrite (load_row_skip idx r Hk). auto.
Qed.

Lemma load_rows_periods (rs : list (gmap string string)) (idx : oecd_index) (i y : string) :
  y ∈ periods_of (fold_left load_row rs idx) i
  <-> y ∈ periods_of idx i
      \/ exists r, r ∈ rs /\ kept_row r
                   /\ cell r "REF_AREA" = i /\ cell r "TIME_PERIOD" = y.
Proof.
  revert idx. induction rs as [|r rs IH]; intros idx; simpl.
  - split; [auto|]. intros [?|(r & []%elem_of_nil & _)]. assumption.
  - rewrite IH, load_row_periods. split.
    + intros [[?|?]|(r' & ? & ?)]; [auto| |].
      * right. exists r. split; [left|assumption].
      * right. exists r'. split; [right|]; assumption.
    + intros [?|(r' & [->|?]%elem_of_cons & ?)]; [auto|auto|].
      right. exists r'. auto.
Qed.

Lemma load_rows_sexes (rs : list (gmap string string)) (idx : oecd_index) (i s : string) :
  s ∈ sexes_of (fold_left load_row rs idx) i
  <-> s ∈ sexes_of idx i
      \/ exists r, r ∈ rs /\ kept_row r
                   /\ cell r "REF_AREA" = i /\ cell r "SEX" = s.
Proof.
  revert idx. induction rs as [|r rs IH]; intros idx; simpl.
  - split; [auto|]. intros [?|(r & []%elem_of_nil & _)]. assumption.
  - rewrite IH, load_row_sexes. split.
    + intros [[?|?]|(r' & ? & ?)]; [auto| |].
      * right. exists r. split; [left|assumption].
      * right. exists r'. split; [right|]; assumption.
    + intros [?|(r' & [->|?]%elem_of_cons & ?)]; [auto|auto|].
      right. exists r'. auto.
Qed.

Lemma load_rows_NoDup (rs : list (gmap string string)) (idx : oecd_index) (i : string) :
  NoDup (periods_of idx i) -> NoDup (periods_of (fold_left load_row rs idx) i).
Proof.
  revert idx. induction rs as [|r rs IH]; intros idx H; simpl; [exact H|].
  apply IH, load_row_NoDup, H.
Qed.

Lemma load_rows_value (rs : list (gmap string string)) (idx : oecd_index)
    (i y s a : string) :
  series_of (fold_left load_row rs idx) i y s !! a
  = match last (filter (row_at (required_ages idx) i y s a) rs) with
    | Some r => Some (Some (stored_value r))
    | None => series_of idx i y s !! a
    end.
Proof.
  revert idx. induction rs as [|r rs IH]; intros idx; simpl; [reflexivity|].
  rewrite IH, load_row_required_ages, load_row_value, filter_cons.
  destruct (decide (row_at (required_ages idx) i y s a r)) as [Hr|Hr].
  - rewrite last_cons. destruct (last (filter _ rs)); reflexivity.
  - reflexivity.
Qed.

Lemma load_ok_index (t : csv_table) (req : list string) (idx : oecd_index) :
  load_oecd_population_csv t req = Ok idx ->
  idx = fold_left load_row (csv_rows t) (empty_index req).
Proof.
  destruct (load_ok_or_bad t req) as [[_ [m Hm]]|[_ Hok]]; congruence.
Qed.

(** X9: in a loaded index, the value under a key is the float of the last
    kept row of the table filed under that key, not-a-number when that
    row's text is no number, and nothing when the table has no such row or
    the age band is not required. *)
Theorem loaded_value_last_row (t : csv_table) (req : list string)
    (idx : oecd_index) (i y s a : string) :
  load_oecd_population_csv t req = Ok idx ->
  series_of idx i y s !! a
  = (fun r => Some (stored_value r))
      <$> last (filter (row_at req i y s a) (csv_rows t)).
Proof.
  intros ->%load_ok_index. rewrite load_rows_value. simpl.
  destruct (last _); reflexivity.
Qed.

(** X10: in a loaded index, the periods and the sex codes recorded for a
    region are exactly those of the kept rows of that region, whether their
    age band is required or not, and no period is recorded twice.  So the
    check answers [sin_filas_iso3] exactly for the regions without a kept
    row. *)
Theorem loaded_periods_of_kept_rows (t : csv_table) (req : list string)
    (idx : oecd_index) (i : string) :
  load_oecd_population_csv t req = Ok idx ->
  (forall y, y ∈ periods_of idx i <->
     exists r, r ∈ csv_rows t /\ kept_row r
               /\ cell r "REF_AREA" = i /\ cell r "TIME_PERIOD" = y)
  /\ (forall s, s ∈ sexes_of idx i <->
        exists r, r ∈ csv_rows t /\ kept_row r
                  /\ cell r "REF_AREA" = i /\ cell r "SEX" = s)
  /\ NoDup (periods_of idx i)
  /\ (check_oecd_csv_for_iso3 i idx = (false, None, ["sin_filas_iso3"]) <->
      ~ exists r, r ∈ csv_rows t /\ kept_row r /\ cell r "REF_AREA" = i).
Proof.
  intros ->%load_ok_index.
  assert (Hp : forall y, y ∈ periods_of (fold_left load_row (csv_rows t) (empty_index req)) i <->
     exists r, r ∈ csv_rows t /\ kept_row r
               /\ cell r "REF_AREA" = i /\ cell r "TIME_PERIOD" = y).
  { intros y. rewrite load_rows_periods. split; [|auto].
    intros [H|H]; [|exact H]. unfold periods_of, empty_index in H. simpl in H.
    rewrite lookup_empty in H. apply elem_of_nil in H. contradiction. }
  split; [exact Hp|]. split; [|split].
  - intros s. rewrite load_rows_sexes. split; [|auto].
    intros [H|H]; [|exact H]. unfold sexes_of, empty_index in H. simpl in H.
    rewrite lookup_empty in H. apply elem_of_nil in H. contradiction.
  - apply load_rows_NoDup. unfold periods_of, empty_index. simpl.
    rewrite lookup_empty. constructor.
  - rewrite check_unfold. unfold latest_period.
    destruct (periods_of _ i) as [|y0 ys] eqn:E.
    + split; [|reflexivity]. intros _ (r & Hr & Hk & Hi).
      assert (Hy : cell r "TIME_PERIOD" ∈ @nil string);
        [|apply elem_of_nil in Hy; contradiction].
      apply Hp. eauto.
    + split.
      * cbv zeta. destruct (has_all_ages _ _ "_T").1; [discriminate|].
        destruct (_ && _); discriminate.
      * intros Hno. exfalso. apply Hno.
        destruct (proj1 (Hp y0)) as (r & Hr & Hk & Hi & _); [left|]. eauto.
Qed.

(** X11: in a loaded index, a stored value always belongs to a period and
    to a sex code recorded for its region, its age band is a required one,
    and it is a float, never a null. *)
Theorem loaded_index_consistent (t : csv_table) (req : list string)
    (idx : oecd_index) (i y s a : string) (v : option spec_float) :
  load_oecd_population_csv t req = Ok idx ->
  series_of idx i y s !! a = Some v ->
  y ∈ periods_of idx i /\ s ∈ sexes_of idx i /\ a ∈ req
  /\ required_ages idx = req /\ exists f, v = Some f.
Proof.
  intros ->%load_ok_index. rewrite load_rows_value. simpl.
  destruct (last _) as [r|] eqn:E.
  - intros [= <-].
    apply last_Some in E as [l' E].
    assert (Hr : r ∈ filter (row_at req i y s a) (csv_rows t))
      by (rewrite E; apply elem_of_app; right; left).
    apply list_elem_of_filter in Hr as [(Hk & Hreq & <- & <- & <- & <-) Hin].
    split; [apply load_rows_periods; right; eauto|].
    split; [apply load_rows_sexes; right; eauto|].
    split; [exact Hreq|]. split; [apply load_rows_required_ages|]. eauto.
  - unfold series_of, block_of. simpl. rewrite lookup_empty. simpl.
    rewrite lookup_empty. simpl. rewrite lookup_empty. simpl.
    rewrite lookup_empty. discriminate.
Qed.

End LoaderMore.

(** X9, X10 and X11 on a table with a blank row, a row of a band that is not
    required and two rows for one key: the later row wins. *)
Lemma loaded_value_last_row_witness :
  exists idx,
    load_oecd_population_csv (B := ascii_builtins) mixed_table ["Y_LE4"] = Ok idx
    /\ series_of idx "ESP" "2020" "_T" !! "Y_LE4"
       = Some (Some (S754_finite false 6755399441055744 (-49)))
    /\ series_of idx "FRA" "2021" "_M" !! "_T" = None.
Proof.
  eexists. split; [reflexivity|]. split.
  - rewrite (loaded_value_last_row (B := ascii_builtins) mixed_table ["Y_LE4"] _
               "ESP" "2020" "_T" "Y_LE4" eq_refl).
    vm_compute. reflexivity.
  - rewrite (loaded_value_last_row (B := ascii_builtins) mixed_table ["Y_LE4"] _
               "FRA" "2021" "_M" "_T" eq_refl).
    vm_compute. reflexivity.
Defined.

Lemma loaded_periods_of_kept_rows_witness :
  NoDup (periods_of (fold_left (load_row (B := ascii_builtins))
                       (csv_rows mixed_table) (empty_index ["Y_LE4"])) "FRA").
Proof.
  apply (loaded_periods_of_kept_rows (B := ascii_builtins) mixed_table ["Y_LE4"]
           _ "FRA" eq_refl).
Defined.

Lemma loaded_index_consistent_witness :
  "2020" ∈ periods_of (fold_left (load_row (B := ascii_builtins))
                         (csv_rows mixed_table) (empty_index ["Y_LE4"])) "ESP"
  /\ "_T" ∈ sexes_of (fold_left (load_row (B := ascii_builtins))
                        (csv_rows mixed_table) (empty_index ["Y_LE4"])) "ESP"
  /\ "Y_LE4" ∈ ["Y_LE4"]
  /\ required_ages (fold_left (load_row (B := ascii_builtins))
                      (csv_rows mixed_table) (empty_index ["Y_LE4"])) = ["Y_LE4"]
  /\ exists f, Some (S754_finite false 6755399441055744 (-49)) = Some f.
Proof.
  apply (loaded_index_consistent (B := ascii_builtins) mixed_table ["Y_LE4"]
           _ "ESP" "2020" "_T" "Y_LE4" _ eq_refl).
  vm_compute. reflexivity.
Defined.

(** ** The run, further *)

Section RunMore.
Context `{B : PyBuiltins}.

Lemma analyze_country_sorted iso2 entry req i nm dm mi :
  analyze_country iso2 entry req = Ok (i, nm, dm, mi) ->
  i = iso2 /\ StronglySorted str_lt dm /\ StronglySorted str_lt mi.
Proof.
  unfold analyze_country. intros H.
  apply bind_ok in H as (n & _ & H). apply bind_ok in H as (m & _ & H).
  apply bind_ok in H as (d & _ & H). injection H as <- _ <- <-.
  split; [reflexivity|]. split; apply sorted_set_sorted.
Qed.

Lemma csv_check_inactive iso2 entry :
  csv_check None iso2 entry = Ok (None, None, []).
Proof. reflexivity. Qed.

Lemma has_issues_flag (dm mi iss : list string) :
  negb (bool_decide (dm = [])) || negb (bool_decide (mi = []))
  || negb (bool_decide (iss = []))
  = negb (length dm + length mi + length iss =? 0)%nat.
Proof. destruct dm, mi, iss; reflexivity. Qed.

(** One turn of the loop: a non-mapping is counted and skipped; a mapping
    gives one row and the state [step_with] of it. *)
Lemma loop_body_step req show idx st item st' :
  loop_body req show idx st item = Ok st' ->
  match item.2 with
  | PDict entry =>
      exists r, st' = step_with show st r /\ r_iso2 r = normalised item
                /\ row_facts idx r
  | _ => st' = bump_total st
  end.
Proof.
  unfold loop_body. intros H.
  destruct item.2 eqn:Ev; try (injection H as <-; reflexivity).
  apply bind_ok in H as ([[[i nm] dm] mi] & Ha & H).
  apply analyze_country_sorted in Ha as (-> & Hdm & Hmi).
  apply bind_ok in H as ([[i3 yr] iss] & Hc & H).
  injection H as <-.
  exists {| r_iso2 := PyStr.upper (PyStr.strip item.1); r_name := nm;
            r_declared := dm; r_inputs := mi; r_iso3 := i3; r_year := yr;
            r_issues := iss |}.
  split; [|split; [reflexivity|]].
  - unfold step_with, issue_count. simpl. rewrite has_issues_flag.
    destruct (_ =? 0)%nat; reflexivity.
  - split; [exact Hdm|]. split; [exact Hmi|]. simpl.
    intros ->. simpl in Hc. injection Hc as <- <- <-. auto.
Qed.

Lemma loop_inv_init show idx : loop_inv show idx 0 0 init_state.
Proof. split; simpl; auto. Qed.

Lemma loop_body_inv req show idx n m st item st' :
  loop_body req show idx st item = Ok st' ->
  loop_inv show idx n m st ->
  loop_inv show idx (S n) (m + if is_dict item.2 then 1 else 0) st'.
Proof.
  intros H [Ht Hw Hf Hh Hs Hb]. apply loop_body_step in H.
  destruct item.2; try (subst st'; split; simpl;
    rewrite ?Nat.add_0_r; auto; lia).
  destruct H as (r & -> & _ & Hr). unfold step_with.
  assert (Hfr : Forall (row_facts idx) (rows st ++ [r])).
  { apply Forall_app. split; [exact Hf|]. apply Forall_singleton. exact Hr. }
  destruct (issue_count r =? 0)%nat eqn:E.
  - apply Nat.eqb_eq in E. destruct show; simpl.
    + split; simpl.
      * congruence.
      * rewrite filter_app, length_app, filter_cons, filter_nil.
        rewrite decide_False by (unfold has_issues; lia). simpl. lia.
      * exact Hfr.
      * discriminate.
      * intros _. rewrite length_app, Hs by reflexivity. reflexivity.
      * rewrite length_app. simpl. lia.
    + split; simpl.
      * congruence.
      * exact Hw.
      * exact Hf.
      * exact Hh.
      * discriminate.
      * lia.
  - apply Nat.eqb_neq in E. simpl. split; simpl.
    + congruence.
    + rewrite filter_app, length_app, filter_cons, filter_nil.
      rewrite decide_True by exact E. simpl. lia.
    + exact Hfr.
    + intros Hsh. apply Forall_app. split; [auto|]. apply Forall_singleton. exact E.
    + intros Hsh. rewrite length_app, (Hs Hsh). reflexivity.
    + rewrite length_app. simpl. lia.
Qed.

Lemma run_loop_inv req show idx items n m st st' :
  run_loop req show idx items st = Ok st' ->
  loop_inv show idx n m st ->
  loop_inv show idx (n + length items) (m + length (mappings items)) st'.
Proof.
  revert n m st. induction items as [|item items IH]; intros n m st; simpl.
  - intros [= <-] H. rewrite !Nat.add_0_r. exact H.
  - intros (st1 & H1 & H2)%bind_ok Hinv.
    pose proof (IH _ _ _ H2 (loop_body_inv _ _ _ _ _ _ _ _ H1 Hinv)) as Hfin.
    unfold mappings. rewrite filter_cons. fold (mappings items).
    destruct (is_dict item.2) eqn:Ed.
    + rewrite decide_True by reflexivity. simpl length.
      replace (n + S (length items))%nat with (S n + length items)%nat by lia.
      replace (m + S (length (mappings items)))%nat
        with (m + 1 + length (mappings items))%nat by lia.
      exact Hfin.
    + rewrite decide_False by discriminate.
      replace (n + S (length items))%nat with (S n + length items)%nat by lia.
      rewrite Nat.add_0_r in Hfin. exact Hfin.
Qed.

(** What a returning run has done, in terms of the final state of its loop. *)
Lemma main_ok_state (a : args) (rep : report) :
  main a = Ok rep ->
  exists items idx st,
    pyval_get (json_data a) "countries" = Ok (Some (PDict items))
    /\ load_index a (parse_list (required_ages_arg a)) = Ok idx
    /\ run_loop (parse_list (required_inputs_arg a)) (show_ok a) idx items init_state
       = Ok st
    /\ rep_total rep = total st
    /\ rep_with_issues rep = with_issues st
    /\ rep_csv_active rep = bool_decide (is_Some idx)
    /\ rep_countries rep
       = filter (fun r => printed (show_ok a) r = true) (sort_rows (rows st))
    /\ (rep_tables rep = None \/
        rep_tables rep
        = Some (most_common (freq_declared st), most_common (freq_inputs st),
                if bool_decide (is_Some idx) then Some (most_common (freq_csv st))
                else None)).
Proof.
  unfold main. intros H.
  apply bind_ok in H as (countries & Hc & H).
  destruct countries as [[| | | | | |items]|]; try discriminate.
  apply bind_ok in H as (idx & Hi & H).
  apply bind_ok in H as (st & Hrun & H).
  exists items, idx, st.
  destruct (sort_rows (rows st)) as [|r0 rs] eqn:Es; injection H as <-; simpl;
    repeat (split; [assumption || reflexivity|]); auto.
Qed.

Lemma printed_iff (show : bool) (r : row) :
  printed show r = true <-> has_issues r \/ show = true.
Proof.
  unfold printed, has_issues, issue_count.
  destruct (r_declared r), (r_inputs r), (r_issues r), show; simpl;
    split; auto; try lia; intros [H|H]; congruence || lia.
Qed.

End RunMore.

Section RunTheorems.
Context `{B : PyBuiltins}.

Lemma length_filter_sorted (P : row -> Prop) `{forall r, Decision (P r)} (rs : list row) :
  length (filter P (sort_rows rs)) = length (filter P rs).
Proof.
  apply Permutation_length. unfold sort_rows.
  rewrite (stable_sort_perm row_key_le rs). reflexivity.
Qed.

Lemma filter_implied {A} (P Q : A -> Prop) `{forall x, Decision (P x)}
    `{forall x, Decision (Q x)} (l : list A) :
  (forall x, Q x -> P x) -> filter Q (filter P l) = filter Q l.
Proof.
  intros Himp. induction l as [|x l IH]; [reflexivity|].
  rewrite (filter_cons P). destruct (decide (P x)) as [HP|HP].
  - rewrite !filter_cons. destruct (decide (Q x)); rewrite IH; reflexivity.
  - rewrite filter_cons. destruct (decide (Q x)) as [HQ|_]; [|exact IH].
    exfalso. auto.
Qed.

Lemma filter_all {A} (P : A -> Prop) `{forall x, Decision (P x)} (l : list A) :
  (forall x, P x) -> filter P l = l.
Proof.
  intros HP. induction l as [|x l IH]; [reflexivity|].
  rewrite filter_cons, decide_True by apply HP. rewrite IH. reflexivity.
Qed.

(** X12: in the report, the number of countries analysed is the number of
    entries of the bundle, mappings or not; the number of countries with
    issues is the number of blocks that list an issue, and it is at most the
    number of mapping entries.  Without [--show-ok] every block lists an
    issue; with it there is one block per mapping entry. *)
Theorem report_counts (a : args) (rep : report) :
  main a = Ok rep ->
  exists items,
    pyval_get (json_data a) "countries" = Ok (Some (PDict items))
    /\ rep_total rep = length items
    /\ rep_with_issues rep = length (filter has_issues (rep_countries rep))
    /\ (rep_with_issues rep <= length (mappings items) <= rep_total rep)%nat
    /\ (show_ok a = false -> length (rep_countries rep) = rep_with_issues rep)
    /\ (show_ok a = true -> length (rep_countries rep) = length (mappings items)).
Proof.
  intros (items & idx & st & Hc & _ & Hrun & Ht & Hw & _ & Hrows & _)%main_ok_state.
  destruct (run_loop_inv _ _ _ _ _ _ _ _ Hrun (loop_inv_init (show_ok a) idx))
    as [It Iw _ _ Is Ib].
  simpl in It, Is, Ib.
  assert (Hlen : length (rep_countries rep)
                 = length (filter (fun r => printed (show_ok a) r = true) (rows st))).
  { rewrite Hrows. apply length_filter_sorted. }
  exists items. split; [exact Hc|]. split; [congruence|].
  assert (Hwi : rep_with_issues rep = length (filter has_issues (rep_countries rep))).
  { rewrite Hw, Iw, Hrows, filter_implied.
    - symmetry. apply length_filter_sorted.
    - intros r Hr. apply printed_iff. auto. }
  split; [exact Hwi|]. split; [|split].
  - rewrite Ht, It, Hw, Iw. split.
    + etransitivity; [apply length_filter|exact Ib].
    + apply length_filter.
  - intros Hs. rewrite Hlen, Hw, Iw. f_equal. apply list_filter_iff.
    intros r. rewrite printed_iff, Hs. split; [intros [?|?]; [assumption|discriminate]|auto].
  - intros Hs. rewrite Hlen, filter_all; [auto|].
    intros r. apply printed_iff. auto.
Qed.

(** X13: while the demographic check is switched off, the report has no
    third table and no block carries a 3-letter code, a period or a
    demographic issue; the table and the list of required ages are never
    looked at: two runs that differ only in them give the same outcome. *)
Theorem inactive_check (a : args) :
  csv_inactive a ->
  (forall rep, main a = Ok rep ->
     rep_csv_active rep = false
     /\ Forall (fun r => r_iso3 r = None /\ r_year r = None /\ r_issues r = [])
               (rep_countries rep)
     /\ forall t1 t2 t3, rep_tables rep = Some (t1, t2, t3) -> t3 = None)
  /\ (forall a', json_data a' = json_data a ->
        required_inputs_arg a' = required_inputs_arg a ->
        show_ok a' = show_ok a -> csv_inactive a' -> main a' = main a).
Proof.
  intros Ha.
  assert (Hoff : forall x req, csv_inactive x -> load_index x req = Ok None).
  { intros x req [H|H]; unfold load_index; rewrite H; reflexivity. }
  split.
  - intros rep (items & idx & st & _ & Hi & Hrun & _ & _ & Hact & Hrows & Htab)%main_ok_state.
    rewrite (Hoff _ _ Ha) in Hi. injection Hi as <-.
    destruct (run_loop_inv _ _ _ _ _ _ _ _ Hrun (loop_inv_init (show_ok a) None))
      as [_ _ If _ _ _].
    split; [exact Hact|]. split.
    + rewrite Hrows. apply Forall_forall. intros r Hr.
      apply list_elem_of_filter in Hr as [_ Hr].
      unfold sort_rows in Hr. rewrite stable_sort_perm in Hr.
      rewrite Forall_forall in If. apply (If r Hr). reflexivity.
    + intros t1 t2 t3 H. destruct Htab as [Htab|Htab]; rewrite Htab in H;
        [discriminate|]. injection H as _ _ <-. reflexivity.
  - intros a' Hj Hr Hs Ha'. unfold main.
    rewrite Hj, Hr, Hs, (Hoff a _ Ha), (Hoff a' _ Ha'). reflexivity.
Qed.

(** X14: for a loaded bundle whose [countries] is a mapping, with the
    demographic check switched on and its table read, the run ends with a
    [SystemExit] exactly when the header of the table is unusable.  The exit
    then names the path and carries the loader's message, whatever the
    countries hold: none is analysed first. *)
Theorem run_exits (a : args) (items : list (string * pyval)) (path : string) :
  pyval_get (json_data a) "countries" = Ok (Some (PDict items)) ->
  oecd_csv a = Some path -> path <> "" ->
  (bad_header (csv_file a) ->
   exists m,
     load_oecd_population_csv (csv_file a) (parse_list (required_ages_arg a))
     = Raise (ValueError m)
     /\ main a = Raise (SystemExit ("Error cargando CSV OCDE '" ++ path
                                    ++ "': " ++ m)))
  /\ (forall msg, main a = Raise (SystemExit msg) -> bad_header (csv_file a)).
Proof.
  intros Hc Hp Hne.
  destruct (load_ok_or_bad (csv_file a) (parse_list (required_ages_arg a)))
    as [[Hbad [m Hm]]|[Hgood Hok]].
  - split; [|intros _ _; exact Hbad].
    intros _. exists m. split; [exact Hm|]. unfold main. rewrite Hc. simpl.
    unfold load_index. rewrite Hp, (is_empty_false _ Hne), Hm. reflexivity.
  - split; [intros Hbad; contradiction|].
    intros msg H. exfalso. unfold main in H. rewrite Hc in H. simpl in H.
    apply bind_raise in H as [H|(idx & _ & H)].
    + unfold load_index in H.
      rewrite Hp, (is_empty_false _ Hne), Hok in H. discriminate.
    + apply bind_raise in H as [H|(st & _ & H)]; [|discriminate].
      apply run_loop_raise in H. destruct H as [H|H]; discriminate.
Qed.

Lemma csv_check_total idx iso2 entry :
  mapping_or_false (dict_get entry "country") ->
  (forall v, embedded_iso3 entry = Some v -> truthy v = true -> exists s, v = PStr s) ->
  exists c, csv_check idx iso2 entry = Ok c.
Proof.
  intros Hc He. unfold csv_check. destruct idx as [idx|]; [|eauto].
  unfold resolve_iso3.
  assert (Hget : exists c, or_empty_dict (dict_get entry "country") = PDict c
                           /\ forall v, dict_get c "iso3" = Some v -> truthy v = true ->
                                        exists s, v = PStr s).
  { unfold or_empty_dict, embedded_iso3 in *.
    destruct (dict_get entry "country") as [v|]; [|exists []; split; [reflexivity|discriminate]].
    destruct (truthy v) eqn:Et.
    - destruct Hc as [Hc|Hc]; [congruence|]. destruct v; try discriminate. eauto.
    - exists []. split; [reflexivity|discriminate]. }
  destruct Hget as (c & -> & Hv). cbn [pyval_get bind].
  set (r := match dict_get c "iso3" with
            | Some v => if truthy v then Some v
                        else PStr <$> dict_get ISO2_TO_ISO3 iso2
            | None => PStr <$> dict_get ISO2_TO_ISO3 iso2
            end).
  assert (Hr : forall v, r = Some v -> exists s, v = PStr s).
  { intros v. unfold r. destruct (dict_get c "iso3") as [w|].
    - destruct (truthy w) eqn:Et.
      + intros [= <-]. apply Hv; auto.
      + destruct (dict_get ISO2_TO_ISO3 iso2); [intros [= <-]; eauto|discriminate].
    - destruct (dict_get ISO2_TO_ISO3 iso2); [intros [= <-]; eauto|discriminate]. }
  clearbody r. destruct r as [v|]; [|eauto].
  destruct (Hr v eq_refl) as [s ->]. unfold check_oecd_csv. cbn [bind].
  destruct (check_oecd_csv_for_iso3 s idx) as [[ok yr] iss]. eauto.
Qed.

Lemma loop_body_total req show idx st item :
  accepted_item item -> exists st', loop_body req show idx st item = Ok st'.
Proof.
  intros Hacc. unfold loop_body. destruct item.2 eqn:Ev; eauto.
  destruct (Hacc d Ev) as [Hwf Hiso].
  destruct (analyze_country_total (PyStr.upper (PyStr.strip item.1)) d req Hwf)
    as (dm & mi & ->). simpl.
  destruct (csv_check_total idx (PyStr.upper (PyStr.strip item.1)) d (proj1 Hwf) Hiso)
    as [[[i3 yr] iss] ->]. simpl. eauto.
Qed.

Lemma run_loop_total req show idx items st :
  Forall accepted_item items -> exists st', run_loop req show idx items st = Ok st'.
Proof.
  intros Hall. revert st. induction Hall as [|item items Hi _ IH]; intros st; simpl;
    [eauto|].
  destruct (loop_body_total req show idx st item Hi) as [st1 ->]. simpl. apply IH.
Qed.

(** X15: a run over a bundle whose entries are of the accepted shape, with
    the demographic check switched off or a table with a usable header,
    never raises, whatever data is missing: it returns a report. *)
Theorem accepted_bundle_runs (a : args) (items : list (string * pyval)) :
  pyval_get (json_data a) "countries" = Ok (Some (PDict items)) ->
  Forall accepted_item items ->
  csv_inactive a \/ ~ bad_header (csv_file a) ->
  exists rep, main a = Ok rep.
Proof.
  intros Hc Hall Hcsv. unfold main. rewrite Hc. simpl.
  assert (Hidx : exists idx,
             load_index a (parse_list (required_ages_arg a)) = Ok idx).
  { unfold load_index. destruct Hcsv as [[H|H]|H]; try (rewrite H; eauto).
    destruct (oecd_csv a) as [path|]; [|eauto].
    destruct (PyStr.is_empty path); [eauto|].
    destruct (load_ok_or_bad (csv_file a) (parse_list (required_ages_arg a)))
      as [[Hb _]|[_ ->]]; [contradiction|eauto]. }
  destruct Hidx as [idx ->]. simpl.
  destruct (run_loop_total (parse_list (required_inputs_arg a)) (show_ok a) idx
              items init_state Hall) as [st ->]. simpl. eauto.
Qed.

Lemma occurrences_app (l1 l2 : list string) (k : string) :
  occurrences (l1 ++ l2) k = (occurrences l1 k + occurrences l2 k)%nat.
Proof. unfold occurrences. rewrite filter_app, length_app. reflexivity. Qed.

Lemma occurrences_NoDup (l : list string) (k : string) :
  NoDup l -> occurrences l k = if decide (k ∈ l) then 1%nat else 0%nat.
Proof.
  induction 1 as [|x l Hx Hl IH]; [reflexivity|].
  change (x :: l) with ([x] ++ l)%list at 1. rewrite occurrences_app, IH.
  unfold occurrences. rewrite filter_cons, filter_nil.
  destruct (decide (x = k)) as [->|N].
  - rewrite (decide_False (P := k ∈ l)) by exact Hx.
    rewrite decide_True by left. reflexivity.
  - destruct (decide (k ∈ l)) as [Hk|Hk].
    + rewrite decide_True by (right; exact Hk). reflexivity.
    + rewrite decide_False; [reflexivity|].
      intros [->|?]%elem_of_cons; [congruence|contradiction].
Qed.

Lemma occurrences_concat {A} (f : A -> list string) (rs : list A) (k : string) :
  Forall (fun r => NoDup (f r)) rs ->
  occurrences (concat (map f rs)) k = length (filter (fun r => k ∈ f r) rs).
Proof.
  induction 1 as [|r rs Hr _ IH]; [reflexivity|].
  simpl. rewrite occurrences_app, IH, (occurrences_NoDup _ _ Hr), filter_cons.
  destruct (decide (k ∈ f r)); reflexivity.
Qed.

(** X16: each line of the first two frequency tables gives a name and the
    number of country blocks of the report that list it, once per country
    however often the record repeats it; a name listed by no block has no
    line. *)
Theorem table_counts_blocks (a : args) (rep : report)
    (t1 t2 : list (string * nat)) (t3 : option (list (string * nat))) :
  main a = Ok rep ->
  rep_tables rep = Some (t1, t2, t3) ->
  (forall k n, (k, n) ∈ t1 <->
     n = length (filter (fun r => k ∈ r_declared r) (rep_countries rep))
     /\ (0 < n)%nat)
  /\ (forall k n, (k, n) ∈ t2 <->
        n = length (filter (fun r => k ∈ r_inputs r) (rep_countries rep))
        /\ (0 < n)%nat).
Proof.
  intros (items & idx & st & _ & _ & Hrun & _ & _ & _ & Hrows & Htab)%main_ok_state Ht.
  destruct Htab as [Htab|Htab]; rewrite Htab in Ht; [discriminate|].
  injection Ht as <- <- _.
  destruct (run_loop_inv _ _ _ _ _ _ _ _ Hrun (loop_inv_init (show_ok a) idx))
    as [_ _ If _ _ _].
  destruct (run_loop_tallied _ _ _ _ _ _ Hrun) as [(Hd & Hi & _) _];
    [repeat split|].
  rewrite Hd, Hi, Hrows.
  split; intros k n.
  - rewrite (proj2 (most_common_table (declared_stream (rows st))) k n).
    unfold declared_stream. rewrite occurrences_concat.
    + rewrite filter_implied, length_filter_sorted; [reflexivity|].
      intros r Hr. apply printed_iff. left. unfold has_issues, issue_count.
      destruct (r_declared r); [apply elem_of_nil in Hr; contradiction|simpl; lia].
    + eapply Forall_impl; [exact If|]. intros r (H & _). apply str_lt_sorted_NoDup, H.
  - rewrite (proj2 (most_common_table (inputs_stream (rows st))) k n).
    unfold inputs_stream. rewrite occurrences_concat.
    + rewrite filter_implied, length_filter_sorted; [reflexivity|].
      intros r Hr. apply printed_iff. left. unfold has_issues, issue_count.
      destruct (r_inputs r); [apply elem_of_nil in Hr; contradiction|simpl; lia].
    + eapply Forall_impl; [exact If|]. intros r (_ & H & _). apply str_lt_sorted_NoDup, H.
Qed.

End RunTheorems.

(** X12 on the example bundle: four entries, three of them mappings, two
    blocks, both with issues. *)
Lemma report_counts_witness :
  exists rep,
    main (B := ascii_builtins) (example_args "rho,tau") = Ok rep
    /\ exists items,
         pyval_get (json_data (example_args "rho,tau")) "countries"
         = Ok (Some (PDict items))
         /\ rep_total rep = length items
         /\ rep_with_issues rep = length (filter has_issues (rep_countries rep))
         /\ (rep_with_issues rep <= length (mappings items) <= rep_total rep)%nat
         /\ (show_ok (example_args "rho,tau") = false ->
             length (rep_countries rep) = rep_with_issues rep)
         /\ (show_ok (example_args "rho,tau") = true ->
             length (rep_countries rep) = length (mappings items)).
Proof.
  eexists. split; [vm_compute; reflexivity|].
  apply (report_counts (B := ascii_builtins) (example_args "rho,tau")).
  vm_compute. reflexivity.
Defined.

(** X13 on the example bundle, which names no table. *)
Lemma inactive_check_witness :
  exists rep,
    main (B := ascii_builtins) (example_args "rho,tau") = Ok rep
    /\ rep_csv_active rep = false
    /\ Forall (fun r => r_iso3 r = None /\ r_year r = None /\ r_issues r = [])
              (rep_countries rep)
    /\ forall t1 t2 t3, rep_tables rep = Some (t1, t2, t3) -> t3 = None.
Proof.
  eexists. split; [vm_compute; reflexivity|].
  apply (proj1 (inactive_check (B := ascii_builtins) (example_args "rho,tau")
                  (or_introl eq_refl))).
  vm_compute. reflexivity.
Defined.

(** X14 on the example bundle with a table that has no header. *)
Lemma run_exits_witness :
  exists m,
    load_oecd_population_csv (B := ascii_builtins) no_table ["Y_LE4"]
    = Raise (ValueError m)
    /\ main (B := ascii_builtins) (example_args_csv "pop.csv" no_table)
       = Raise (SystemExit ("Error cargando CSV OCDE '" ++ "pop.csv" ++ "': " ++ m)).
Proof.
  destruct (run_exits (B := ascii_builtins) (example_args_csv "pop.csv" no_table)
              example_countries "pop.csv" eq_refl eq_refl ltac:(discriminate))
    as [H _].
  apply H. left. reflexivity.
Defined.

(** X15 on the example bundle with a table whose header is usable. *)
Lemma accepted_bundle_runs_witness :
  exists rep,
    main (B := ascii_builtins) (example_args_csv "pop.csv" bad_value_table) = Ok rep.
Proof.
  apply (accepted_bundle_runs (B := ascii_builtins)
           (example_args_csv "pop.csv" bad_value_table) example_countries).
  - reflexivity.
  - unfold example_countries.
    repeat (apply Forall_cons; split;
            [intros entry Heq;
             first [discriminate
                   |injection Heq as <-; split;
                    [split; [|split]; simpl;
                     first [exact I | right; reflexivity
                           | right; left; eexists; reflexivity]
                    |intros v Hv; discriminate]]|]).
    apply Forall_nil_2.
  - right. intros [H|[H|(fs & c & H & Hc & Hn)]]; try discriminate.
    injection H as <-. apply Hn. unfold required_cols in Hc.
    repeat (apply elem_of_cons in Hc as [->|Hc]; [repeat constructor|]).
    apply elem_of_nil in Hc. contradiction.
Defined.

(** X16 on the example bundle: "tau" is listed by two blocks, "rho" by one. *)
Lemma table_counts_blocks_witness :
  exists rep,
    main (B := ascii_builtins) (example_args "rho,tau") = Ok rep
    /\ forall k n,
         (k, n) ∈ [("tau", 2%nat); ("rho", 1%nat)] <->
         n = length (filter (fun r => k ∈ r_inputs r) (rep_countries rep))
         /\ (0 < n)%nat.
Proof.
  eexists. split; [vm_compute; reflexivity|].
  eapply proj2, (table_counts_blocks (B := ascii_builtins) (example_args "rho,tau")).
  - vm_compute. reflexivity.
  - reflexivity.
Defined.

(** * The merge script *)

(** ** Region codes *)

Section Codes.

Lemma upper_char_idem (c : ascii) :
  PyStr.upper_char (PyStr.upper_char c) = PyStr.upper_char c.
Proof. destruct c as [[] [] [] [] [] [] [] []]; reflexivity. Qed.

Lemma is_space_upper_char (c : ascii) :
  PyStr.is_space (PyStr.upper_char c) = PyStr.is_space c.
Proof. destruct c as [[] [] [] [] [] [] [] []]; reflexivity. Qed.

Lemma upper_idem (s : string) : PyStr.upper (PyStr.upper s) = PyStr.upper s.
Proof.
  induction s as [|c s IH]; simpl; [reflexivity|].
  rewrite upper_char_idem, IH. reflexivity.
Qed.

Lemma upper_empty (s : string) : PyStr.upper s = "" <-> s = "".
Proof. destruct s; simpl; split; congruence. Qed.

Lemma lstrip_upper (s : string) :
  PyStr.lstrip (PyStr.upper s) = PyStr.upper (PyStr.lstrip s).
Proof.
  induction s as [|c s IH]; simpl; [reflexivity|].
  rewrite is_space_upper_char. destruct (PyStr.is_space c); [exact IH|reflexivity].
Qed.

Lemma rstrip_upper (s : string) :
  PyStr.rstrip (PyStr.upper s) = PyStr.upper (PyStr.rstrip s).
Proof.
  induction s as [|c s IH]; simpl; [reflexivity|].
  rewrite IH, is_space_upper_char.
  destruct (PyStr.rstrip s); simpl; [destruct (PyStr.is_space c)|]; reflexivity.
Qed.

Lemma strip_upper (s : string) :
  PyStr.strip (PyStr.upper s) = PyStr.upper (PyStr.strip s).
Proof. unfold PyStr.strip. rewrite lstrip_upper, rstrip_upper. reflexivity. Qed.

Lemma normal_upper_strip (s : string) :
  PyStr.strip s <> "" -> normal_code (PyStr.upper (PyStr.strip s)).
Proof.
  intros H. split; [|split].
  - rewrite upper_empty. exact H.
  - rewrite strip_upper, strip_idem. reflexivity.
  - apply upper_idem.
Qed.

Lemma extract_iso2_ok (obj : pyval) (filename r : string) :
  Merge.extract_iso2 obj filename = Ok r ->
  exists d c s,
    obj = PDict d /\ dict_get d "country" = Some (PDict c)
    /\ dict_get c "iso2" = Some (PStr s)
    /\ PyStr.strip s <> "" /\ r = PyStr.upper (PyStr.strip s).
Proof.
  unfold Merge.extract_iso2.
  destruct obj as [| | | | | |d]; try discriminate.
  destruct (dict_get d "country") as [[| | | | | |c]|] eqn:Ec; try discriminate.
  destruct (dict_get c "iso2") as [[| | | |s| |]|] eqn:Es; try discriminate.
  destruct (PyStr.is_empty (PyStr.strip s)) eqn:E; [discriminate|].
  intros [= <-]. exists d, c, s.
  split; [reflexivity|]. split; [exact Ec|]. split; [exact Es|].
  split; [|reflexivity].
  intros H. rewrite H in E. discriminate.
Qed.

Lemma extract_iso2_raise (obj : pyval) (filename : string) (e : exn) :
  Merge.extract_iso2 obj filename = Raise e -> exists m, e = ValueError m.
Proof.
  unfold Merge.extract_iso2.
  destruct obj as [| | | | | |d]; try (intros [= <-]; eauto).
  destruct (dict_get d "country") as [[| | | | | |c]|]; try (intros [= <-]; eauto).
  destruct (dict_get c "iso2") as [[| | | |s| |]|]; try (intros [= <-]; eauto).
  destruct (PyStr.is_empty (PyStr.strip s)); [intros [= <-]; eauto|discriminate].
Qed.

End Codes.

(** X17: the code [extract_iso2] returns is the record's [country.iso2],
    a string, with the whitespace at its ends removed and its letters in
    upper case; it is never empty, and the report's own normalisation of a
    bundle key leaves it as it is.  When there is no such string, or a
    blank one, the failure is a [ValueError]. *)
Theorem extract_iso2_normal (obj : pyval) (filename : string) :
  (forall r, Merge.extract_iso2 obj filename = Ok r ->
     normal_code r
     /\ (forall v, normalised (r, v) = r)
     /\ exists d c s,
          obj = PDict d /\ dict_get d "country" = Some (PDict c)
          /\ dict_get c "iso2" = Some (PStr s)
          /\ r = PyStr.upper (PyStr.strip s))
  /\ (forall e, Merge.extract_iso2 obj filename = Raise e ->
        exists m, e = ValueError m).
Proof.
  split; [|apply extract_iso2_raise].
  intros r (d & c & s & -> & Hc & Hs & Hne & ->)%extract_iso2_ok.
  pose proof (normal_upper_strip s Hne) as (N1 & N2 & N3).
  split; [repeat split; assumption|]. split.
  - intros v. unfold normalised. simpl. rewrite N2, N3. reflexivity.
  - exists d, c, s. auto.
Qed.

(** X17 on a record whose code is written " es ". *)
Lemma extract_iso2_normal_witness :
  normal_code "ES"
  /\ (forall v, normalised ("ES", v) = "ES")
  /\ exists d c s,
       PDict [("country", PDict [("iso2", PStr " es ")])] = PDict d
       /\ dict_get d "country" = Some (PDict c)
       /\ dict_get c "iso2" = Some (PStr s)
       /\ "ES" = PyStr.upper (PyStr.strip s).
Proof.
  apply (proj1 (extract_iso2_normal
                  (PDict [("country", PDict [("iso2", PStr " es ")])]) "a.json")).
  reflexivity.
Defined.

(** ** Dictionaries as association lists *)

Section Dicts.
Context {A : Type}.
Implicit Types (d : list (string * A)) (k : string) (v : A).

Lemma dict_get_None d k : dict_get d k = None <-> k ∉ map fst d.
Proof.
  induction d as [|[k' v'] d IH]; simpl.
  - split; [intros _; apply not_elem_of_nil|reflexivity].
  - destruct (String.eqb_spec k' k) as [->|N].
    + split; [discriminate|]. intros H. exfalso. apply H. left.
    + rewrite IH, not_elem_of_cons. split; [auto|tauto].
Qed.

Lemma dict_get_Some d k v : dict_get d k = Some v -> (k, v) ∈ d.
Proof.
  induction d as [|[k' v'] d IH]; simpl; [discriminate|].
  destruct (String.eqb_spec k' k) as [->|N].
  - intros [= ->]. left.
  - intros H. right. auto.
Qed.

Lemma dict_get_app d1 d2 k :
  dict_get (d1 ++ d2) k
  = match dict_get d1 k with Some v => Some v | None => dict_get d2 k end.
Proof.
  induction d1 as [|[k' v'] d1 IH]; simpl; [reflexivity|].
  destruct (String.eqb k' k); [reflexivity|exact IH].
Qed.

Lemma dict_get_set d k v k' :
  dict_get (Merge.dict_set k v d) k'
  = if decide (k = k') then Some v else dict_get d k'.
Proof.
  induction d as [|[k0 v0] d IH]; simpl.
  - destruct (String.eqb_spec k k'), (decide (k = k')); congruence.
  - destruct (String.eqb_spec k0 k) as [->|N]; simpl.
    + destruct (String.eqb_spec k k'), (decide (k = k')); congruence.
    + destruct (String.eqb_spec k0 k') as [->|N'].
      * rewrite decide_False by congruence. reflexivity.
      * exact IH.
Qed.

Lemma dict_set_fresh d k v :
  dict_get d k = None -> Merge.dict_set k v d = (d ++ [(k, v)])%list.
Proof.
  induction d as [|[k0 v0] d IH]; simpl; [reflexivity|].
  destruct (String.eqb k0 k); [discriminate|]. intros H. rewrite IH by exact H.
  reflexivity.
Qed.

Lemma dict_set_keys d k v :
  map fst (Merge.dict_set k v d)
  = match dict_get d k with
    | Some _ => map fst d
    | None => (map fst d ++ [k])%list
    end.
Proof.
  induction d as [|[k0 v0] d IH]; simpl; [reflexivity|].
  destruct (String.eqb_spec k0 k) as [->|N]; simpl; [reflexivity|].
  rewrite IH. destruct (dict_get d k); reflexivity.
Qed.

Lemma dict_set_elem d k v kv :
  kv ∈ Merge.dict_set k v d -> kv = (k, v) \/ kv ∈ d.
Proof.
  induction d as [|[k0 v0] d IH]; simpl.
  - intros ->%list_elem_of_singleton. auto.
  - destruct (String.eqb_spec k0 k) as [->|N].
    + intros [->|H]%elem_of_cons; [auto|]. right. right. exact H.
    + intros [->|H]%elem_of_cons; [right; left|].
      destruct (IH H); [auto|]. right. right. assumption.
Qed.

Lemma dict_set_length d k v :
  length (Merge.dict_set k v d)
  = match dict_get d k with Some _ => length d | None => S (length d) end.
Proof.
  induction d as [|[k0 v0] d IH]; simpl; [reflexivity|].
  destruct (String.eqb k0 k); simpl; [reflexivity|].
  rewrite IH. destruct (dict_get d k); reflexivity.
Qed.

Lemma dict_get_setdefault d k v k' :
  dict_get (Merge.dict_setdefault k v d) k'
  = match dict_get d k' with
    | Some x => Some x
    | None => if decide (k = k') then Some v else None
    end.
Proof.
  unfold Merge.dict_setdefault. destruct (dict_get d k) as [x|] eqn:E.
  - destruct (dict_get d k') eqn:E'; [reflexivity|].
    rewrite decide_False; [reflexivity|]. intros ->. congruence.
  - rewrite dict_get_app. destruct (dict_get d k'); [reflexivity|]. simpl.
    destruct (String.eqb_spec k k'), (decide (k = k')); congruence.
Qed.

End Dicts.

(** ** The merge loop *)

Section MergeLoop.

Lemma tag_source_dict (obj : pyval) (name : string) :
  is_dict obj = true ->
  exists d', Merge.tag_source obj name = Ok (PDict d').
Proof.
  destruct obj; try discriminate. intros _. unfold Merge.tag_source.
  destruct (dict_get _ "source") as [[| | | | | |src]|]; eauto.
Qed.

Lemma code_of_ok (f : string * Merge.file_content) (k : string) :
  code_of f = Ok k ->
  normal_code k
  /\ exists obj d', f.2 = Merge.Parsed obj /\ Merge.extract_iso2 obj f.1 = Ok k
                    /\ record_of f = Ok (PDict d').
Proof.
  unfold code_of, record_of. destruct f as [name [obj|err]]; simpl; [|discriminate].
  intros H. pose proof H as (d & c & s & -> & _ & _ & Hne & ->)%extract_iso2_ok.
  split; [apply normal_upper_strip, Hne|].
  destruct (tag_source_dict (PDict d) name eq_refl) as [d' Hd'].
  exists (PDict d), d'. auto.
Qed.

Lemma code_of_raise (f : string * Merge.file_content) (e : exn) :
  code_of f = Raise e -> exists m, e = ValueError m.
Proof.
  unfold code_of. destruct f as [name [obj|err]]; simpl.
  - apply extract_iso2_raise.
  - intros [= <-]. eauto.
Qed.

(** One turn of the loop, read off the code of the file. *)
Lemma merge_map_cons (ow : bool) (f : string * Merge.file_content)
    (rest : list (string * Merge.file_content)) (cm0 : list (string * pyval)) :
  match code_of f with
  | Ok k =>
      exists d', record_of f = Ok (PDict d')
        /\ Merge.merge_map ow (f :: rest) cm0
           = if bool_decide (is_Some (dict_get cm0 k)) && negb ow
             then Raise (ValueError (Merge.duplicado k f.1))
             else Merge.merge_map ow rest (Merge.dict_set k (PDict d') cm0)
  | Raise e => Merge.merge_map ow (f :: rest) cm0 = Raise e
  end.
Proof.
  destruct (code_of f) as [k|e] eqn:E.
  - destruct (code_of_ok f k E) as (_ & obj & d' & Hf & Hx & Hr).
    exists d'. split; [exact Hr|].
    destruct f as [name c]. simpl in Hf. subst c.
    unfold record_of in Hr. simpl in Hr, Hx |- *. rewrite Hx. simpl. rewrite Hr.
    reflexivity.
  - destruct f as [name [obj|err]]; unfold code_of in E; simpl in E |- *.
    + rewrite E. reflexivity.
    + congruence.
Qed.

Lemma merge_map_step (ow : bool) (f : string * Merge.file_content)
    (rest : list (string * Merge.file_content)) (cm0 cm : list (string * pyval)) :
  Merge.merge_map ow (f :: rest) cm0 = Ok cm ->
  exists k d',
    code_of f = Ok k /\ record_of f = Ok (PDict d')
    /\ (dict_get cm0 k = None \/ ow = true)
    /\ Merge.merge_map ow rest (Merge.dict_set k (PDict d') cm0) = Ok cm.
Proof.
  intros H. pose proof (merge_map_cons ow f rest cm0) as Hc.
  destruct (code_of f) as [k|e]; [|congruence].
  destruct Hc as (d' & Hr & Heq). rewrite Heq in H. exists k, d'.
  split; [reflexivity|]. split; [exact Hr|].
  destruct (dict_get cm0 k) eqn:Eg; simpl in H.
  - destruct ow; simpl in H; [auto|discriminate].
  - auto.
Qed.

Lemma merge_map_lookup ow files cm0 cm k :
  Merge.merge_map ow files cm0 = Ok cm ->
  dict_get cm k
  = match last (filter (fun f => code_of f = Ok k) files) with
    | Some f => ok_value (record_of f)
    | None => dict_get cm0 k
    end.
Proof.
  revert cm0. induction files as [|f rest IH]; intros cm0 H.
  - simpl in H. injection H as <-. reflexivity.
  - apply merge_map_step in H as (k0 & d' & Hk & Hr & _ & H).
    rewrite (IH _ H), filter_cons, dict_get_set.
    destruct (decide (code_of f = Ok k)) as [E|E].
    + rewrite last_cons. destruct (last (filter _ rest)); [reflexivity|].
      rewrite decide_True by congruence. rewrite Hr. reflexivity.
    + destruct (last (filter _ rest)); [reflexivity|].
      rewrite decide_False; [reflexivity|]. intros ->. contradiction.
Qed.

Lemma merge_map_keys ow files cm0 cm k :
  Merge.merge_map ow files cm0 = Ok cm ->
  k ∈ map fst cm <-> k ∈ map fst cm0 \/ exists f, f ∈ files /\ code_of f = Ok k.
Proof.
  revert cm0. induction files as [|f rest IH]; intros cm0 H.
  - simpl in H. injection H as <-. split; [auto|].
    intros [?|(f & []%elem_of_nil & _)]. assumption.
  - apply merge_map_step in H as (k0 & d' & Hk & _ & _ & H).
    rewrite (IH _ H), dict_set_keys. split.
    + intros [Hin|(f' & Hf' & Hc)].
      * destruct (dict_get cm0 k0); [auto|].
        apply elem_of_app in Hin as [? | ->%list_elem_of_singleton]; [auto|].
        right. exists f. split; [left|exact Hk].
      * right. exists f'. split; [right; exact Hf'|exact Hc].
    + intros [Hin|(f' & [->|Hf']%elem_of_cons & Hc)].
      * left. destruct (dict_get cm0 k0); [exact Hin|]. apply elem_of_app. auto.
      * left. assert (k0 = k) as -> by congruence.
        destruct (dict_get cm0 k) eqn:Eg.
        -- apply dict_get_Some in Eg. apply (list_elem_of_fmap_2 fst) in Eg. exact Eg.
        -- apply elem_of_app. right. left.
      * right. eauto.
Qed.

Lemma merge_map_NoDup ow files cm0 cm :
  Merge.merge_map ow files cm0 = Ok cm ->
  NoDup (map fst cm0) -> NoDup (map fst cm).
Proof.
  revert cm0. induction files as [|f rest IH]; intros cm0 H Hn.
  - simpl in H. injection H as <-. exact Hn.
  - apply merge_map_step in H as (k0 & d' & _ & _ & _ & H).
    apply (IH _ H). rewrite dict_set_keys.
    destruct (dict_get cm0 k0) eqn:Eg; [exact Hn|].
    apply NoDup_app. split; [exact Hn|]. split; [|apply NoDup_singleton].
    intros x Hx ->%list_elem_of_singleton. apply dict_get_None in Eg. contradiction.
Qed.

Lemma merge_map_values ow files cm0 cm :
  Merge.merge_map ow files cm0 = Ok cm ->
  Forall (fun kv => is_dict kv.2 = true) cm0 ->
  Forall (fun kv => is_dict kv.2 = true) cm.
Proof.
  revert cm0. induction files as [|f rest IH]; intros cm0 H Hv.
  - simpl in H. injection H as <-. exact Hv.
  - apply merge_map_step in H as (k0 & d' & _ & _ & _ & H).
    apply (IH _ H). apply Forall_forall. intros kv [->|Hin]%dict_set_elem.
    + reflexivity.
    + rewrite Forall_forall in Hv. auto.
Qed.

Lemma merge_map_length ow files cm0 cm :
  Merge.merge_map ow files cm0 = Ok cm ->
  (length cm <= length cm0 + length files)%nat
  /\ (ow = false -> length cm = (length cm0 + length files)%nat).
Proof.
  revert cm0. induction files as [|f rest IH]; intros cm0 H.
  - simpl in H. injection H as <-. simpl. lia.
  - apply merge_map_step in H as (k0 & d' & _ & _ & Hfresh & H').
    destruct (IH _ H') as [IH1 IH2]. rewrite dict_set_length in IH1, IH2.
    simpl length. split.
    + destruct (dict_get cm0 k0); lia.
    + intros ->. destruct Hfresh as [E|E]; [|discriminate].
      rewrite E in IH2. rewrite IH2 by reflexivity. lia.
Qed.

(** Without overwrite, the keys added are the codes of the files, in order. *)
Lemma merge_map_codes files cm0 cm :
  Merge.merge_map false files cm0 = Ok cm ->
  exists codes, Forall2 (fun f k => code_of f = Ok k) files codes
                /\ map fst cm = (map fst cm0 ++ codes)%list.
Proof.
  revert cm0. induction files as [|f rest IH]; intros cm0 H.
  - simpl in H. injection H as <-. exists []. rewrite app_nil_r. split; constructor.
  - apply merge_map_step in H as (k0 & d' & Hk & _ & [Hfresh|Hw] & H');
      [|discriminate].
    destruct (IH _ H') as (codes & Hc & Hkeys).
    exists (k0 :: codes). split; [constructor; assumption|].
    rewrite Hkeys, dict_set_keys, Hfresh, <- app_assoc. reflexivity.
Qed.

Lemma merge_map_complete files codes cm0 :
  Forall2 (fun f k => code_of f = Ok k) files codes ->
  NoDup codes -> (forall k, k ∈ codes -> k ∉ map fst cm0) ->
  exists cm, Merge.merge_map false files cm0 = Ok cm.
Proof.
  intros H. revert cm0. induction H as [|f k files codes Hk _ IH]; intros cm0 Hn Hf.
  - simpl. eauto.
  - pose proof (merge_map_cons false f files cm0) as Hc. rewrite Hk in Hc.
    destruct Hc as (d' & _ & ->).
    assert (Eg : dict_get cm0 k = None) by (apply dict_get_None, Hf; left).
    rewrite Eg. simpl. apply NoDup_cons in Hn as [Hk' Hn].
    apply IH; [exact Hn|]. intros x Hx. rewrite dict_set_keys, Eg.
    intros [Hin | ->%list_elem_of_singleton]%elem_of_app; [|contradiction].
    apply (Hf x); [right; exact Hx|exact Hin].
Qed.

Lemma merge_jsons_map_ok dir files t rec ow out :
  Merge.merge_jsons dir files t "map" rec ow = Ok out ->
  exists cm,
    files <> [] /\ Merge.merge_map ow files [] = Ok cm
    /\ out = PDict
         [("schema_version", PStr "country_sim_inputs_bundle_v1");
          ("generated_at_utc", PStr t);
          ("mode", PStr "map");
          ("countries", PDict cm);
          ("stats",
           PDict [("input_dir", PStr dir);
                  ("files_merged", PInt (Z.of_nat (length files)));
                  ("unique_countries", PInt (Z.of_nat (length cm)));
                  ("recursive", PBool rec);
                  ("overwrite", PBool ow)])].
Proof.
  unfold Merge.merge_jsons. destruct files as [|f files]; [discriminate|].
  simpl String.eqb. cbv iota.
  intros (cm & Hcm & [= <-])%bind_ok. exists cm. split; [discriminate|]. auto.
Qed.

End MergeLoop.

(** ** The merged bundle *)

(** X18: a bundle merged in map mode holds, under [countries], a mapping
    whose keys are distinct normal codes and whose values are mappings; it
    has at most one entry per file, exactly one without overwrite, and its
    statistics give the number of files and the number of entries. *)
Theorem merged_countries_shape (dir : string)
    (files : list (string * Merge.file_content)) (t : string)
    (rec ow : bool) (out : pyval) :
  Merge.merge_jsons dir files t "map" rec ow = Ok out ->
  exists cm stats,
    pyval_get out "countries" = Ok (Some (PDict cm))
    /\ pyval_get out "stats" = Ok (Some (PDict stats))
    /\ NoDup (map fst cm)
    /\ Forall (fun kv => normal_code kv.1 /\ is_dict kv.2 = true) cm
    /\ (length cm <= length files)%nat
    /\ (ow = false -> length cm = length files)
    /\ dict_get stats "files_merged" = Some (PInt (Z.of_nat (length files)))
    /\ dict_get stats "unique_countries" = Some (PInt (Z.of_nat (length cm))).
Proof.
  intros (cm & _ & Hcm & ->)%merge_jsons_map_ok.
  eexists cm, _. split; [reflexivity|]. split; [reflexivity|].
  split; [eapply merge_map_NoDup; [exact Hcm|constructor]|].
  split.
  - pose proof (merge_map_values _ _ _ _ Hcm (Forall_nil_2 _)) as Hv.
    rewrite Forall_forall in Hv |- *. intros kv Hin. split; [|auto].
    assert (Hk : kv.1 ∈ map fst cm) by apply (list_elem_of_fmap_2 fst), Hin.
    apply (merge_map_keys _ _ _ _ _ Hcm) in Hk as [Hk|(f & _ & Hf)].
    + apply elem_of_nil in Hk. contradiction.
    + apply (code_of_ok f), Hf.
  - destruct (merge_map_length _ _ _ _ Hcm) as [H1 H2]. simpl in H1, H2.
    repeat split; auto.
Qed.

(** X19: in a bundle merged in map mode, the entry of a code is the record
    of the last file that carries that code, and a code no file carries has
    no entry. *)
Theorem merged_lookup (dir : string)
    (files : list (string * Merge.file_content)) (t : string)
    (rec ow : bool) (out : pyval) :
  Merge.merge_jsons dir files t "map" rec ow = Ok out ->
  exists cm,
    pyval_get out "countries" = Ok (Some (PDict cm))
    /\ forall k,
         dict_get cm k
         = match last (filter (fun f => code_of f = Ok k) files) with
           | Some f => ok_value (record_of f)
           | None => None
           end.
Proof.
  intros (cm & _ & Hcm & ->)%merge_jsons_map_ok.
  exists cm. split; [reflexivity|]. intros k.
  apply (merge_map_lookup _ _ _ _ k Hcm).
Qed.

(** X20: without overwrite, a merge in map mode succeeds exactly when the
    folder has a file, every file yields a code, and no two files yield the
    same code; the keys of the bundle are then the codes of the files, in
    the order of the files. *)
Theorem merge_without_overwrite (dir : string)
    (files : list (string * Merge.file_content)) (t : string) (rec : bool) :
  ((exists out, Merge.merge_jsons dir files t "map" rec false = Ok out) <->
   files <> []
   /\ exists codes, Forall2 (fun f k => code_of f = Ok k) files codes
                    /\ NoDup codes)
  /\ forall out, Merge.merge_jsons dir files t "map" rec false = Ok out ->
       exists cm, pyval_get out "countries" = Ok (Some (PDict cm))
                  /\ Forall2 (fun f k => code_of f = Ok k) files (map fst cm).
Proof.
  split; [split|].
  - intros (out & (cm & Hne & Hcm & _)%merge_jsons_map_ok).
    split; [exact Hne|].
    destruct (merge_map_codes _ _ _ Hcm) as (codes & Hc & Hk). simpl in Hk.
    exists codes. split; [exact Hc|]. rewrite <- Hk.
    eapply merge_map_NoDup; [exact Hcm|constructor].
  - intros (Hne & codes & Hc & Hn).
    destruct (merge_map_complete files codes [] Hc Hn) as [cm Hcm].
    { intros k _. apply not_elem_of_nil. }
    unfold Merge.merge_jsons. destruct files as [|f files]; [congruence|].
    simpl String.eqb. cbv iota. rewrite Hcm. simpl. eauto.
  - intros out (cm & _ & Hcm & ->)%merge_jsons_map_ok.
    exists cm. split; [reflexivity|].
    destruct (merge_map_codes _ _ _ Hcm) as (codes & Hc & Hk). simpl in Hk.
    rewrite Hk. exact Hc.
Qed.

(** X18, X19 and X20 on a folder of three files, two of them for Spain:
    with overwrite the later record of Spain stands where the first stood. *)
Lemma merged_countries_shape_witness :
  exists cm stats,
    pyval_get merged_three "countries" = Ok (Some (PDict cm))
    /\ pyval_get merged_three "stats" = Ok (Some (PDict stats))
    /\ NoDup (map fst cm)
    /\ Forall (fun kv => normal_code kv.1 /\ is_dict kv.2 = true) cm
    /\ (length cm <= length [spain_a; france; spain_c])%nat
    /\ (true = false -> length cm = length [spain_a; france; spain_c])
    /\ dict_get stats "files_merged"
       = Some (PInt (Z.of_nat (length [spain_a; france; spain_c])))
    /\ dict_get stats "unique_countries" = Some (PInt (Z.of_nat (length cm))).
Proof.
  apply (merged_countries_shape "in" [spain_a; france; spain_c] "now" false true
           merged_three).
  reflexivity.
Defined.

Lemma merged_lookup_witness :
  exists cm,
    pyval_get merged_three "countries" = Ok (Some (PDict cm))
    /\ forall k,
         dict_get cm k
         = match last (filter (fun f => code_of f = Ok k)
                         [spain_a; france; spain_c]) with
           | Some f => ok_value (record_of f)
           | None => None
           end.
Proof.
  apply (merged_lookup "in" [spain_a; france; spain_c] "now" false true
           merged_three).
  reflexivity.
Defined.

Lemma merge_without_overwrite_witness :
  exists cm,
    pyval_get merged_two "countries" = Ok (Some (PDict cm))
    /\ Forall2 (fun f k => code_of f = Ok k) [spain_a; france] (map fst cm).
Proof.
  apply (proj2 (merge_without_overwrite "in" [spain_a; france] "now" false)
           merged_two).
  reflexivity.
Defined.

(** The same three files without overwrite: the second record of Spain is
    refused. *)
Example duplicate_code_refused :
  Merge.merge_jsons "in" [spain_a; france; spain_c] "now" "map" false false
  = Raise (ValueError (Merge.duplicado "ES" "c.json")).
Proof. reflexivity. Qed.

(** ** The trace of the input file *)

Section Trace.
Context `{B : PyBuiltins}.

Lemma tag_source_get (d : list (string * pyval)) (name : string) (v : pyval) :
  Merge.tag_source (PDict d) name = Ok v ->
  exists d', v = PDict d'
    /\ (forall k, k <> "source" -> k <> "_input_file" ->
                  dict_get d' k = dict_get d k)
    /\ match dict_get d "source" with
       | Some (PDict src) =>
           exists src', dict_get d' "source" = Some (PDict src')
             /\ dict_get src' "input_file"
                = Some (default (PStr name) (dict_get src "input_file"))
       | Some other =>
           dict_get d' "source" = Some other
           /\ dict_get d' "_input_file" = Some (PStr name)
       | None =>
           dict_get d' "source" = Some (PDict [("input_file", PStr name)])
       end.
Proof.
  unfold Merge.tag_source.
  set (d1 := Merge.dict_setdefault "source" (PDict []) d).
  assert (H1 : forall k, dict_get d1 k
                         = match dict_get d k with
                           | Some x => Some x
                           | None => if decide ("source" = k) then Some (PDict [])
                                     else None
                           end) by (intros; apply dict_get_setdefault).
  pose proof (H1 "source") as Hs. rewrite decide_True in Hs by reflexivity.
  destruct (dict_get d "source") as [x|] eqn:Ex.
  - rewrite Hs.
    assert (Hframe : forall key val k, k <> key ->
              (key = "source" \/ k <> "source") ->
              dict_get (Merge.dict_set key val d1) k = dict_get d k).
    { intros key val k Hk Hor. rewrite dict_get_set, decide_False by congruence.
      rewrite H1. destruct (dict_get d k) eqn:Ek; [reflexivity|].
      destruct (decide ("source" = k)) as [<-|]; [congruence|reflexivity]. }
    destruct x; intros [= <-]; eexists; (split; [reflexivity|]);
      (split; [intros k K1 K2; apply Hframe; auto|]);
      try (split; [rewrite dict_get_set, decide_False by discriminate;
                   exact Hs
                  |rewrite dict_get_set, decide_True by reflexivity; reflexivity]).
    eexists. split; [rewrite dict_get_set, decide_True by reflexivity; reflexivity|].
    rewrite dict_get_setdefault. destruct (dict_get d0 "input_file"); [reflexivity|].
    rewrite decide_True by reflexivity. reflexivity.
  - rewrite Hs. intros [= <-]. eexists. split; [reflexivity|]. split.
    + intros k K1 K2. rewrite dict_get_set, decide_False by congruence.
      rewrite H1. destruct (dict_get d k); [reflexivity|].
      rewrite decide_False by congruence. reflexivity.
    + rewrite dict_get_set, decide_True by reflexivity. reflexivity.
Qed.

Lemma analysis_reads_three_keys (d d' : list (string * pyval)) :
  dict_get d' "country" = dict_get d "country" ->
  dict_get d' "inputs" = dict_get d "inputs" ->
  dict_get d' "missing_fields" = dict_get d "missing_fields" ->
  forall req show idx st key,
    loop_body req show idx st (key, PDict d')
    = loop_body req show idx st (key, PDict d).
Proof.
  intros Hc Hi Hm req show idx st key.
  unfold loop_body, analyze_country, declared_of, csv_check, resolve_iso3. simpl.
  rewrite Hc, Hi, Hm. reflexivity.
Qed.

(** X21: a record that the merge has filed names its input file: in the
    [input_file] of its [source] when that is a mapping (one is made when
    the record has no [source]), keeping an [input_file] that is already
    there; else in [_input_file].  No other key of the record is touched. *)
Theorem tagged_record_names_file (d : list (string * pyval)) (name : string)
    (v : pyval) :
  Merge.tag_source (PDict d) name = Ok v ->
  exists d', v = PDict d'
    /\ (forall k, k <> "source" -> k <> "_input_file" ->
                  dict_get d' k = dict_get d k)
    /\ match dict_get d "source" with
       | Some (PDict src) =>
           exists src', dict_get d' "source" = Some (PDict src')
             /\ dict_get src' "input_file"
                = Some (default (PStr name) (dict_get src "input_file"))
       | Some other =>
           dict_get d' "source" = Some other
           /\ dict_get d' "_input_file" = Some (PStr name)
       | None =>
           dict_get d' "source" = Some (PDict [("input_file", PStr name)])
       end.
Proof. apply tag_source_get. Qed.

(** X22: the report treats a record the merge has filed as it treats the
    record as it was in its file: one turn of its loop gives the same state,
    or the same exception, for both. *)
Theorem tagged_record_same_analysis (d : list (string * pyval)) (name : string)
    (v : pyval) :
  Merge.tag_source (PDict d) name = Ok v ->
  forall req show idx st key,
    loop_body req show idx st (key, v)
    = loop_body req show idx st (key, PDict d).
Proof.
  intros (d' & -> & Hk & _)%tag_source_get.
  apply analysis_reads_three_keys; apply Hk; discriminate.
Qed.

End Trace.

(** X21 and X22 on the record of France, whose [source] already names a
    file. *)
Lemma tagged_record_names_file_witness :
  exists d',
    PDict [("country", PDict [("iso2", PStr "FR")]);
           ("source", PDict [("input_file", PStr "old.json")])] = PDict d'
    /\ (forall k, k <> "source" -> k <> "_input_file" ->
          dict_get d' k
          = dict_get [("country", PDict [("iso2", PStr "FR")]);
                      ("source", PDict [("input_file", PStr "old.json")])] k)
    /\ exists src', dict_get d' "source" = Some (PDict src')
         /\ dict_get src' "input_file" = Some (PStr "old.json").
Proof.
  apply (tagged_record_names_file
           [("country", PDict [("iso2", PStr "FR")]);
            ("source", PDict [("input_file", PStr "old.json")])] "b.json").
  reflexivity.
Defined.

Lemma tagged_record_same_analysis_witness :
  Merge.tag_source
    (PDict [("country", PDict [("iso2", PStr "Es")]); ("source", PStr "oecd")])
    "c.json"
  = Ok (PDict [("country", PDict [("iso2", PStr "Es")]);
               ("source", PStr "oecd"); ("_input_file", PStr "c.json")])
  /\ loop_body (B := ascii_builtins) ["rho"] true None init_state
       ("es", PDict [("country", PDict [("iso2", PStr "Es")]);
                     ("source", PStr "oecd"); ("_input_file", PStr "c.json")])
     = loop_body (B := ascii_builtins) ["rho"] true None init_state
         ("es", PDict [("country", PDict [("iso2", PStr "Es")]);
                       ("source", PStr "oecd")]).
Proof.
  split; [reflexivity|].
  apply (tagged_record_same_analysis (B := ascii_builtins)
           [("country", PDict [("iso2", PStr "Es")]); ("source", PStr "oecd")]
           "c.json").
  reflexivity.
Defined.

(** ** From the merge to the report *)

Section Pipeline.
Context `{B : PyBuiltins}.

Lemma main_not_structure (a : args) (items : list (string * pyval)) :
  pyval_get (json_data a) "countries" = Ok (Some (PDict items)) ->
  main a <> Raise (SystemExit structure_msg).
Proof.
  intros Hc H. unfold main in H. rewrite Hc in H. simpl in H.
  apply bind_raise in H as [H|(idx & _ & H)].
  - unfold load_index in H.
    destruct (oecd_csv a) as [path|]; [|discriminate].
    destruct (PyStr.is_empty path); [discriminate|].
    destruct (load_oecd_population_csv _ _); [discriminate|].
    injection H as H. vm_compute in H. discriminate.
  - apply bind_raise in H as [H|(st & _ & H)]; [|discriminate].
    apply run_loop_raise in H as [H|H]; discriminate.
Qed.

Lemma mappings_all (items : list (string * pyval)) :
  Forall (fun kv => is_dict kv.2 = true) items -> mappings items = items.
Proof.
  intros H. unfold mappings. induction H as [|x l Hx _ IH]; [reflexivity|].
  rewrite filter_cons, decide_True by exact Hx. rewrite IH. reflexivity.
Qed.

Lemma normalised_normal (items : list (string * pyval)) :
  Forall normal_code (map fst items) -> map normalised items = map fst items.
Proof.
  induction items as [|[k v] items IH]; simpl; [reflexivity|].
  intros [(_ & N2 & N3) Hr]%Forall_cons. rewrite IH by exact Hr.
  unfold normalised. simpl. rewrite N2, N3. reflexivity.
Qed.

(** X23: the report accepts a bundle merged in map mode, also after its
    keys have been put in another order: the run never ends with the
    structure error, and when it returns it has counted one country per
    entry of the bundle, skipped none, and every block bears a key of the
    bundle as its code. *)
Theorem merged_bundle_accepted (dir : string)
    (files : list (string * Merge.file_content)) (t : string)
    (rec ow : bool) (out : pyval) :
  Merge.merge_jsons dir files t "map" rec ow = Ok out ->
  exists cm,
    pyval_get out "countries" = Ok (Some (PDict cm))
    /\ forall (a : args) (items : list (string * pyval)),
         pyval_get (json_data a) "countries" = Ok (Some (PDict items)) ->
         map fst items ≡ₚ map fst cm ->
         Forall (fun kv => is_dict kv.2 = true) items ->
         main a <> Raise (SystemExit structure_msg)
         /\ forall rep, main a = Ok rep ->
              rep_total rep = length cm
              /\ (show_ok a = true -> length (rep_countries rep) = length cm)
              /\ Forall (fun r => r_iso2 r ∈ map fst cm) (rep_countries rep).
Proof.
  intros (cm & _ & Hcm & ->)%merge_jsons_map_ok.
  exists cm. split; [reflexivity|].
  intros a items Hc Hperm Hdict. split; [eapply main_not_structure, Hc|].
  intros rep (items' & idx & st & Hc' & _ & Hrun & Ht & _ & _ & Hrows & _)%main_ok_state.
  rewrite Hc in Hc'. injection Hc' as <-.
  destruct (run_loop_inv _ _ _ _ _ _ _ _ Hrun (loop_inv_init (show_ok a) idx))
    as [It _ _ _ Is _].
  simpl in It, Is. rewrite (mappings_all _ Hdict) in Is.
  assert (Hlen : length items = length cm).
  { rewrite <- (length_map fst items), <- (length_map fst cm).
    apply Permutation_length, Hperm. }
  split; [congruence|]. split.
  - intros Hs. rewrite Hrows, length_filter_sorted, filter_all.
    + rewrite Is by exact Hs. exact Hlen.
    + intros r. apply printed_iff. auto.
  - destruct (run_loop_tallied _ _ _ _ _ _ Hrun) as [_ (new & Hnew & Hsub)];
      [repeat split|].
    simpl in Hnew. subst new.
    assert (Hnorm : Forall normal_code (map fst items)).
    { rewrite Hperm. apply Forall_forall. intros k Hk.
      apply (merge_map_keys _ _ _ _ _ Hcm) in Hk as [Hk|(f & _ & Hf)].
      - apply elem_of_nil in Hk. contradiction.
      - apply (code_of_ok f), Hf. }
    rewrite (normalised_normal _ Hnorm) in Hsub.
    rewrite Hrows. apply Forall_forall. intros r [_ Hr]%list_elem_of_filter.
    unfold sort_rows in Hr. rewrite stable_sort_perm in Hr.
    rewrite <- Hperm. apply (sublist_subseteq _ _ Hsub).
    apply (list_elem_of_fmap_2 r_iso2), Hr.
Qed.

Lemma merge_list_ok (files : list (string * Merge.file_content)) (objs : list pyval) :
  Merge.merge_list files = Ok objs ->
  Forall2 (fun f v => record_of f = Ok v) files objs.
Proof.
  revert objs. induction files as [|[name c] files IH]; simpl; intros objs H.
  - injection H as <-. constructor.
  - apply bind_ok in H as (obj & Ho & H). apply bind_ok in H as (obj' & Ht & H).
    apply bind_ok in H as (rest & Hr & H). injection H as <-.
    constructor; [|apply IH, Hr].
    unfold record_of. simpl. rewrite Ho. exact Ht.
Qed.

Lemma merge_list_raise (files : list (string * Merge.file_content)) (e : exn) :
  Merge.merge_list files = Raise e ->
  (exists m, e = ValueError m) \/ e = AttributeError.
Proof.
  induction files as [|[name c] files IH]; simpl; [discriminate|].
  intros [H|(obj & _ & H)]%bind_raise.
  - destruct c; simpl in H; [discriminate|]. injection H as <-. eauto.
  - apply bind_raise in H as [H|(obj' & _ & H)].
    + destruct obj; simpl in H; try (injection H as <-; auto).
      destruct (dict_get _ "source") as [[| | | | | |src]|]; discriminate.
    + apply bind_raise in H as [H|(rest & _ & H)]; [auto|discriminate].
Qed.

Lemma merge_map_raise ow files cm0 e :
  Merge.merge_map ow files cm0 = Raise e -> exists m, e = ValueError m.
Proof.
  revert cm0. induction files as [|f rest IH]; intros cm0 H; [discriminate|].
  pose proof (merge_map_cons ow f rest cm0) as Hc.
  destruct (code_of f) as [k|e'] eqn:E.
  - destruct Hc as (d' & _ & Heq). rewrite Heq in H.
    destruct (_ && _); [injection H as <-; eauto|eauto].
  - rewrite Hc in H. injection H as <-. eapply code_of_raise, E.
Qed.

(** X24: a bundle merged in list mode holds, under [countries], the list of
    the records of the files, in the order of the files; the report refuses
    it with the structure error. *)
Theorem list_bundle_refused (dir : string)
    (files : list (string * Merge.file_content)) (t : string)
    (rec ow : bool) (out : pyval) :
  Merge.merge_jsons dir files t "list" rec ow = Ok out ->
  exists objs,
    pyval_get out "countries" = Ok (Some (PList objs))
    /\ Forall2 (fun f v => record_of f = Ok v) files objs
    /\ forall a, json_data a = out -> main a = Raise (SystemExit structure_msg).
Proof.
  unfold Merge.merge_jsons. destruct files as [|f files]; [discriminate|].
  simpl String.eqb. cbv iota.
  intros (objs & Ho & [= <-])%bind_ok. exists objs.
  split; [reflexivity|]. split; [apply merge_list_ok, Ho|].
  intros a Ha. unfold main. rewrite Ha. reflexivity.
Qed.

(** X25: a merge over a folder without files fails with a [ValueError],
    whatever the mode; with files and a mode that is neither "map" nor
    "list" it fails with a [ValueError] without reading a file.  In map
    mode every failure is a [ValueError]; in list mode a file that holds
    something else than a mapping gives an [AttributeError] instead. *)
Theorem merge_failures (dir : string)
    (files : list (string * Merge.file_content)) (t mode : string) (rec ow : bool) :
  (files = [] ->
   Merge.merge_jsons dir files t mode rec ow
   = Raise (ValueError ("No se encontraron .json en: " ++ dir)))
  /\ (files <> [] -> mode <> "map" -> mode <> "list" ->
      Merge.merge_jsons dir files t mode rec ow
      = Raise (ValueError "output_mode debe ser 'map' o 'list'"))
  /\ (forall e, Merge.merge_jsons dir files t "map" rec ow = Raise e ->
        exists m, e = ValueError m)
  /\ (forall e, Merge.merge_jsons dir files t "list" rec ow = Raise e ->
        (exists m, e = ValueError m) \/ e = AttributeError).
Proof.
  split; [intros ->; reflexivity|]. split; [|split].
  - intros Hne Hm Hl. unfold Merge.merge_jsons.
    destruct files; [congruence|].
    rewrite (proj2 (String.eqb_neq _ _) Hm), (proj2 (String.eqb_neq _ _) Hl).
    reflexivity.
  - intros e. unfold Merge.merge_jsons. destruct files as [|f files];
      [intros [= <-]; eauto|].
    simpl String.eqb. cbv iota.
    intros [H|(cm & _ & H)]%bind_raise; [|discriminate].
    eapply merge_map_raise, H.
  - intros e. unfold Merge.merge_jsons. destruct files as [|f files];
      [intros [= <-]; eauto|].
    simpl String.eqb. cbv iota.
    intros [H|(objs & _ & H)]%bind_raise; [|discriminate].
    eapply merge_list_raise, H.
Qed.

End Pipeline.

(** X23 on the bundle of the first two files, given to the report with
    [--show-ok]. *)
Lemma merged_bundle_accepted_witness :
  exists cm,
    pyval_get merged_two "countries" = Ok (Some (PDict cm))
    /\ forall (a : args) (items : list (string * pyval)),
         pyval_get (json_data a) "countries" = Ok (Some (PDict items)) ->
         map fst items ≡ₚ map fst cm ->
         Forall (fun kv => is_dict kv.2 = true) items ->
         main (B := ascii_builtins) a <> Raise (SystemExit structure_msg)
         /\ forall rep, main (B := ascii_builtins) a = Ok rep ->
              rep_total rep = length cm
              /\ (show_ok a = true -> length (rep_countries rep) = length cm)
              /\ Forall (fun r => r_iso2 r ∈ map fst cm) (rep_countries rep).
Proof.
  apply (merged_bundle_accepted (B := ascii_builtins) "in" [spain_a; france]
           "now" false false merged_two).
  reflexivity.
Defined.

Example merged_two_report :
  exists rep,
    main (B := ascii_builtins) (report_args merged_two true) = Ok rep
    /\ rep_total rep = 2%nat
    /\ map r_iso2 (rep_countries rep) = ["FR"; "ES"].
Proof. eexists. split; [vm_compute; reflexivity|]. split; reflexivity. Qed.

(** X24 on the first two files merged in list mode. *)
Lemma list_bundle_refused_witness :
  exists out objs,
    Merge.merge_jsons "in" [spain_a; france] "now" "list" false false = Ok out
    /\ pyval_get out "countries" = Ok (Some (PList objs))
    /\ Forall2 (fun f v => record_of f = Ok v) [spain_a; france] objs
    /\ forall a, json_data a = out ->
                 main (B := ascii_builtins) a = Raise (SystemExit structure_msg).
Proof.
  eexists.
  refine ((fun H => match list_bundle_refused (B := ascii_builtins) "in"
                            [spain_a; france] "now" false false _ H with
                    | ex_intro _ objs P => ex_intro _ objs (conj H P)
                    end) eq_refl).
Defined.

(** X25 on a folder with one file that holds a list. *)
Lemma merge_failures_witness :
  Merge.merge_jsons "in" [("x.json", Merge.Parsed (PList []))] "now" "both"
    false false
  = Raise (ValueError "output_mode debe ser 'map' o 'list'").
Proof.
  apply (merge_failures "in" [("x.json", Merge.Parsed (PList []))] "now" "both"
           false false); discriminate.
Defined.

(** * The region code of a country *)

Section RegionCode.
Context `{B : PyBuiltins}.

Lemma resolve_iso3_embedded (iso2 : string) (entry : list (string * pyval))
    (c : option pyval) :
  resolve_iso3 iso2 entry = Ok c ->
  c = match embedded_iso3 entry with
      | Some v => if truthy v then Some v else PStr <$> dict_get ISO2_TO_ISO3 iso2
      | None => PStr <$> dict_get ISO2_TO_ISO3 iso2
      end.
Proof.
  unfold resolve_iso3, embedded_iso3, or_empty_dict.
  destruct (dict_get entry "country") as [v|]; [|simpl; congruence].
  destruct v as [| b | n | f | s | l | d]; try destruct (truthy _) eqn:E;
    simpl; try congruence; try discriminate.
  destruct d; [|discriminate]. simpl. congruence.
Qed.

Lemma check_oecd_csv_key (c : pyval) (idx : oecd_index)
    (ok : bool) (y : option string) (issues : list string) (issue : string) :
  check_oecd_csv c idx = Ok (ok, y, issues) ->
  issue ∈ issues -> issue_key issue ∈ coverage_keys.
Proof.
  intros H Hi.
  assert (Hs : issues = [ "sin_filas_iso3" ] -> issue_key issue ∈ coverage_keys).
  { intros ->. apply list_elem_of_singleton in Hi as ->.
    unfold coverage_keys. left. }
  destruct c; simpl in H; try discriminate;
    try (injection H as _ _ <-; auto; fail).
  injection H as H. apply (check_issue_key s idx). rewrite H. exact Hi.
Qed.

(** X26: with the demographic check on, a country is reported with
    [no_iso3_mapping] exactly when it got no region code, which is exactly
    when its record embeds no true [iso3] and its key is not in the
    crosswalk; it then has no period and no other demographic issue.  A true
    embedded code is the one used, whatever the crosswalk says. *)
Theorem region_code_resolution (idx : oecd_index) (iso2 : string)
    (entry : list (string * pyval)) (c : option pyval) (y : option string)
    (issues : list string) :
  csv_check (Some idx) iso2 entry = Ok (c, y, issues) ->
  (c = None <->
     (forall v, embedded_iso3 entry = Some v -> truthy v = false)
     /\ dict_get ISO2_TO_ISO3 iso2 = None)
  /\ (forall v, embedded_iso3 entry = Some v -> truthy v = true -> c = Some v)
  /\ ("no_iso3_mapping" ∈ issues <-> c = None)
  /\ (c = None -> y = None /\ issues = ["no_iso3_mapping"]).
Proof.
  unfold csv_check. intros (r & Hr & H)%bind_ok.
  apply resolve_iso3_embedded in Hr.
  assert (Hres : r = None <->
            (forall v, embedded_iso3 entry = Some v -> truthy v = false)
            /\ dict_get ISO2_TO_ISO3 iso2 = None).
  { rewrite Hr. destruct (embedded_iso3 entry) as [v|].
    - destruct (truthy v) eqn:E.
      + split; [discriminate|]. intros [Hv _]. specialize (Hv v eq_refl).
        congruence.
      + destruct (dict_get ISO2_TO_ISO3 iso2); simpl.
        * split; [discriminate|]. intros [_ ?]. discriminate.
        * split; [|reflexivity]. intros _. split; [|reflexivity].
          intros v' [= <-]. exact E.
    - destruct (dict_get ISO2_TO_ISO3 iso2); simpl.
      + split; [discriminate|]. intros [_ ?]. discriminate.
      + split; [|reflexivity]. intros _. split; [|reflexivity]. discriminate. }
  assert (Hemb : forall v, embedded_iso3 entry = Some v -> truthy v = true ->
                           r = Some v).
  { intros v Hv Ht. rewrite Hr, Hv, Ht. reflexivity. }
  destruct r as [code|].
  - apply bind_ok in H as ([[ok y'] iss] & Hc & H). injection H as <- <- <-.
    split; [exact Hres|]. split; [exact Hemb|]. split; [|discriminate].
    split; [|discriminate]. intros Hi. exfalso.
    assert (Hk : issue_key "no_iso3_mapping" ∈ coverage_keys).
    { destruct ok; [apply elem_of_nil in Hi; contradiction|].
      eapply check_oecd_csv_key; [exact Hc|exact Hi]. }
    revert Hk. apply (bool_decide_unpack _). vm_compute. exact I.
  - injection H as <- <- <-.
    split; [exact Hres|]. split; [exact Hemb|]. split.
    + split; [reflexivity|]. intros _. left.
    + intros _. split; reflexivity.
Qed.

End RegionCode.

(** X26 on a record filed under [ES] that embeds the code [FRA], against an
    index that only knows [ESP]. *)
Lemma region_code_resolution_witness :
  csv_check (B := ascii_builtins) (Some (small_index (Some S754_nan) None)) "ES"
    [("country", PDict [("iso3", PStr "FRA")])]
  = Ok (Some (PStr "FRA"), None, ["sin_filas_iso3"])
  /\ (Some (PStr "FRA") = None <->
        (forall v, embedded_iso3 [("country", PDict [("iso3", PStr "FRA")])] = Some v ->
                   truthy v = false)
        /\ dict_get ISO2_TO_ISO3 "ES" = None)
  /\ (forall v, embedded_iso3 [("country", PDict [("iso3", PStr "FRA")])] = Some v ->
                truthy v = true -> Some (PStr "FRA") = Some v)
  /\ ("no_iso3_mapping" ∈ ["sin_filas_iso3"] <-> Some (PStr "FRA") = None)
  /\ (Some (PStr "FRA") = None ->
      @None string = None /\ ["sin_filas_iso3"] = ["no_iso3_mapping"]).
Proof.
  split; [reflexivity|].
  apply (region_code_resolution (B := ascii_builtins)
           (small_index (Some S754_nan) None) "ES"
           [("country", PDict [("iso3", PStr "FRA")])]).
  reflexivity.
Defined.
